(** * KeyVault: the shared state, the tree projection and the account
      operations of [library/widgets.py], embedded in Rocq.

    Labels are modelled as strings of 8-bit characters, the code points from
    U+0000 to U+00FF; [lower] is [str.lower] on that range.  The general
    statements below are proved from the reflexivity, symmetry and
    transitivity of [same_label]; the runs on sample inputs compute it.

    The [ttk.Treeview] widget, the [keyring] package, the Tk clipboard and the
    cache file are collaborators of the program; each gets a small model of
    the part of its interface that [widgets.py] calls. *)

From Stdlib Require Import Ascii String List Bool Arith Lia.
From stdpp Require Import base option list strings gmap.
Import ListNotations.

Local Open Scope nat_scope.

(** ** Strings *)

(** A character is a code point from U+0000 to U+00FF.  [str.lower] maps
    the capital letters of that range, A to Z (65-90), A-grave to O-diaeresis
    (192-214) and O-stroke to Thorn (216-222), to the letter 32 places up, and
    leaves every other character as it is. *)
Definition ascii_lower (c : ascii) : ascii :=
  let n := nat_of_ascii c in
  if ((65 <=? n) && (n <=? 90))
     || ((192 <=? n) && (n <=? 214))
     || ((216 <=? n) && (n <=? 222))
  then ascii_of_nat (n + 32) else c.

Fixpoint lower (s : string) : string :=
  match s with
  | EmptyString => EmptyString
  | String c r => String (ascii_lower c) (lower r)
  end.

(** [a.lower() == b.lower()] *)
Definition same_label (a b : string) : bool := String.eqb (lower a) (lower b).

(** ** The [ttk.Treeview] widget

    Items are kept in creation order.  Every item has a generated identifier
    (Tk names them I001, I002, ...: here the positive naturals), the identifier
    of its parent and a text.  [ROOT] is the identifier of the invisible root
    item (the empty string in [constants.py]). *)

Definition iid := nat.

Definition ROOT : iid := 0.

Record Item := mkItem { item_iid : iid; item_parent : iid; item_text : string }.

Record Treeview := mkTree { last_iid : nat; items : list Item }.

Module Tk.

(** A widget without items: [Treeview(frame, ...)]. *)
Definition Treeview_new : Treeview := mkTree 0 [].

(** [tree.get_children(item)]: the children of [item], in order. *)
Definition get_children (tv : Treeview) (p : iid) : list iid :=
  map item_iid (List.filter (fun it => item_parent it =? p) (items tv)).

Definition lookup_item (tv : Treeview) (i : iid) : option Item :=
  List.find (fun it => item_iid it =? i) (items tv).

(** [tree.item(i, "text")].  Tk raises [TclError] for an identifier that is
    not in the widget; the program only asks for identifiers it has just got
    from [get_children] (lemma [item_of_child] below), so that case is
    rendered by the empty text. *)
Definition item (tv : Treeview) (i : iid) : string :=
  match lookup_item tv i with
  | Some it => item_text it
  | None => EmptyString
  end.

(** [tree.insert(parent, END, text=...)]: a new last child of [parent];
    returns the generated identifier.  (Tk raises [TclError] when [parent] is
    not in the widget; the program passes [ROOT] or an identifier it has just
    looked up.) *)
Definition insert (tv : Treeview) (parent : iid) (text : string)
  : iid * Treeview :=
  let i := S (last_iid tv) in
  (i, mkTree i (items tv ++ [mkItem i parent text])).

Definition mem (i : iid) (l : list iid) : bool := existsb (Nat.eqb i) l.

(** Removal of the items named in [dead], then of their children, and so on
    down the tree. *)
Fixpoint delete_items (fuel : nat) (dead : list iid) (its : list Item)
  : list Item :=
  let kept := List.filter (fun it => negb (mem (item_iid it) dead)) its in
  match fuel with
  | 0 => kept
  | S n =>
      match map item_iid
              (List.filter (fun it => mem (item_parent it) dead) kept) with
      | [] => kept
      | next => delete_items n next kept
      end
  end.

(** [tree.delete(i)]: removes the item and all its descendants. *)
Definition delete (tv : Treeview) (i : iid) : Treeview :=
  mkTree (last_iid tv) (delete_items (length (items tv)) [i] (items tv)).

End Tk.

(** ** Python dictionaries with string keys, in insertion order *)

Definition Dict (V : Type) := list (string * V).

(** [d.update({k: v})]: an existing key keeps its place and gets the new
    value, a new key goes last. *)
Fixpoint dict_update {V} (d : Dict V) (k : string) (v : V) : Dict V :=
  match d with
  | [] => [(k, v)]
  | (k', v') :: r =>
      if String.eqb k' k then (k', v) :: r else (k', v') :: dict_update r k v
  end.

(** ** [SharedState]: the operations on the tree *)

Module SharedState.

(** [get_service_id(tree, value)]: the first top-level item whose text is
    [value] up to case; [None] when the loop falls through. *)
Definition get_service_id (tree : Treeview) (value : string) : option iid :=
  List.find (fun service => same_label value (Tk.item tree service))
            (Tk.get_children tree ROOT).

Definition get_username_id (tree : Treeview) (service_id : iid)
  (username : string) : option iid :=
  List.find (fun username_id => same_label username (Tk.item tree username_id))
            (Tk.get_children tree service_id).

Definition add_username (tree : Treeview) (service username : string)
  : Treeview :=
  let '(service_id, tree1) :=
    match get_service_id tree service with
    | None => Tk.insert tree ROOT service
    | Some service_id => (service_id, tree)
    end in
  match get_username_id tree1 service_id username with
  | None => snd (Tk.insert tree1 service_id username)
  | Some _ => tree1
  end.

(** One turn of the loop of [del_username]. *)
Definition del_step (username : string) (tree : Treeview) (account_id : iid)
  : Treeview :=
  let account := Tk.item tree account_id in
  if negb (String.eqb (lower account) (lower username)) then tree
  else Tk.delete tree account_id.

Definition del_username (tree : Treeview) (service username : string)
  : Treeview :=
  match get_service_id tree service with
  | Some service_id =>
      let tree1 :=
        fold_left (del_step username) (Tk.get_children tree service_id) tree in
      if length (Tk.get_children tree1 service_id) =? 0
      then Tk.delete tree1 service_id
      else tree1
  | None => tree
  end.

Definition get_tree (tree : Treeview) : Dict (list string) :=
  fold_left
    (fun d service_id =>
       let service := Tk.item tree service_id in
       let account_ids := Tk.get_children tree service_id in
       let accounts := map (Tk.item tree) account_ids in
       dict_update d service accounts)
    (Tk.get_children tree ROOT) [].

Definition set_tree (tree : Treeview) (cache : Dict (list string))
  : Treeview :=
  fold_left
    (fun t '(key, value) =>
       fold_left (fun t' item => add_username t' key item) value t)
    cache tree.

End SharedState.

(** ** [json.dumps] on a dictionary of lists of strings

    Default options: a comma and a space between elements, a colon and a
    space after a key, and every character outside the printable ASCII range
    escaped. *)

Module json.

Definition hex_digit (n : nat) : ascii :=
  if n <? 10 then ascii_of_nat (48 + n) else ascii_of_nat (87 + n).

Definition escape_char (c : ascii) : string :=
  let n := nat_of_ascii c in
  if n =? 34 then "\" +:+ String c EmptyString
  else if n =? 92 then "\\"
  else if n =? 8 then "\b"
  else if n =? 12 then "\f"
  else if n =? 10 then "\n"
  else if n =? 13 then "\r"
  else if n =? 9 then "\t"
  else if (32 <=? n) && (n <=? 126) then String c EmptyString
  else "\u00" +:+ String (hex_digit (n / 16))
                   (String (hex_digit (n mod 16)) EmptyString).

Fixpoint escape (s : string) : string :=
  match s with
  | EmptyString => EmptyString
  | String c r => escape_char c +:+ escape r
  end.

Definition quote : string := String (ascii_of_nat 34) EmptyString.

Definition dumps_str (s : string) : string := quote +:+ escape s +:+ quote.

Fixpoint join (sep : string) (l : list string) : string :=
  match l with
  | [] => EmptyString
  | [x] => x
  | x :: r => x +:+ sep +:+ join sep r
  end.

Definition dumps_list (l : list string) : string :=
  "[" +:+ join ", " (map dumps_str l) +:+ "]".

Definition dumps (d : Dict (list string)) : string :=
  "{" +:+ join ", " (map (fun '(k, v) => dumps_str k +:+ ": " +:+ dumps_list v) d)
      +:+ "}".

End json.

(** ** The secret store: the [keyring] package

    A store of secrets keyed by the pair (service, username). *)

Inductive outcome (A : Type) : Type :=
| Returned (a : A)
| PasswordDeleteError.
Arguments Returned {A} a.
Arguments PasswordDeleteError {A}.

Module keyring.

Definition get_password (store : gmap (string * string) string)
  (service username : string) : option string :=
  store !! (service, username).

Definition set_password (store : gmap (string * string) string)
  (service username password : string) : gmap (string * string) string :=
  <[(service, username) := password]> store.

Definition delete_password (store : gmap (string * string) string)
  (service username : string) : outcome (gmap (string * string) string) :=
  match store !! (service, username) with
  | Some _ => Returned (delete (service, username) store)
  | None => PasswordDeleteError
  end.

End keyring.

(** ** The cache file of [utils.py]: the folder [KEYVAULT] and the file
       [CACHE] in it *)

Record Files := mkFiles { keyvault_dir : bool; cache_file : option string }.

Module utils.

Definition check_folder_path (fs : Files) : Files :=
  if negb (keyvault_dir fs) then mkFiles true (cache_file fs) else fs.

(** [None] stands for [FileNotFoundError]. *)
Definition read_file (fs : Files) : option string := cache_file fs.

Definition write_file (data : string) (fs : Files) : Files :=
  mkFiles (keyvault_dir fs) (Some data).

End utils.

(** ** The application state

    One record for the whole process (module [Holders] below is about the
    mechanism that makes every frame see the same one): the four
    [StringVar]s of [mapping.Variables], the Tk clipboard, the tree widget, and
    the two stores outside the process.  [calls] lists, oldest first, the
    calls made to the secret store and the writes of the cache file. *)

Record Variables := mkVariables {
  var_service : string;
  var_username : string;
  var_password : string;
  var_notification : string
}.

Inductive Call :=
| GetPassword (service username : string)
| SetPassword (service username password : string)
| DeletePassword (service username : string)
| WriteFile (data : string).

Record App := mkApp {
  variables : Variables;
  root_clipboard : option string;
  tree : Treeview;
  secrets : gmap (string * string) string;
  files : Files;
  calls : list Call
}.

Definition with_variables (v : Variables) (st : App) : App :=
  mkApp v (root_clipboard st) (tree st) (secrets st) (files st) (calls st).

Definition with_clipboard (c : option string) (st : App) : App :=
  mkApp (variables st) c (tree st) (secrets st) (files st) (calls st).

Definition with_tree (t : Treeview) (st : App) : App :=
  mkApp (variables st) (root_clipboard st) t (secrets st) (files st) (calls st).

Definition with_secrets (k : gmap (string * string) string) (st : App) : App :=
  mkApp (variables st) (root_clipboard st) (tree st) k (files st) (calls st).

Definition with_files (f : Files) (st : App) : App :=
  mkApp (variables st) (root_clipboard st) (tree st) (secrets st) f (calls st).

Definition record_call (c : Call) (st : App) : App :=
  mkApp (variables st) (root_clipboard st) (tree st) (secrets st) (files st)
        (calls st ++ [c]).

(** The methods of [SharedState] on the state of the process: the
    properties (getter under the name of the property, setter and deleter
    with a suffix), the notification helpers, and the tree operations of
    module [SharedState] above applied to [self.tree]. *)

Module State.

Definition service (st : App) : string := var_service (variables st).
Definition service_set (value : string) (st : App) : App :=
  let v := variables st in
  with_variables
    (mkVariables value (var_username v) (var_password v) (var_notification v)) st.
Definition service_del (st : App) : App := service_set EmptyString st.

Definition username (st : App) : string := var_username (variables st).
Definition username_set (value : string) (st : App) : App :=
  let v := variables st in
  with_variables
    (mkVariables (var_service v) value (var_password v) (var_notification v)) st.
Definition username_del (st : App) : App := username_set EmptyString st.

Definition password (st : App) : string := var_password (variables st).
Definition password_set (value : string) (st : App) : App :=
  let v := variables st in
  with_variables
    (mkVariables (var_service v) (var_username v) value (var_notification v)) st.
Definition password_del (st : App) : App := password_set EmptyString st.

Definition message (st : App) : string := var_notification (variables st).
Definition message_set (value : string) (st : App) : App :=
  let v := variables st in
  with_variables
    (mkVariables (var_service v) (var_username v) (var_password v) value) st.
Definition message_del (st : App) : App := message_set EmptyString st.

(** [root.clipboard_get()] raises [TclError] on an empty clipboard: [None]. *)
Definition clipboard (st : App) : option string := root_clipboard st.
Definition clipboard_set (value : string) (st : App) : App :=
  with_clipboard (Some value) (with_clipboard None st).
Definition clipboard_del (st : App) : App := with_clipboard None st.

Definition show_info (msg : string) (st : App) : App :=
  if 0 <? String.length msg then message_set ("[INFO]: " +:+ msg) st else st.

Definition show_warning (msg : string) (st : App) : App :=
  if 0 <? String.length msg then message_set ("[WARNING]: " +:+ msg) st else st.

Definition show_error (msg : string) (st : App) : App :=
  if 0 <? String.length msg then message_set ("[ERROR]: " +:+ msg) st else st.

Definition add_username (service username : string) (st : App) : App :=
  with_tree (SharedState.add_username (tree st) service username) st.

Definition del_username (service username : string) (st : App) : App :=
  with_tree (SharedState.del_username (tree st) service username) st.

Definition get_tree (st : App) : Dict (list string) :=
  SharedState.get_tree (tree st).

Definition set_tree (cache : Dict (list string)) (st : App) : App :=
  with_tree (SharedState.set_tree (tree st) cache) st.

(** [set_cache(cache)] *)
Definition set_cache (cache : Dict (list string)) (st : App) : App :=
  let fs := utils.check_folder_path (files st) in
  let cache := json.dumps cache in
  record_call (WriteFile cache) (with_files (utils.write_file cache fs) st).

End State.

(** ** [ToolboxFrame]: fetch, save and delete *)

Module ToolboxFrame.
Import State.

Definition add_account (service username : string) (st : App) : App :=
  let st := add_username service username st in
  let data := get_tree st in
  set_cache data st.

Definition del_account (service username : string) (st : App) : App :=
  let st := del_username service username st in
  let data := get_tree st in
  set_cache data st.

(** The calls into the [keyring] package, each noted in [calls]. *)
Definition call_get_password (service username : string) (st : App)
  : option string * App :=
  (keyring.get_password (secrets st) service username,
   record_call (GetPassword service username) st).

Definition call_set_password (service username password : string) (st : App)
  : App :=
  record_call (SetPassword service username password)
    (with_secrets (keyring.set_password (secrets st) service username password) st).

Definition call_delete_password (service username : string) (st : App)
  : outcome unit * App :=
  let st' := record_call (DeletePassword service username) st in
  match keyring.delete_password (secrets st) service username with
  | Returned store => (Returned tt, with_secrets store st')
  | PasswordDeleteError => (PasswordDeleteError, st')
  end.

Definition get_password (st : App) : App :=
  let st := password_del st in
  if (0 <? String.length (service st)) && (0 <? String.length (username st))
  then
    let '(value, st) := call_get_password (service st) (username st) st in
    match value with
    | Some value =>
        let st := clipboard_set value (password_set value st) in
        let st := add_account (service st) (username st) st in
        show_info "Password retrieved from keyring." st
    | None =>
        let st := del_account (service st) (username st) st in
        show_warning "Password not found!" st
    end
  else show_warning "Service and username cannot be empty!" st.

Definition set_password (st : App) : App :=
  if (0 <? String.length (service st)) && (0 <? String.length (username st))
     && (0 <? String.length (password st))
  then
    let st := call_set_password (service st) (username st) (password st) st in
    let st := add_account (service st) (username st) st in
    let st := clipboard_set (password st) st in
    show_info "Password saved to keyring." st
  else show_warning "Service, username and password cannot be empty!" st.

(** The [finally] clause of [del_password]. *)
Definition del_password_finally (st : App) : App :=
  let st := del_account (service st) (username st) st in
  password_del (username_del (service_del st)).

Definition del_password (st : App) : App :=
  if (0 <? String.length (service st)) && (0 <? String.length (username st))
  then
    let '(result, st) := call_delete_password (service st) (username st) st in
    let st :=
      match result with
      | PasswordDeleteError => show_warning "Password not found in keyring!" st
      | Returned _ => show_info "Password deleted from keyring." st
      end in
    del_password_finally st
  else show_warning "Service and username cannot be empty!" st.

End ToolboxFrame.

(** ** The invariants of the data model, read off the widget *)

Fixpoint distinct_ids (l : list iid) : bool :=
  match l with
  | [] => true
  | x :: r => negb (Tk.mem x r) && distinct_ids r
  end.

(** What every widget built by [Tk.insert] and [Tk.delete] satisfies:
    identifiers are pairwise distinct, positive and not beyond the last one
    generated, and the tree has two levels (an item hangs from the root or
    from an item that hangs from the root). *)
Definition tree_wf (t : Treeview) : bool :=
  distinct_ids (map item_iid (items t))
  && forallb (fun it => (0 <? item_iid it) && (item_iid it <=? last_iid t))
             (items t)
  && forallb (fun it =>
                (item_parent it =? ROOT)
                || existsb (fun p => (item_iid p =? item_parent it)
                                     && (item_parent p =? ROOT)) (items t))
             (items t).

(** No two labels of the list are equal up to case. *)
Fixpoint distinct_labels (l : list string) : bool :=
  match l with
  | [] => true
  | x :: r => negb (existsb (same_label x) r) && distinct_labels r
  end.

Definition service_labels (t : Treeview) : list string :=
  map (Tk.item t) (Tk.get_children t ROOT).

Definition username_labels (t : Treeview) (service_id : iid) : list string :=
  map (Tk.item t) (Tk.get_children t service_id).

(** A service node with zero children does not exist. *)
Definition no_childless_service (t : Treeview) : bool :=
  forallb (fun service_id => negb (length (Tk.get_children t service_id) =? 0))
          (Tk.get_children t ROOT).

(** Service labels are unique up to case at the top level, username labels
    are unique up to case within each service. *)
Definition unique_labels (t : Treeview) : bool :=
  distinct_labels (service_labels t)
  && forallb (fun service_id => distinct_labels (username_labels t service_id))
             (Tk.get_children t ROOT).

(** The invariants of the data model together. *)
Definition tree_ok (t : Treeview) : bool :=
  tree_wf t && unique_labels t && no_childless_service t.

(** The entry (service, username) is in the tree: the lookup the program
    itself makes, case-insensitive at both levels. *)
Definition has_account (t : Treeview) (service username : string) : bool :=
  match SharedState.get_service_id t service with
  | Some service_id =>
      match SharedState.get_username_id t service_id username with
      | Some _ => true
      | None => false
      end
  | None => false
  end.

(** ** The tree as a list of labelled services

    The ordered forest of the data model: the label of every service with the
    labels of its usernames.  The operations of [SharedState] are shown below
    to act on it as [forest_add] and [forest_del]. *)

Definition kids (t : Treeview) (p : iid) : list Item :=
  List.filter (fun it => item_parent it =? p) (items t).

Definition forest (t : Treeview) : Dict (list string) :=
  map (fun s => (item_text s, map item_text (kids t (item_iid s)))) (kids t ROOT).

Fixpoint forest_add (F : Dict (list string)) (s u : string) : Dict (list string) :=
  match F with
  | [] => [(s, [u])]
  | (n, us) :: r =>
      if same_label s n
      then (n, if existsb (same_label u) us then us else us ++ [u]) :: r
      else (n, us) :: forest_add r s u
  end.

Fixpoint forest_del (F : Dict (list string)) (s u : string) : Dict (list string) :=
  match F with
  | [] => []
  | (n, us) :: r =>
      if same_label s n
      then match List.filter (fun a => negb (same_label a u)) us with
           | [] => r
           | us' => (n, us') :: r
           end
      else (n, us) :: forest_del r s u
  end.

Definition forest_set (F : Dict (list string)) (cache : Dict (list string))
  : Dict (list string) :=
  fold_left (fun F '(key, value) =>
               fold_left (fun F' item => forest_add F' key item) value F)
            cache F.

Definition dict_of (F : list (string * list string)) : Dict (list string) :=
  fold_left (fun d '(k, v) => dict_update d k v) F [].

Definition forest_unique (F : Dict (list string)) : bool :=
  distinct_labels (map fst F) && forallb (fun e => distinct_labels (snd e)) F.

Definition forest_no_childless (F : Dict (list string)) : bool :=
  forallb (fun e => negb (length (snd e) =? 0)) F.

Definition forest_has (F : Dict (list string)) (s u : string) : bool :=
  match List.find (fun e => same_label s (fst e)) F with
  | Some e => existsb (same_label u) (snd e)
  | None => false
  end.

(** The dictionary [d] lists the username [x] under the key [k]: what a
    reader of the export, or of the cache file, sees. *)
Definition listed (d : Dict (list string)) (k x : string) : Prop :=
  exists us, In (k, us) d /\ In x us.

(** ** [SharedState.__init__]: how the frames come to share one state

    Every object has an attribute dictionary [__dict__]: its own one, or,
    once [SharedState.__init__] has run on it, the class-level dictionary
    [SharedState.__shared__].  The attributes hold references: a
    [mapping.Variables] object is the names of its four [StringVar]s, whose
    contents live in the Tcl interpreter. *)

Module Holders.

Inductive pyobj :=
| PVariables (service username password notification : nat)
| PCache (cache : Dict (list string))
| PWidget (handle : nat).

Inductive dict_ref :=
| OwnDict (d : gmap string pyobj)
| SharedDict.

Record Process := mkProcess {
  __shared__ : gmap string pyobj;
  objects : list dict_ref;
  tcl_vars : gmap nat string
}.

(** [self.__dict__] *)
Definition __dict__ (self : nat) (p : Process) : option (gmap string pyobj) :=
  match objects p !! self with
  | Some (OwnDict d) => Some d
  | Some SharedDict => Some (__shared__ p)
  | None => None
  end.

(** Allocation of an instance: a fresh object with an empty dictionary. *)
Definition new_object (p : Process) : nat * Process :=
  (length (objects p),
   mkProcess (__shared__ p) (objects p ++ [OwnDict ∅]) (tcl_vars p)).

(** [self.__shared__.update(self.__dict__); self.__dict__ = self.__shared__]:
    the entries of the object's dictionary are written over those of the
    shared one, then the object's dictionary is the shared one. *)
Definition __init__ (self : nat) (p : Process) : Process :=
  match objects p !! self with
  | Some (OwnDict d) =>
      mkProcess (d ∪ __shared__ p) (<[self := SharedDict]> (objects p))
                (tcl_vars p)
  | Some SharedDict => p
  | None => p
  end.

(** Construction of a frame up to the return of [super().__init__()],
    the first statement of every constructor of [widgets.py]. *)
Definition construct (p : Process) : nat * Process :=
  let '(self, p) := new_object p in (self, __init__ self p).

Definition initialized (self : nat) (p : Process) : bool :=
  match objects p !! self with
  | Some SharedDict => true
  | _ => false
  end.

(** [self.name] and [self.name = v] for an instance attribute. *)
Definition getattr (self : nat) (name : string) (p : Process) : option pyobj :=
  d ← __dict__ self p; d !! name.

Definition setattr (self : nat) (name : string) (v : pyobj) (p : Process)
  : Process :=
  match objects p !! self with
  | Some (OwnDict d) =>
      mkProcess (__shared__ p)
                (<[self := OwnDict (<[name := v]> d)]> (objects p)) (tcl_vars p)
  | Some SharedDict =>
      mkProcess (<[name := v]> (__shared__ p)) (objects p) (tcl_vars p)
  | None => p
  end.

(** The four properties [service], [username], [password] and [message],
    each read and written through [self.variables]. *)
Inductive field := Service | Username | Password | Notification.

Definition stringvar (f : field) (v : pyobj) : option nat :=
  match v with
  | PVariables s u pw n =>
      Some match f with
           | Service => s | Username => u | Password => pw | Notification => n
           end
  | _ => None
  end.

(** [self.variables.f.get()]; [None] stands for [AttributeError]. *)
Definition property_get (f : field) (self : nat) (p : Process)
  : option string :=
  v ← getattr self "variables" p;
  x ← stringvar f v;
  Some (default EmptyString (tcl_vars p !! x)).

(** [self.variables.f.set(value)]; the deleter sets the empty string. *)
Definition property_set (f : field) (self : nat) (value : string)
  (p : Process) : Process :=
  match getattr self "variables" p ≫= stringvar f with
  | Some x => mkProcess (__shared__ p) (objects p) (<[x := value]> (tcl_vars p))
  | None => p
  end.

Definition property_del (f : field) (self : nat) (p : Process) : Process :=
  property_set f self EmptyString p.

End Holders.

(** The propositional reading of [tree_wf]. *)
Definition WF (t : Treeview) : Prop :=
  List.NoDup (map item_iid (items t))
  /\ (forall it, In it (items t) -> 0 < item_iid it <= last_iid t)
  /\ (forall it, In it (items t) ->
        item_parent it = ROOT
        \/ exists p, In p (items t) /\ item_iid p = item_parent it
                     /\ item_parent p = ROOT).

(** ** [json.loads] on what the cache file may hold

    The decoder of [json/decoder.py], for the documents the program works
    with: an object whose values are arrays of strings.  The result is [None]
    when Python raises [JSONDecodeError], and also for a document of another
    shape or with a character beyond the 8-bit characters of this model. *)

Module decoder.

(** [WHITESPACE]: space, tab, line feed and carriage return. *)
Definition is_whitespace (c : ascii) : bool :=
  let n := nat_of_ascii c in
  (n =? 32) || (n =? 9) || (n =? 10) || (n =? 13).

Fixpoint skip_whitespace (s : string) : string :=
  match s with
  | String c r => if is_whitespace c then skip_whitespace r else s
  | EmptyString => s
  end.

Definition hex_value (c : ascii) : option nat :=
  let n := nat_of_ascii c in
  if (48 <=? n) && (n <=? 57) then Some (n - 48)
  else if (97 <=? n) && (n <=? 102) then Some (n - 87)
  else if (65 <=? n) && (n <=? 70) then Some (n - 55)
  else None.

(** [BACKSLASH]: the character a one-letter escape stands for. *)
Definition backslash (c : ascii) : option ascii :=
  let n := nat_of_ascii c in
  if n =? 34 then Some c
  else if n =? 92 then Some c
  else if n =? 47 then Some c
  else if n =? 98 then Some (ascii_of_nat 8)
  else if n =? 102 then Some (ascii_of_nat 12)
  else if n =? 110 then Some (ascii_of_nat 10)
  else if n =? 114 then Some (ascii_of_nat 13)
  else if n =? 116 then Some (ascii_of_nat 9)
  else None.

Definition prepend (c : ascii) (o : option (string * string))
  : option (string * string) :=
  match o with
  | Some (x, rest) => Some (String c x, rest)
  | None => None
  end.

(** [scanstring], from the character after the opening quote: the text of
    the string and what follows its closing quote.  Strict mode: a control
    character inside the string is an error. *)
Fixpoint scanstring (s : string) : option (string * string) :=
  match s with
  | EmptyString => None
  | String c r =>
      let n := nat_of_ascii c in
      if n =? 34 then Some (EmptyString, r)
      else if n =? 92 then
        match r with
        | EmptyString => None
        | String e r1 =>
            if nat_of_ascii e =? 117 then
              match r1 with
              | String a (String b (String c2 (String d r2))) =>
                  match hex_value a, hex_value b, hex_value c2, hex_value d with
                  | Some 0, Some 0, Some h, Some l =>
                      prepend (ascii_of_nat (16 * h + l)) (scanstring r2)
                  | _, _, _, _ => None
                  end
              | _ => None
              end
            else
              match backslash e with
              | Some x => prepend x (scanstring r1)
              | None => None
              end
        end
      else if n <? 32 then None
      else prepend c (scanstring r)
  end.

(** A string value: the opening quote, then [scanstring]. *)
Definition scan_quoted (s : string) : option (string * string) :=
  match s with
  | String c r => if nat_of_ascii c =? 34 then scanstring r else None
  | EmptyString => None
  end.

(** The loop of [JSONArray], from the first character of an element. *)
Fixpoint array_items (fuel : nat) (s : string) : option (list string * string) :=
  match fuel with
  | 0 => None
  | S fuel =>
      match scan_quoted s with
      | None => None
      | Some (x, r) =>
          match skip_whitespace r with
          | String c r1 =>
              if nat_of_ascii c =? 93 then Some ([x], r1)
              else if nat_of_ascii c =? 44 then
                match array_items fuel (skip_whitespace r1) with
                | Some (xs, r2) => Some (x :: xs, r2)
                | None => None
                end
              else None
          | EmptyString => None
          end
      end
  end.

(** [JSONArray], from the opening bracket. *)
Definition JSONArray (fuel : nat) (s : string) : option (list string * string) :=
  match s with
  | String c r =>
      if nat_of_ascii c =? 91 then
        match skip_whitespace r with
        | String c1 r1 =>
            if nat_of_ascii c1 =? 93 then Some ([], r1)
            else array_items fuel (String c1 r1)
        | EmptyString => None
        end
      else None
  | EmptyString => None
  end.

(** The loop of [JSONObject], from the opening quote of a key: the pairs in
    the order of the text. *)
Fixpoint object_pairs (fuel : nat) (s : string)
  : option (list (string * list string) * string) :=
  match fuel with
  | 0 => None
  | S fuel' =>
      match scan_quoted s with
      | None => None
      | Some (key, r) =>
          match skip_whitespace r with
          | String c r1 =>
              if nat_of_ascii c =? 58 then
                match JSONArray fuel' (skip_whitespace r1) with
                | None => None
                | Some (value, r2) =>
                    match skip_whitespace r2 with
                    | String c3 r3 =>
                        if nat_of_ascii c3 =? 125 then Some ([(key, value)], r3)
                        else if nat_of_ascii c3 =? 44 then
                          match object_pairs fuel' (skip_whitespace r3) with
                          | Some (ps, r4) => Some ((key, value) :: ps, r4)
                          | None => None
                          end
                        else None
                    | EmptyString => None
                    end
                end
              else None
          | EmptyString => None
          end
      end
  end.

(** [JSONObject], from the opening brace; the pairs are put in a dictionary
    one after the other, so that a key written twice keeps its first place
    and its last value. *)
Definition JSONObject (fuel : nat) (s : string)
  : option (Dict (list string) * string) :=
  match s with
  | String c r =>
      if nat_of_ascii c =? 123 then
        match skip_whitespace r with
        | String c1 r1 =>
            if nat_of_ascii c1 =? 125 then Some ([], r1)
            else
              match object_pairs fuel (String c1 r1) with
              | Some (ps, r2) => Some (dict_of ps, r2)
              | None => None
              end
        | EmptyString => None
        end
      else None
  | EmptyString => None
  end.

(** [json.loads(s)]: white space, the document, white space, and nothing
    after it. *)
Definition loads (s : string) : option (Dict (list string)) :=
  match JSONObject (String.length s) (skip_whitespace s) with
  | Some (d, r) =>
      match skip_whitespace r with
      | EmptyString => Some d
      | String _ _ => None
      end
  | None => None
  end.

End decoder.

(** ** Start of the program: [get_cache] and [KeyVault.__init__] *)

Module KeyVault.

(** [get_cache()]: the empty dictionary when the file is missing, else what
    [loads] makes of the text of the file; [None] where [decoder.loads] is
    [None]. *)
Definition get_cache (fs : Files) : option (Dict (list string)) :=
  match utils.read_file fs with
  | None => Some []
  | Some cache => decoder.loads cache
  end.

(** [KeyVault(master)] from the point where [self.get_cache()] has returned
    [cache]: four empty variables, a new tree widget, and the cache imported
    into it by [set_tree], which walks the items of each value with
    [add_username].  The clipboard and the two stores are what the process
    finds when it starts. *)
Definition init_with (cache : Dict (list string)) (clipboard : option string)
  (store : gmap (string * string) string) (fs : Files) : App :=
  State.set_tree cache
    (mkApp (mkVariables EmptyString EmptyString EmptyString EmptyString)
           clipboard Tk.Treeview_new store fs []).

(** [KeyVault(master)]: [get_cache], then the above. *)
Definition __init__ (clipboard : option string)
  (store : gmap (string * string) string) (fs : Files) : option App :=
  match get_cache fs with
  | Some cache => Some (init_with cache clipboard store fs)
  | None => None
  end.

End KeyVault.

(** ** [TreeFrame.select]

    [tree.focus()] is the argument [selected]: the identifier of the item
    that has the focus, [ROOT] (the empty string) when none has. *)

Module TreeFrame.
Import State.

(** [tree.parent(item)]: [ROOT] for a top-level item.  (Tk raises [TclError]
    for an identifier that is not in the widget; the focus item is in it.) *)
Definition parent (tv : Treeview) (i : iid) : iid :=
  match Tk.lookup_item tv i with
  | Some it => item_parent it
  | None => ROOT
  end.

Definition select (selected : iid) (st : App) : App :=
  if negb (selected =? ROOT) then
    let parent := parent (tree st) selected in
    let value := Tk.item (tree st) selected in
    let st := password_del (username_del (service_del st)) in
    if parent =? ROOT then
      show_info "Service selected." (service_set value st)
    else
      let st := service_set (Tk.item (tree st) parent) st in
      let st := username_set value st in
      show_info "Username selected." st
  else st.

End TreeFrame.

(** ** [AccountFrame]: the copy and paste buttons *)

Module AccountFrame.
Import State.

Definition copy_service (st : App) : App :=
  show_info "Service copied to clipboard." (clipboard_set (service st) st).

Definition paste_service (st : App) : App :=
  let st := service_del st in
  match clipboard st with
  | None => show_error "Clipboard empty!" st
  | Some value => show_info "Service pasted from clipboard." (service_set value st)
  end.

Definition copy_username (st : App) : App :=
  show_info "Username copied to clipboard." (clipboard_set (username st) st).

Definition paste_username (st : App) : App :=
  let st := username_del st in
  match clipboard st with
  | None => show_error "Clipboard empty!" st
  | Some value =>
      show_info "Username pasted from clipboard." (username_set value st)
  end.

Definition copy_password (st : App) : App :=
  show_info "Password copied to clipboard." (clipboard_set (password st) st).

Definition paste_password (st : App) : App :=
  let st := password_del st in
  match clipboard st with
  | None => show_error "Clipboard empty!" st
  | Some value =>
      show_info "Password pasted from clipboard." (password_set value st)
  end.

End AccountFrame.

(** ** [ClearFrame] *)

Module ClearFrame.
Import State.

Definition clear_entries (st : App) : App :=
  show_info "Cleared all entries!" (password_del (username_del (service_del st))).

End ClearFrame.

(** ** [ToolTip]

    The two attributes of the tooltip, [id] and [window], and what Tk holds
    for it: the callbacks registered with [widget.after] that have not run
    yet, and the [Toplevel] windows that have not been destroyed. *)

Record Tip := mkTip {
  tip_id : option nat;
  tip_window : option nat;
  tk_timers : list nat;
  tk_toplevels : list nat;
  tk_last_timer : nat;
  tk_last_toplevel : nat
}.

Module ToolTip.

(** [ToolTip(widget, text)] *)
Definition __init__ : Tip := mkTip None None [] [] 0 0.

Definition remove (x : nat) (l : list nat) : list nat :=
  List.filter (fun y => negb (y =? x)) l.

Definition cancel (t : Tip) : Tip :=
  let t :=
    match tip_id t with
    | Some i =>
        mkTip None (tip_window t) (remove i (tk_timers t)) (tk_toplevels t)
              (tk_last_timer t) (tk_last_toplevel t)
    | None => t
    end in
  match tip_window t with
  | Some w =>
      mkTip (tip_id t) None (tk_timers t) (remove w (tk_toplevels t))
            (tk_last_timer t) (tk_last_toplevel t)
  | None => t
  end.

Definition schedule (t : Tip) : Tip :=
  let t := cancel t in
  let i := S (tk_last_timer t) in
  mkTip (Some i) (tip_window t) (tk_timers t ++ [i]) (tk_toplevels t)
        i (tk_last_toplevel t).

(** [enter()]: a new [Toplevel] with the label in it. *)
Definition enter (t : Tip) : Tip :=
  let w := S (tk_last_toplevel t) in
  mkTip None (Some w) (tk_timers t) (tk_toplevels t ++ [w])
        (tk_last_timer t) w.

(** Tk runs a callback registered with [after] once, when its delay is over,
    if it has not been cancelled. *)
Definition timeout (i : nat) (t : Tip) : Tip :=
  if Tk.mem i (tk_timers t) then
    enter (mkTip (tip_id t) (tip_window t) (remove i (tk_timers t))
                 (tk_toplevels t) (tk_last_timer t) (tk_last_toplevel t))
  else t.

End ToolTip.

(** What can happen to a tooltip: the pointer enters the widget, leaves it,
    or a delay runs out. *)
Inductive tip_event := PointerEnter | PointerLeave | Timeout (i : nat).

Definition tip_step (t : Tip) (e : tip_event) : Tip :=
  match e with
  | PointerEnter => ToolTip.schedule t
  | PointerLeave => ToolTip.cancel t
  | Timeout i => ToolTip.timeout i t
  end.

(** ** The states of a run

    The tree starts as the import of whatever the cache file held
    ([KeyVault.__init__]); from then on the tree changes only through the
    three buttons.  Typing, selecting, clearing, copying and pasting change
    the four variables and the clipboard; the secret store and the files may
    be changed from outside the process. *)
Inductive reachable : App -> Prop :=
| reach_start v c k f l cache :
    reachable (mkApp v c (SharedState.set_tree Tk.Treeview_new cache) k f l)
| reach_fetch st : reachable st -> reachable (ToolboxFrame.get_password st)
| reach_save st : reachable st -> reachable (ToolboxFrame.set_password st)
| reach_delete st : reachable st -> reachable (ToolboxFrame.del_password st)
| reach_edit st v c :
    reachable st -> reachable (with_clipboard c (with_variables v st))
| reach_outside st k f :
    reachable st -> reachable (with_files f (with_secrets k st)).

(** ** Sample states, used to run the theorems below *)

Definition sample_tree : Treeview :=
  SharedState.add_username
    (SharedState.add_username
       (SharedState.add_username Tk.Treeview_new "Mail" "bob") "mail" "alice")
    "svc" "u1".

Definition guard_app : App :=
  mkApp (mkVariables "svc" EmptyString "p1" "old") (Some "clip")
        sample_tree ∅ (mkFiles false None) [].

Definition fetch_guard_app : App :=
  mkApp (mkVariables EmptyString "u1" "p1" "old") (Some "clip")
        sample_tree ∅ (mkFiles false None) [].

Definition delete_app : App :=
  mkApp (mkVariables "svc" "u1" "typed" "old") None
        (SharedState.add_username Tk.Treeview_new "svc" "u1")
        {[ ("svc", "u1") := "p1" ]} (mkFiles true (Some "{}")) [].

Definition save_app : App :=
  mkApp (mkVariables "svc" "u1" "p1" EmptyString) None sample_tree
        {[ ("svc", "u1") := "old" ]} (mkFiles false None) [].

Definition stale_app : App :=
  mkApp (mkVariables "svc" "u1" "typed" EmptyString) (Some "clip")
        (SharedState.add_username Tk.Treeview_new "svc" "u1")
        ∅ (mkFiles true (Some "stale")) [].

(** Labels beyond ASCII: E-acute (U+00C9) and e-acute (U+00E9) are the same
    label up to case.  The tree holds the entry (E-acute, x); the fields ask
    for (e-acute, X). *)
Definition E_acute : string := String (ascii_of_nat 201) EmptyString.

Definition e_acute : string := String (ascii_of_nat 233) EmptyString.

Definition latin1_tree : Treeview :=
  SharedState.add_username Tk.Treeview_new E_acute "x".

Definition latin1_app : App :=
  mkApp (mkVariables e_acute "X" "typed" EmptyString) None latin1_tree
        ∅ (mkFiles true (Some "stale")) [].


Definition process0 : Holders.Process := Holders.mkProcess ∅ [] ∅.

(** The state after [KeyVault(master)] has set its attributes and the frames
    have been built: object 0 is the main window, object 1 the tree frame. *)
Definition running : Holders.Process :=
  let '(kv, p) := Holders.construct process0 in
  let p := Holders.setattr kv "variables" (Holders.PVariables 0 1 2 3) p in
  let p := Holders.setattr kv "cache" (Holders.PCache [("svc", ["u1"])]) p in
  let '(tf, p) := Holders.construct p in
  Holders.setattr tf "tree" (Holders.PWidget 7) p.

Definition odd_document : Dict (list string) :=
  [(String (ascii_of_nat 10) (String (ascii_of_nat 200) "a\b/"),
    ["x y"; EmptyString; String (ascii_of_nat 34) "q"]);
   ("k", []); ("K", ["z"])].

(** A cache file edited by hand: a service twice up to case, a username
    twice up to case, a service without usernames. *)
Definition odd_cache : Dict (list string) :=
  [("Mail", ["bob"; "BOB"; "al"]); ("mail", ["x"]); ("e", [])].

(** A third object that is given an attribute before [SharedState.__init__]
    has run on it. *)
Definition late_holder : Holders.Process :=
  let '(h, p) := Holders.new_object running in
  Holders.setattr h "cache" (Holders.PCache []) p.

(** ** What the user can do

    The commands bound to the widgets: the three entries, whose text is the
    variable they are bound to, the selection in the tree, and the buttons. *)
Inductive action :=
| TypeService (text : string)
| TypeUsername (text : string)
| TypePassword (text : string)
| Select (selected : iid)
| CopyService | PasteService
| CopyUsername | PasteUsername
| CopyPassword | PastePassword
| Clear
| Fetch | Save | Delete.

Definition perform (st : App) (a : action) : App :=
  match a with
  | TypeService text => State.service_set text st
  | TypeUsername text => State.username_set text st
  | TypePassword text => State.password_set text st
  | Select selected => TreeFrame.select selected st
  | CopyService => AccountFrame.copy_service st
  | PasteService => AccountFrame.paste_service st
  | CopyUsername => AccountFrame.copy_username st
  | PasteUsername => AccountFrame.paste_username st
  | CopyPassword => AccountFrame.copy_password st
  | PastePassword => AccountFrame.paste_password st
  | Clear => ClearFrame.clear_entries st
  | Fetch => ToolboxFrame.get_password st
  | Save => ToolboxFrame.set_password st
  | Delete => ToolboxFrame.del_password st
  end.

Definition sample_run : list action :=
  [TypeService "MAIL"; TypeUsername "Bob"; Fetch;
   TypeService "Shop"; TypeUsername "carol"; TypePassword "pw"; Save;
   Select 1; CopyService; PastePassword; Clear].

Definition fresh_app : App :=
  mkApp (mkVariables "Shop" "carol" "pw" EmptyString) None sample_tree
        {[ ("svc", "u1") := "old" ]} (mkFiles false None) [].

(** * Proofs *)

(** ** Runs on sample inputs *)

Example add_twice_merges :
  SharedState.get_tree
    (SharedState.add_username
       (SharedState.add_username Tk.Treeview_new "Mail" "bob") "mail" "BOB")
  = [("Mail", ["bob"])].
Proof. reflexivity. Qed.

(** The characters that [lower] changes, and where it sends them. *)
Example lower_latin1 :
  List.filter (fun n => negb (nat_of_ascii (ascii_lower (ascii_of_nat n)) =? n))
              (seq 0 256)
  = seq 65 26 ++ seq 192 23 ++ seq 216 7
  /\ forallb (fun n => nat_of_ascii (ascii_lower (ascii_of_nat n)) =? n + 32)
              (seq 65 26 ++ seq 192 23 ++ seq 216 7) = true.
Proof. split; reflexivity. Qed.

Example add_latin1_merges :
  SharedState.get_tree (SharedState.add_username latin1_tree e_acute "y")
  = [(E_acute, ["x"; "y"])]
  /\ SharedState.get_tree (SharedState.del_username latin1_tree e_acute "X") = [].
Proof. split; reflexivity. Qed.

Example del_removes_all_matches :
  SharedState.get_tree (SharedState.del_username sample_tree "MAIL" "Alice")
  = [("Mail", ["bob"]); ("svc", ["u1"])].
Proof. reflexivity. Qed.

Example delete_takes_descendants :
  map item_iid (items (Tk.delete sample_tree 1)) = [4; 5].
Proof. reflexivity. Qed.

Example dumps_sample :
  json.dumps (SharedState.get_tree sample_tree)
  = "{" +:+ json.dumps_str "Mail" +:+ ": [" +:+ json.dumps_str "bob" +:+ ", "
        +:+ json.dumps_str "alice" +:+ "], " +:+ json.dumps_str "svc" +:+ ": ["
        +:+ json.dumps_str "u1" +:+ "]}".
Proof. reflexivity. Qed.

Example dumps_escapes :
  json.escape (String (ascii_of_nat 10) (String (ascii_of_nat 200) "a\b"))
  = "\n\u00c8a\\b".
Proof. reflexivity. Qed.

Example save_writes_cache :
  calls (ToolboxFrame.set_password save_app)
  = [SetPassword "svc" "u1" "p1";
     WriteFile (json.dumps (SharedState.get_tree sample_tree))].
Proof. reflexivity. Qed.

(** ** Labels and identifiers *)

Lemma same_label_refl a : same_label a a = true.
Proof. apply String.eqb_refl. Qed.

Lemma same_label_sym a b : same_label a b = same_label b a.
Proof. apply String.eqb_sym. Qed.

Lemma same_label_true a b : same_label a b = true <-> lower a = lower b.
Proof. apply String.eqb_eq. Qed.

Lemma same_label_trans a b c :
  same_label a b = true -> same_label b c = same_label a c.
Proof.
  intros H. apply same_label_true in H. unfold same_label. now rewrite H.
Qed.

Lemma mem_In i l : Tk.mem i l = true <-> In i l.
Proof.
  unfold Tk.mem. rewrite existsb_exists. split.
  - intros [x [Hx He]]. apply Nat.eqb_eq in He. now subst.
  - intros H. exists i. split; [assumption | apply Nat.eqb_refl].
Qed.

Lemma mem_false i l : Tk.mem i l = false <-> ~ In i l.
Proof.
  rewrite <- mem_In. destruct (Tk.mem i l); split; congruence.
Qed.

Lemma distinct_ids_NoDup l : distinct_ids l = true <-> List.NoDup l.
Proof.
  induction l as [|x r IH]; simpl.
  - split; [constructor | reflexivity].
  - rewrite andb_true_iff, negb_true_iff, mem_false, IH. split.
    + intros [H1 H2]. now constructor.
    + intros H. inversion H; subst. now split.
Qed.

Lemma tree_wf_WF t : tree_wf t = true <-> WF t.
Proof.
  unfold tree_wf, WF.
  rewrite !andb_true_iff, distinct_ids_NoDup, !forallb_forall.
  split; [intros [[H1 H2] H3] | intros [H1 [H2 H3]]];
    [split; [|split] | split; [split|]]; try assumption.
  - intros it Hit. specialize (H2 it Hit).
    apply andb_true_iff in H2 as [Ha Hb].
    apply Nat.ltb_lt in Ha. apply Nat.leb_le in Hb. lia.
  - intros it Hit. specialize (H3 it Hit).
    apply orb_true_iff in H3 as [Ha | Hb].
    + left. now apply Nat.eqb_eq in Ha.
    + right. apply existsb_exists in Hb as [p [Hp Hq]].
      apply andb_true_iff in Hq as [Hq1 Hq2].
      apply Nat.eqb_eq in Hq1, Hq2. eauto.
  - intros it Hit. destruct (H2 it Hit) as [Ha Hb].
    apply andb_true_iff. split; [now apply Nat.ltb_lt | now apply Nat.leb_le].
  - intros it Hit. apply orb_true_iff. destruct (H3 it Hit) as [Ha | [p [Hp [Hq1 Hq2]]]].
    + left. now apply Nat.eqb_eq.
    + right. apply existsb_exists. exists p. split; [assumption|].
      apply andb_true_iff. split; now apply Nat.eqb_eq.
Qed.

(** ** The widget *)

#[local] Arguments Tk.insert : simpl never.
#[local] Arguments Tk.delete : simpl never.

Lemma find_map {A B} (f : B -> bool) (g : A -> B) l :
  List.find f (map g l) = option_map g (List.find (fun x => f (g x)) l).
Proof.
  induction l as [|x r IH]; simpl; [reflexivity|].
  destruct (f (g x)); [reflexivity | exact IH].
Qed.

Lemma find_ext_in {A} (f g : A -> bool) l :
  (forall x, In x l -> f x = g x) -> List.find f l = List.find g l.
Proof.
  induction l as [|x r IH]; simpl; intros H; [reflexivity|].
  rewrite (H x) by now left.
  destruct (g x); [reflexivity|]. apply IH. intros y Hy. apply H. now right.
Qed.

Lemma filter_ext_in' {A} (f g : A -> bool) l :
  (forall x, In x l -> f x = g x) -> List.filter f l = List.filter g l.
Proof.
  induction l as [|x r IH]; simpl; intros H; [reflexivity|].
  rewrite (H x) by now left.
  rewrite IH; [reflexivity|]. intros y Hy. apply H. now right.
Qed.

Lemma filter_filter {A} (f g : A -> bool) l :
  List.filter f (List.filter g l) = List.filter (fun x => g x && f x) l.
Proof.
  induction l as [|x r IH]; simpl; [reflexivity|].
  destruct (g x); simpl; [destruct (f x)|]; now rewrite IH.
Qed.

Lemma find_iid its it :
  List.NoDup (map item_iid its) -> In it its ->
  List.find (fun x => item_iid x =? item_iid it) its = Some it.
Proof.
  induction its as [|x r IH]; simpl; intros Hnd Hin; [contradiction|].
  inversion Hnd as [|? ? Hx Hr]; subst.
  destruct Hin as [-> | Hin].
  - now rewrite Nat.eqb_refl.
  - destruct (Nat.eqb_spec (item_iid x) (item_iid it)) as [E|E].
    + exfalso. apply Hx. rewrite E. now apply in_map.
    + now apply IH.
Qed.

Lemma item_of t it :
  WF t -> In it (items t) -> Tk.item t (item_iid it) = item_text it.
Proof.
  intros [Hnd _] Hin. unfold Tk.item, Tk.lookup_item.
  now rewrite (find_iid _ _ Hnd Hin).
Qed.

Lemma kids_In t p it : In it (kids t p) <-> In it (items t) /\ item_parent it = p.
Proof.
  unfold kids. rewrite filter_In. now rewrite Nat.eqb_eq.
Qed.

Lemma get_children_kids t p : Tk.get_children t p = map item_iid (kids t p).
Proof. reflexivity. Qed.

(** The identifiers that [get_children] returns name items of the widget. *)
Lemma item_of_child t p i :
  In i (Tk.get_children t p) -> exists it, Tk.lookup_item t i = Some it.
Proof.
  rewrite get_children_kids. intros H.
  apply in_map_iff in H as [it [<- Hit]]. apply kids_In in Hit as [Hit _].
  unfold Tk.lookup_item.
  destruct (List.find (fun x => item_iid x =? item_iid it) (items t)) eqn:E.
  - eauto.
  - exfalso. apply (find_none _ _ E) in Hit. now rewrite Nat.eqb_refl in Hit.
Qed.

Lemma labels_of_kids t p :
  WF t -> map (Tk.item t) (Tk.get_children t p) = map item_text (kids t p).
Proof.
  intros Hwf. rewrite get_children_kids, map_map.
  apply map_ext_in. intros it Hit. apply item_of; [assumption|].
  now apply kids_In in Hit.
Qed.

Lemma find_kids t p (f : string -> bool) :
  WF t ->
  List.find (fun i => f (Tk.item t i)) (Tk.get_children t p)
  = option_map item_iid (List.find (fun it => f (item_text it)) (kids t p)).
Proof.
  intros Hwf. rewrite get_children_kids, find_map. f_equal.
  apply find_ext_in. intros it Hit. rewrite item_of; [reflexivity|assumption|].
  now apply kids_In in Hit.
Qed.

Lemma WF_iid_inj t a b :
  WF t -> In a (items t) -> In b (items t) -> item_iid a = item_iid b -> a = b.
Proof.
  intros [Hnd _] Ha Hb E.
  pose proof (find_iid _ _ Hnd Ha) as Fa.
  pose proof (find_iid _ _ Hnd Hb) as Fb.
  rewrite E in Fa. congruence.
Qed.

(** An item below the top level has no children. *)
Lemma leaf_childless t c x :
  WF t -> In c (items t) -> item_parent c <> ROOT ->
  In x (items t) -> item_parent x <> item_iid c.
Proof.
  intros Hwf Hc Hnr Hx E.
  pose proof Hwf as [Hnd [Hrg Hdp]].
  destruct (Hdp x Hx) as [H0 | [p [Hp [Hq1 Hq2]]]].
  - destruct (Hrg c Hc). unfold ROOT in *. lia.
  - assert (p = c).
    { apply (WF_iid_inj t); try assumption. congruence. }
    subst. contradiction.
Qed.

Lemma filter_none {A} (f : A -> bool) l :
  (forall x, In x l -> f x = false) -> List.filter f l = [].
Proof.
  induction l as [|x r IH]; simpl; intros H; [reflexivity|].
  rewrite (H x) by now left. apply IH. intros y Hy. apply H. now right.
Qed.

Lemma delete_childless t i :
  (forall it, In it (items t) -> item_parent it <> i) ->
  Tk.delete t i
  = mkTree (last_iid t) (List.filter (fun it => negb (item_iid it =? i)) (items t)).
Proof.
  intros H. unfold Tk.delete. f_equal.
  assert (K : List.filter (fun it => negb (Tk.mem (item_iid it) [i])) (items t)
              = List.filter (fun it => negb (item_iid it =? i)) (items t)).
  { apply filter_ext_in'. intros x _. simpl. now rewrite orb_false_r. }
  destruct (length (items t)); cbn [Tk.delete_items]; [exact K|].
  rewrite K, filter_none; [reflexivity|].
  intros x Hx. apply filter_In in Hx as [Hx _].
  simpl. rewrite orb_false_r. apply Nat.eqb_neq. now apply H.
Qed.

Lemma WF_new : WF Tk.Treeview_new.
Proof. apply tree_wf_WF. reflexivity. Qed.

Lemma WF_empty n : WF (mkTree n []).
Proof. apply tree_wf_WF. reflexivity. Qed.

Lemma WF_insert t p txt :
  WF t ->
  (p = ROOT \/ exists s, In s (items t) /\ item_iid s = p /\ item_parent s = ROOT) ->
  WF (snd (Tk.insert t p txt)).
Proof.
  intros [Hnd [Hrg Hdp]] Hp. unfold Tk.insert, WF. simpl. split; [|split].
  - rewrite map_app. simpl. apply List.NoDup_app.
    + assumption.
    + constructor; [intros []|constructor].
    + intros a Ha [<-|[]]. apply in_map_iff in Ha as [it [E Hit]].
      destruct (Hrg it Hit). lia.
  - intros it Hit. apply in_app_or in Hit as [Hit | [<-|[]]].
    + destruct (Hrg it Hit). lia.
    + simpl. lia.
  - intros it Hit. apply in_app_or in Hit as [Hit | [<-|[]]].
    + destruct (Hdp it Hit) as [H0 | [q [Hq [Hq1 Hq2]]]]; [now left|].
      right. exists q. split; [apply in_or_app; now left | now split].
    + simpl. destruct Hp as [-> | [s [Hs [Hs1 Hs2]]]]; [now left|].
      right. exists s. split; [apply in_or_app; now left | now split].
Qed.

Lemma WF_filter t (P : Item -> bool) :
  WF t ->
  (forall x y, In x (items t) -> In y (items t) ->
               P x = false -> P y = true -> item_parent y <> item_iid x) ->
  WF (mkTree (last_iid t) (List.filter P (items t))).
Proof.
  intros [Hnd [Hrg Hdp]] Hkeep. unfold WF. simpl. split; [|split].
  - clear -Hnd. induction (items t) as [|x r IH]; simpl; [constructor|].
    inversion Hnd as [|? ? Hx Hr]; subst.
    destruct (P x); simpl; [|now apply IH].
    constructor; [|now apply IH].
    intros Hin. apply Hx. apply in_map_iff in Hin as [y [E Hy]].
    apply filter_In in Hy as [Hy _]. rewrite <- E. now apply in_map.
  - intros it Hit. apply filter_In in Hit as [Hit _]. now apply Hrg.
  - intros it Hit. apply filter_In in Hit as [Hit HP].
    destruct (Hdp it Hit) as [H0 | [q [Hq [Hq1 Hq2]]]]; [now left|].
    right. exists q. split; [|now split].
    apply filter_In. split; [assumption|].
    destruct (P q) eqn:E; [reflexivity|].
    exfalso. apply (Hkeep q it Hq Hit E HP). congruence.
Qed.

Lemma kids_insert t p txt q :
  kids (snd (Tk.insert t p txt)) q
  = kids t q ++ (if p =? q then [mkItem (S (last_iid t)) p txt] else []).
Proof.
  unfold kids, Tk.insert. simpl. rewrite List.filter_app. simpl.
  reflexivity.
Qed.

Lemma kids_filter n t (P : Item -> bool) q :
  kids (mkTree n (List.filter P (items t))) q = List.filter P (kids t q).
Proof.
  unfold kids. simpl. rewrite !filter_filter.
  apply filter_ext_in'. intros x _. apply andb_comm.
Qed.

(** No item hangs from an identifier that has not been generated yet. *)
Lemma kids_fresh t i : WF t -> last_iid t < i -> kids t i = [].
Proof.
  intros [Hnd [Hrg Hdp]] Hi. apply filter_none. intros x Hx.
  apply Nat.eqb_neq. intros E.
  destruct (Hdp x Hx) as [H0 | [q [Hq [Hq1 Hq2]]]].
  - unfold ROOT in *. lia.
  - destruct (Hrg q Hq). lia.
Qed.

(** ** [add_username] on the forest *)

Lemma get_service_id_kids t s :
  WF t ->
  SharedState.get_service_id t s
  = option_map item_iid
      (List.find (fun it => same_label s (item_text it)) (kids t ROOT)).
Proof. intros Hwf. apply (find_kids t ROOT (same_label s) Hwf). Qed.

Lemma get_username_id_kids t i u :
  WF t ->
  SharedState.get_username_id t i u
  = option_map item_iid
      (List.find (fun it => same_label u (item_text it)) (kids t i)).
Proof. intros Hwf. apply (find_kids t i (same_label u) Hwf). Qed.

Lemma find_existsb {A} (f : A -> bool) l :
  existsb f l = match List.find f l with Some _ => true | None => false end.
Proof.
  induction l as [|x r IH]; simpl; [reflexivity|].
  destruct (f x); [reflexivity | exact IH].
Qed.

Lemma existsb_map {A B} (f : B -> bool) (g : A -> B) l :
  existsb f (map g l) = existsb (fun x => f (g x)) l.
Proof.
  induction l as [|x r IH]; simpl; [reflexivity|]. now rewrite IH.
Qed.

Lemma forest_add_absent F s u :
  List.find (fun e => same_label s (fst e)) F = None ->
  forest_add F s u = F ++ [(s, [u])].
Proof.
  induction F as [|[n us] r IH]; simpl; intros H; [reflexivity|].
  destruct (same_label s n); [discriminate|]. now rewrite IH.
Qed.

Lemma forest_add_present (g : Item -> list string) L S s u :
  List.find (fun it => same_label s (item_text it)) L = Some S ->
  existsb (same_label u) (g S) = true ->
  forest_add (map (fun x => (item_text x, g x)) L) s u
  = map (fun x => (item_text x, g x)) L.
Proof.
  induction L as [|x r IH]; simpl; intros H Hu; [discriminate|].
  destruct (same_label s (item_text x)).
  - injection H as ->. now rewrite Hu.
  - now rewrite IH.
Qed.

Lemma forest_add_append (g : Item -> list string) L S s u :
  List.NoDup (map item_iid L) ->
  List.find (fun it => same_label s (item_text it)) L = Some S ->
  existsb (same_label u) (g S) = false ->
  forest_add (map (fun x => (item_text x, g x)) L) s u
  = map (fun x => (item_text x,
                   g x ++ (if item_iid S =? item_iid x then [u] else []))) L.
Proof.
  induction L as [|x r IH]; simpl; intros Hnd H Hu; [discriminate|].
  inversion Hnd as [|? ? Hx Hr]; subst.
  destruct (same_label s (item_text x)) eqn:E.
  - injection H as ->. rewrite Hu, Nat.eqb_refl. f_equal.
    apply map_ext_in. intros y Hy.
    destruct (Nat.eqb_spec (item_iid S) (item_iid y)) as [K|K].
    + exfalso. apply Hx. rewrite K. now apply in_map.
    + now rewrite app_nil_r.
  - rewrite IH by assumption.
    destruct (Nat.eqb_spec (item_iid S) (item_iid x)) as [K|K].
    + exfalso. apply Hx. rewrite <- K. apply in_map.
      now apply find_some in H as [H _].
    + now rewrite app_nil_r.
Qed.

Lemma NoDup_kids t p : WF t -> List.NoDup (map item_iid (kids t p)).
Proof.
  intros [Hnd _]. unfold kids. clear -Hnd.
  induction (items t) as [|x r IH]; simpl; [constructor|].
  inversion Hnd as [|? ? Hx Hr]; subst.
  destruct (item_parent x =? p); simpl; [|now apply IH].
  constructor; [|now apply IH].
  intros Hin. apply Hx. apply in_map_iff in Hin as [y [E Hy]].
  apply filter_In in Hy as [Hy _]. rewrite <- E. now apply in_map.
Qed.

Lemma add_username_forest t s u :
  WF t ->
  WF (SharedState.add_username t s u)
  /\ forest (SharedState.add_username t s u) = forest_add (forest t) s u.
Proof.
  intros Hwf. pose proof Hwf as [Hnd [Hrg Hdp]].
  unfold SharedState.add_username.
  rewrite get_service_id_kids by assumption.
  destruct (List.find (fun it => same_label s (item_text it)) (kids t ROOT))
    as [S|] eqn:ES; cbn [option_map].
  - pose proof (find_some _ _ ES) as [HS _].
    apply kids_In in HS as [HS HSr].
    rewrite get_username_id_kids by assumption.
    destruct (List.find (fun it => same_label u (item_text it)) (kids t (item_iid S)))
      as [c|] eqn:EU; cbn [option_map].
    + split; [assumption|]. unfold forest. symmetry.
      apply forest_add_present with (S := S); [assumption|].
      rewrite existsb_map.
      rewrite find_existsb. now rewrite EU.
    + split.
      * apply WF_insert; [assumption|]. right. exists S. now repeat split.
      * unfold forest. rewrite kids_insert.
        assert ((item_iid S =? ROOT) = false) as ->.
        { apply Nat.eqb_neq. destruct (Hrg S HS). unfold ROOT. lia. }
        rewrite app_nil_r.
        rewrite (forest_add_append (fun x => map item_text (kids t (item_iid x)))
                   (kids t ROOT) S s u);
          [| now apply NoDup_kids | assumption
           | rewrite existsb_map, find_existsb; now rewrite EU].
        apply map_ext. intros x. rewrite kids_insert, map_app. f_equal. f_equal.
        now destruct (item_iid S =? item_iid x).
  - set (new := S (last_iid t)).
    change (Tk.insert t ROOT s) with (new, snd (Tk.insert t ROOT s)).
    cbv iota.
    set (t1 := snd (Tk.insert t ROOT s)).
    assert (Hk : kids t1 new = []).
    { unfold t1. rewrite kids_insert.
      rewrite kids_fresh by (assumption || (unfold new; lia)).
      reflexivity. }
    unfold SharedState.get_username_id.
    rewrite get_children_kids, Hk. cbn [map List.find].
    assert (Hwf1 : WF t1) by (apply WF_insert; auto).
    split.
    + apply (WF_insert t1 new u Hwf1).
      right. exists (mkItem new ROOT s). simpl. repeat split.
      apply in_or_app. right. now left.
    + pose proof (kids_insert t ROOT s) as K1. fold t1 new in K1.
      pose proof (kids_insert t1 new u) as K2.
      unfold forest. rewrite K2, K1. cbn [Nat.eqb ROOT new].
      rewrite app_nil_r, map_app. cbn [map item_iid item_text].
      rewrite forest_add_absent.
      2:{ unfold forest. rewrite find_map. cbn [fst]. now rewrite ES. }
      f_equal.
      * apply map_ext_in. intros x Hx. f_equal. f_equal.
        apply kids_In in Hx as [Hx Hxr]. destruct (Hrg x Hx).
        rewrite K2, K1.
        assert ((new =? item_iid x) = false) as ->
            by (apply Nat.eqb_neq; unfold new; lia).
        assert ((ROOT =? item_iid x) = false) as ->
            by (apply Nat.eqb_neq; unfold ROOT; lia).
        now rewrite !app_nil_r.
      * f_equal. f_equal.
        rewrite K2, Hk. now rewrite Nat.eqb_refl.
Qed.

(** ** [del_username] on the forest *)

Lemma mkTree_eta t : mkTree (last_iid t) (items t) = t.
Proof. now destruct t. Qed.

Lemma filter_all {A} (f : A -> bool) l :
  (forall x, In x l -> f x = true) -> List.filter f l = l.
Proof.
  induction l as [|x r IH]; simpl; intros H; [reflexivity|].
  rewrite (H x) by now left. f_equal. apply IH. intros y Hy. apply H. now right.
Qed.

Lemma filter_map_comm {A B} (f : B -> bool) (g : A -> B) l :
  List.filter f (map g l) = map g (List.filter (fun x => f (g x)) l).
Proof.
  induction l as [|x r IH]; simpl; [reflexivity|].
  destruct (f (g x)); simpl; now rewrite IH.
Qed.

(** The loop of [del_username]: of the items named in [l], those whose text
    is [u] up to case are gone, and nothing else. *)
Lemma del_loop u l : forall t,
  WF t ->
  (forall a, In a l -> forall x, In x (items t) -> item_parent x <> a) ->
  fold_left (SharedState.del_step u) l t
  = mkTree (last_iid t)
      (List.filter (fun it => negb (Tk.mem (item_iid it) l
                                    && same_label (item_text it) u)) (items t)).
Proof.
  induction l as [|a l IH]; intros t Hwf Hleaf.
  - simpl. rewrite filter_all by reflexivity. symmetry. apply mkTree_eta.
  - cbn [fold_left]. unfold SharedState.del_step at 2.
    change (String.eqb (lower (Tk.item t a)) (lower u))
      with (same_label (Tk.item t a) u).
    destruct (same_label (Tk.item t a) u) eqn:E; cbn [negb].
    + rewrite delete_childless by (apply Hleaf; now left).
      rewrite IH.
      * cbn [last_iid items]. f_equal. rewrite filter_filter.
        apply filter_ext_in'. intros x Hx. cbn [Tk.mem existsb].
        fold (Tk.mem (item_iid x) l).
        destruct (Nat.eqb_spec (item_iid x) a) as [K|K]; [|reflexivity].
        subst a. rewrite (item_of t x Hwf Hx) in E. now rewrite E.
      * apply WF_filter; [assumption|].
        intros x y Hx Hy Px _. apply negb_false_iff, Nat.eqb_eq in Px.
        rewrite Px. apply Hleaf; [now left | assumption].
      * intros b Hb x Hx. cbn [items] in Hx. apply filter_In in Hx as [Hx _].
        apply Hleaf; [now right | assumption].
    + rewrite IH; [|assumption|].
      * f_equal. apply filter_ext_in'. intros x Hx. cbn [Tk.mem existsb].
        fold (Tk.mem (item_iid x) l).
        destruct (Nat.eqb_spec (item_iid x) a) as [K|K]; [|reflexivity].
        subst a. rewrite (item_of t x Hwf Hx) in E. rewrite E.
        now rewrite !andb_false_r.
      * intros b Hb. apply Hleaf. now right.
Qed.

Lemma forest_del_absent F s u :
  List.find (fun e => same_label s (fst e)) F = None -> forest_del F s u = F.
Proof.
  induction F as [|[n us] r IH]; simpl; intros H; [reflexivity|].
  destruct (same_label s n); [discriminate|]. now rewrite IH.
Qed.

Lemma forest_del_prune (g : Item -> list string) L S s u :
  List.NoDup (map item_iid L) ->
  List.find (fun it => same_label s (item_text it)) L = Some S ->
  List.filter (fun a => negb (same_label a u)) (g S) = [] ->
  forest_del (map (fun x => (item_text x, g x)) L) s u
  = map (fun x => (item_text x, g x))
        (List.filter (fun x => negb (item_iid x =? item_iid S)) L).
Proof.
  induction L as [|x r IH]; simpl; intros Hnd H Hu; [discriminate|].
  inversion Hnd as [|? ? Hx Hr]; subst.
  destruct (same_label s (item_text x)) eqn:E.
  - injection H as ->. rewrite Hu, Nat.eqb_refl. cbn [negb].
    rewrite filter_all; [reflexivity|]. intros y Hy.
    apply negb_true_iff, Nat.eqb_neq. intros K. apply Hx. rewrite <- K.
    now apply in_map.
  - assert ((item_iid x =? item_iid S) = false) as ->.
    { apply Nat.eqb_neq. intros K. apply Hx. rewrite K. apply in_map.
      now apply find_some in H as [H _]. }
    cbn [negb map]. now rewrite IH.
Qed.

Lemma forest_del_keep (g : Item -> list string) L S s u :
  List.NoDup (map item_iid L) ->
  List.find (fun it => same_label s (item_text it)) L = Some S ->
  List.filter (fun a => negb (same_label a u)) (g S) <> [] ->
  forest_del (map (fun x => (item_text x, g x)) L) s u
  = map (fun x => (item_text x,
                   if item_iid x =? item_iid S
                   then List.filter (fun a => negb (same_label a u)) (g x)
                   else g x)) L.
Proof.
  induction L as [|x r IH]; simpl; intros Hnd H Hu; [discriminate|].
  inversion Hnd as [|? ? Hx Hr]; subst.
  destruct (same_label s (item_text x)) eqn:E.
  - injection H as ->. rewrite Nat.eqb_refl.
    destruct (List.filter (fun a => negb (same_label a u)) (g S)) eqn:EF;
      [contradiction|].
    f_equal. apply map_ext_in. intros y Hy.
    destruct (Nat.eqb_spec (item_iid y) (item_iid S)) as [K|K]; [|reflexivity].
    exfalso. apply Hx. rewrite <- K. now apply in_map.
  - assert ((item_iid x =? item_iid S) = false) as ->.
    { apply Nat.eqb_neq. intros K. apply Hx. rewrite K. apply in_map.
      now apply find_some in H as [H _]. }
    now rewrite IH.
Qed.

Lemma mem_kids t p x :
  WF t -> In x (items t) ->
  Tk.mem (item_iid x) (map item_iid (kids t p)) = (item_parent x =? p).
Proof.
  intros Hwf Hx. apply eq_true_iff_eq. rewrite mem_In, Nat.eqb_eq, in_map_iff.
  split.
  - intros [c [E Hc]]. apply kids_In in Hc as [Hc Hp].
    now rewrite <- (WF_iid_inj t c x Hwf Hc Hx E).
  - intros E. exists x. split; [reflexivity|]. now apply kids_In.
Qed.

Lemma del_loop_service t S u :
  WF t -> In S (items t) -> item_parent S = ROOT ->
  fold_left (SharedState.del_step u) (Tk.get_children t (item_iid S)) t
  = mkTree (last_iid t)
      (List.filter (fun x => negb ((item_parent x =? item_iid S)
                                   && same_label (item_text x) u)) (items t)).
Proof.
  intros Hwf HS HSr. pose proof Hwf as [Hnd [Hrg Hdp]].
  rewrite del_loop; [|assumption|].
  - f_equal. apply filter_ext_in'. intros x Hx.
    rewrite get_children_kids. now rewrite mem_kids.
  - intros a Ha x Hx. rewrite get_children_kids in Ha.
    apply in_map_iff in Ha as [c [<- Hc]]. apply kids_In in Hc as [Hc Hp].
    apply (leaf_childless t c x); try assumption.
    rewrite Hp. destruct (Hrg S HS). unfold ROOT. lia.
Qed.

Lemma del_username_forest t s u :
  WF t ->
  WF (SharedState.del_username t s u)
  /\ forest (SharedState.del_username t s u) = forest_del (forest t) s u.
Proof.
  intros Hwf. pose proof Hwf as [Hnd [Hrg Hdp]].
  unfold SharedState.del_username.
  rewrite get_service_id_kids by assumption.
  destruct (List.find (fun it => same_label s (item_text it)) (kids t ROOT))
    as [S|] eqn:ES; cbn [option_map].
  2:{ split; [assumption|]. symmetry. apply forest_del_absent.
      unfold forest. rewrite find_map. cbn [fst]. now rewrite ES. }
  pose proof (find_some _ _ ES) as [HS _].
  apply kids_In in HS as [HS HSr].
  assert (HS0 : item_iid S <> ROOT) by (destruct (Hrg S HS); unfold ROOT; lia).
  rewrite del_loop_service by assumption.
  set (Q := fun x => negb ((item_parent x =? item_iid S)
                           && same_label (item_text x) u)).
  set (t1 := mkTree (last_iid t) (List.filter Q (items t))).
  assert (Hwf1 : WF t1).
  { apply WF_filter; [assumption|]. intros x y Hx Hy Px _.
    apply (leaf_childless t x y); try assumption.
    unfold Q in Px. apply negb_false_iff, andb_true_iff in Px as [Px _].
    apply Nat.eqb_eq in Px. congruence. }
  assert (K1 : forall q, kids t1 q = List.filter Q (kids t q))
    by (intros q; apply kids_filter).
  assert (Ktop : kids t1 ROOT = kids t ROOT).
  { rewrite K1. apply filter_all. intros x Hx. apply kids_In in Hx as [_ Hx].
    unfold Q. rewrite Hx.
    assert ((ROOT =? item_iid S) = false) as -> by (apply Nat.eqb_neq; congruence).
    reflexivity. }
  assert (KS : map item_text (kids t1 (item_iid S))
               = List.filter (fun a => negb (same_label a u))
                   (map item_text (kids t (item_iid S)))).
  { rewrite K1, filter_map_comm. f_equal. apply filter_ext_in'.
    intros x Hx. apply kids_In in Hx as [_ Hx]. unfold Q.
    now rewrite Hx, Nat.eqb_refl. }
  assert (Kother : forall x, In x (kids t ROOT) -> item_iid x <> item_iid S ->
                             kids t1 (item_iid x) = kids t (item_iid x)).
  { intros x Hx Hne. rewrite K1. apply filter_all. intros y Hy.
    apply kids_In in Hy as [_ Hy]. unfold Q. rewrite Hy.
    assert ((item_iid x =? item_iid S) = false) as ->
        by now apply Nat.eqb_neq.
    reflexivity. }
  rewrite get_children_kids, length_map.
  destruct (kids t1 (item_iid S)) as [|c cs] eqn:EK; cbn [length Nat.eqb].
  - (* the service has no child left: it is deleted *)
    assert (Hnone : forall x, In x (items t1) -> item_parent x <> item_iid S).
    { intros x Hx E. assert (In x (kids t1 (item_iid S))) by now apply kids_In.
      rewrite EK in H. contradiction. }
    rewrite delete_childless by assumption.
    set (R := fun x => negb (item_iid x =? item_iid S)).
    split.
    + apply WF_filter; [assumption|]. intros x y Hx Hy Px _.
      unfold R in Px. apply negb_false_iff, Nat.eqb_eq in Px. rewrite Px.
      now apply Hnone.
    + unfold forest. rewrite !kids_filter, Ktop.
      rewrite (forest_del_prune (fun x => map item_text (kids t (item_iid x)))
                 (kids t ROOT) S s u);
        [| now apply NoDup_kids | assumption | now rewrite <- KS].
      apply map_ext_in. intros x Hx. apply filter_In in Hx as [Hx Rx].
      f_equal. f_equal. cbn [item_iid].
      unfold R in Rx. apply negb_true_iff, Nat.eqb_neq in Rx.
      rewrite kids_filter, (Kother x Hx Rx).
      apply filter_all. intros y Hy. apply kids_In in Hy as [Hy Hyp].
      apply negb_true_iff, Nat.eqb_neq. intros E.
      pose proof (WF_iid_inj t y S Hwf Hy HS E) as ->.
      apply kids_In in Hx as [Hx _]. destruct (Hrg x Hx). unfold ROOT in *. lia.
  - split; [assumption|].
    unfold forest. rewrite Ktop.
    rewrite (forest_del_keep (fun x => map item_text (kids t (item_iid x)))
               (kids t ROOT) S s u);
      [| now apply NoDup_kids | assumption | rewrite <- KS; discriminate].
    apply map_ext_in. intros x Hx. f_equal.
    destruct (Nat.eqb_spec (item_iid x) (item_iid S)) as [E|E].
    + now rewrite E, EK, KS.
    + now rewrite Kother.
Qed.

(** When every child of the service found matches the username, the service
    node itself is gone from the widget. *)
Lemma del_username_prunes t s u service_id :
  WF t ->
  SharedState.get_service_id t s = Some service_id ->
  forallb (fun c => same_label (Tk.item t c) u) (Tk.get_children t service_id)
  = true ->
  ~ In service_id (Tk.get_children (SharedState.del_username t s u) ROOT).
Proof.
  intros Hwf Hfind Hall. pose proof Hwf as [Hnd [Hrg Hdp]].
  unfold SharedState.del_username. rewrite Hfind.
  rewrite get_service_id_kids in Hfind by assumption.
  destruct (List.find (fun it => same_label s (item_text it)) (kids t ROOT))
    as [S|] eqn:ES; [|discriminate].
  cbn [option_map] in Hfind. injection Hfind as <-.
  pose proof (find_some _ _ ES) as [HS _].
  apply kids_In in HS as [HS HSr].
  rewrite del_loop_service by assumption.
  set (Q := fun x => negb ((item_parent x =? item_iid S)
                           && same_label (item_text x) u)).
  set (t1 := mkTree (last_iid t) (List.filter Q (items t))).
  assert (EK : kids t1 (item_iid S) = []).
  { unfold t1. rewrite kids_filter. apply filter_none. intros x Hx.
    pose proof Hx as Hx'. apply kids_In in Hx' as [Hx1 Hx2].
    unfold Q. rewrite Hx2, Nat.eqb_refl. cbn [andb]. apply negb_false_iff.
    rewrite forallb_forall in Hall.
    rewrite <- (item_of t x Hwf Hx1). apply Hall.
    rewrite get_children_kids. now apply in_map. }
  rewrite (get_children_kids t1 (item_iid S)), EK. cbn [map length Nat.eqb].
  rewrite delete_childless.
  - rewrite get_children_kids. intros Hin.
    apply in_map_iff in Hin as [x [E Hx]]. apply kids_In in Hx as [Hx _].
    cbn [items] in Hx. apply filter_In in Hx as [_ Hx].
    apply negb_true_iff, Nat.eqb_neq in Hx. contradiction.
  - intros x Hx E. assert (Hk : In x (kids t1 (item_iid S))) by now apply kids_In.
    rewrite EK in Hk. contradiction.
Qed.

(** ** [get_tree], [set_tree] and the invariants on the forest *)

Lemma fold_left_map {A B C} (f : A -> B -> A) (g : C -> B) l a :
  fold_left f (map g l) a = fold_left (fun a x => f a (g x)) l a.
Proof.
  revert a. induction l as [|x r IH]; simpl; intros a; [reflexivity|]. apply IH.
Qed.

Lemma fold_left_ext_in {A B} (f g : A -> B -> A) l a :
  (forall a x, In x l -> f a x = g a x) -> fold_left f l a = fold_left g l a.
Proof.
  revert a. induction l as [|x r IH]; simpl; intros a H; [reflexivity|].
  rewrite H by now left. apply IH. intros b y Hy. apply H. now right.
Qed.

Lemma get_tree_forest t : WF t -> SharedState.get_tree t = dict_of (forest t).
Proof.
  intros Hwf. unfold SharedState.get_tree, dict_of, forest.
  rewrite get_children_kids, !fold_left_map.
  apply fold_left_ext_in. intros d x Hx. apply kids_In in Hx as [Hx _].
  rewrite item_of by assumption. now rewrite labels_of_kids.
Qed.

Lemma service_labels_forest t : WF t -> service_labels t = map fst (forest t).
Proof.
  intros Hwf. unfold service_labels, forest.
  rewrite labels_of_kids by assumption. now rewrite map_map.
Qed.

Lemma forallb_map {A B} (f : B -> bool) (g : A -> B) l :
  forallb f (map g l) = forallb (fun x => f (g x)) l.
Proof.
  induction l as [|x r IH]; simpl; [reflexivity|]. now rewrite IH.
Qed.

Lemma forallb_ext_in {A} (f g : A -> bool) l :
  (forall x, In x l -> f x = g x) -> forallb f l = forallb g l.
Proof.
  induction l as [|x r IH]; simpl; intros H; [reflexivity|].
  rewrite (H x) by now left. f_equal. apply IH. intros y Hy. apply H. now right.
Qed.

Lemma no_childless_forest t :
  WF t -> no_childless_service t = forest_no_childless (forest t).
Proof.
  intros Hwf. unfold no_childless_service, forest_no_childless, forest.
  rewrite get_children_kids, !forallb_map.
  apply forallb_ext_in. intros x _. cbn [snd].
  now rewrite get_children_kids, !length_map.
Qed.

Lemma unique_labels_forest t :
  WF t -> unique_labels t = forest_unique (forest t).
Proof.
  intros Hwf. unfold unique_labels, forest_unique.
  rewrite service_labels_forest by assumption. f_equal.
  unfold forest. rewrite get_children_kids, !forallb_map.
  apply forallb_ext_in. intros x _. cbn [snd]. unfold username_labels.
  now rewrite labels_of_kids.
Qed.

Lemma has_account_forest t s u :
  WF t -> has_account t s u = forest_has (forest t) s u.
Proof.
  intros Hwf. unfold has_account, forest_has, forest.
  rewrite get_service_id_kids by assumption. rewrite find_map. cbn [fst].
  destruct (List.find (fun x => same_label s (item_text x)) (kids t ROOT))
    as [S|]; cbn [option_map snd]; [|reflexivity].
  rewrite get_username_id_kids by assumption.
  rewrite existsb_map, find_existsb.
  now destruct (List.find _ (kids t (item_iid S))).
Qed.

Lemma set_tree_forest cache : forall t,
  WF t ->
  WF (SharedState.set_tree t cache)
  /\ forest (SharedState.set_tree t cache) = forest_set (forest t) cache.
Proof.
  unfold SharedState.set_tree, forest_set.
  induction cache as [|[key value] r IH]; intros t Hwf; cbn [fold_left].
  - now split.
  - assert (H : WF (fold_left (fun t' item => SharedState.add_username t' key item)
                              value t)
                /\ forest (fold_left (fun t' item =>
                                        SharedState.add_username t' key item) value t)
                   = fold_left (fun F' item => forest_add F' key item) value (forest t)).
    { clear IH. revert t Hwf. induction value as [|u us IHu]; intros t Hwf;
        cbn [fold_left]; [now split|].
      destruct (add_username_forest t key u Hwf) as [H1 H2].
      destruct (IHu _ H1) as [H3 H4]. split; [assumption|]. now rewrite H4, H2. }
    destruct H as [H1 H2]. destruct (IH _ H1) as [H3 H4].
    split; [assumption|]. now rewrite H4, H2.
Qed.

(** ** The forest operations keep the invariants *)

Lemma existsb_false {A} (f : A -> bool) l :
  existsb f l = false <-> forall x, In x l -> f x = false.
Proof.
  induction l as [|x r IH]; simpl.
  - split; [intros _ y [] | reflexivity].
  - rewrite orb_false_iff, IH. split.
    + intros [H1 H2] y [<-|Hy]; auto.
    + intros H. split; [apply H; now left | intros y Hy; apply H; now right].
Qed.

Lemma distinct_labels_app l1 l2 :
  distinct_labels (l1 ++ l2) = true
  <-> distinct_labels l1 = true /\ distinct_labels l2 = true
      /\ forall x y, In x l1 -> In y l2 -> same_label x y = false.
Proof.
  induction l1 as [|a r IH]; simpl.
  - split; [intros H; repeat split; [assumption | intros x y []] | now intros [_ [H _]]].
  - rewrite !andb_true_iff, !negb_true_iff, IH, !existsb_false. split.
    + intros [Ha [H1 [H2 H3]]]. repeat split; try assumption.
      * intros x Hx. apply Ha. apply in_or_app. now left.
      * intros x y [<-|Hx] Hy; [apply Ha; apply in_or_app; now right | now apply H3].
    + intros [[Ha H1] [H2 H3]]. repeat split; try assumption.
      * intros x Hx. apply in_app_or in Hx as [Hx|Hx]; [now apply Ha|].
        apply H3; [now left | assumption].
      * intros x y Hx Hy. apply H3; [now right | assumption].
Qed.

Lemma distinct_labels_filter (f : string -> bool) l :
  distinct_labels l = true -> distinct_labels (List.filter f l) = true.
Proof.
  induction l as [|a r IH]; simpl; intros H; [reflexivity|].
  apply andb_true_iff in H as [Ha Hr].
  destruct (f a); simpl; [|now apply IH].
  apply andb_true_iff. split; [|now apply IH].
  apply negb_true_iff in Ha. apply negb_true_iff.
  apply existsb_false. intros x Hx. apply filter_In in Hx as [Hx _].
  now apply (proj1 (existsb_false _ _) Ha).
Qed.

Lemma forest_add_no_childless F s u :
  forest_no_childless F = true -> forest_no_childless (forest_add F s u) = true.
Proof.
  unfold forest_no_childless.
  induction F as [|[n us] r IH]; simpl; intros H; [reflexivity|].
  apply andb_true_iff in H as [H1 H2].
  destruct (same_label s n); simpl; apply andb_true_iff; split; auto.
  destruct (existsb (same_label u) us); [assumption|].
  rewrite length_app. simpl. apply negb_true_iff, Nat.eqb_neq. lia.
Qed.

Lemma forest_del_no_childless F s u :
  forest_no_childless F = true -> forest_no_childless (forest_del F s u) = true.
Proof.
  unfold forest_no_childless.
  induction F as [|[n us] r IH]; simpl; intros H; [reflexivity|].
  apply andb_true_iff in H as [H1 H2].
  destruct (same_label s n).
  - destruct (List.filter (fun a => negb (same_label a u)) us); [assumption|].
    simpl. now rewrite H2.
  - simpl. rewrite H1. now apply IH.
Qed.

Lemma forest_add_names F s u :
  map fst (forest_add F s u)
  = if existsb (same_label s) (map fst F) then map fst F else map fst F ++ [s].
Proof.
  induction F as [|[n us] r IH]; simpl; [reflexivity|].
  destruct (same_label s n); simpl; [reflexivity|]. rewrite IH.
  now destruct (existsb (same_label s) (map fst r)).
Qed.

Lemma forest_add_unique F s u :
  forest_unique F = true -> forest_unique (forest_add F s u) = true.
Proof.
  unfold forest_unique. intros H. apply andb_true_iff in H as [H1 H2].
  apply andb_true_iff. split.
  - rewrite forest_add_names.
    destruct (existsb (same_label s) (map fst F)) eqn:E; [assumption|].
    apply distinct_labels_app. repeat split; [assumption|].
    intros x y Hx [<-|[]]. rewrite same_label_sym.
    now apply (proj1 (existsb_false _ _) E).
  - clear H1. induction F as [|[n us] r IH]; simpl; [reflexivity|].
    simpl in H2. apply andb_true_iff in H2 as [Hu Hr].
    destruct (same_label s n); simpl; apply andb_true_iff; split; auto.
    destruct (existsb (same_label u) us) eqn:E; [assumption|].
    apply distinct_labels_app. repeat split; [assumption|].
    intros x y Hx [<-|[]]. rewrite same_label_sym.
    now apply (proj1 (existsb_false _ _) E).
Qed.

Lemma forest_del_names_incl F s u x :
  In x (map fst (forest_del F s u)) -> In x (map fst F).
Proof.
  induction F as [|[n us] r IH]; simpl; [auto|].
  destruct (same_label s n).
  - destruct (List.filter (fun a => negb (same_label a u)) us); simpl;
      [auto | intros [H|H]; auto].
  - simpl. intros [H|H]; auto.
Qed.

Lemma forest_del_unique F s u :
  forest_unique F = true -> forest_unique (forest_del F s u) = true.
Proof.
  unfold forest_unique. intros H. apply andb_true_iff in H as [H1 H2].
  apply andb_true_iff. split.
  - clear H2. induction F as [|[n us] r IH]; simpl; [reflexivity|].
    simpl in H1. apply andb_true_iff in H1 as [Hn Hr].
    destruct (same_label s n).
    + destruct (List.filter (fun a => negb (same_label a u)) us); [assumption|].
      simpl. now rewrite Hn, Hr.
    + simpl. apply andb_true_iff. split; [|now apply IH].
      apply negb_true_iff in Hn. apply negb_true_iff, existsb_false.
      intros x Hx. apply forest_del_names_incl in Hx.
      now apply (proj1 (existsb_false _ _) Hn).
  - clear H1. induction F as [|[n us] r IH]; simpl; [reflexivity|].
    simpl in H2. apply andb_true_iff in H2 as [Hu Hr].
    destruct (same_label s n).
    + pose proof (distinct_labels_filter (fun a => negb (same_label a u)) us Hu) as K.
      destruct (List.filter (fun a => negb (same_label a u)) us); [assumption|].
      cbn [forallb snd]. now rewrite K, Hr.
    + simpl. rewrite Hu. now apply IH.
Qed.

Lemma forest_set_invariants cache : forall F,
  (forest_unique F = true -> forest_unique (forest_set F cache) = true)
  /\ (forest_no_childless F = true ->
      forest_no_childless (forest_set F cache) = true).
Proof.
  unfold forest_set.
  induction cache as [|[key value] r IH]; intros F; cbn [fold_left]; [now split|].
  assert (H : (forest_unique F = true ->
               forest_unique (fold_left (fun F' item => forest_add F' key item)
                                        value F) = true)
              /\ (forest_no_childless F = true ->
                  forest_no_childless
                    (fold_left (fun F' item => forest_add F' key item) value F)
                  = true)).
  { clear IH. revert F. induction value as [|u us IHu]; intros F;
      cbn [fold_left]; [now split|].
    destruct (IHu (forest_add F key u)) as [H1 H2]. split; intros H.
    - apply H1. now apply forest_add_unique.
    - apply H2. now apply forest_add_no_childless. }
  destruct H as [H1 H2]. destruct (IH (fold_left (fun F' item =>
    forest_add F' key item) value F)) as [H3 H4].
  split; auto.
Qed.

Lemma forest_has_add F s u : forest_has (forest_add F s u) s u = true.
Proof.
  unfold forest_has.
  induction F as [|[n us] r IH]; simpl.
  - rewrite same_label_refl. simpl. now rewrite same_label_refl.
  - destruct (same_label s n) eqn:E; simpl; rewrite E; [|exact IH].
    simpl. destruct (existsb (same_label u) us) eqn:K; [assumption|].
    rewrite existsb_app. simpl. rewrite same_label_refl. apply orb_true_r.
Qed.

Lemma forest_has_del F s u :
  forest_unique F = true -> forest_has (forest_del F s u) s u = false.
Proof.
  unfold forest_unique, forest_has. intros H. apply andb_true_iff in H as [H1 H2].
  induction F as [|[n us] r IH]; simpl; [reflexivity|].
  simpl in H1, H2. apply andb_true_iff in H1 as [Hn Hr].
  apply andb_true_iff in H2 as [_ Hus].
  destruct (same_label s n) eqn:E.
  - assert (Hnone : List.find (fun e => same_label s (fst e)) r = None).
    { destruct (List.find (fun e => same_label s (fst e)) r) as [e|] eqn:Ef;
        [|reflexivity].
      apply find_some in Ef as [He Hs]. apply negb_true_iff in Hn.
      pose proof (proj1 (existsb_false _ _) Hn (fst e) (in_map fst _ _ He)) as K.
      rewrite same_label_sym in E. rewrite (same_label_trans _ _ _ E) in Hs.
      congruence. }
    destruct (List.filter (fun a => negb (same_label a u)) us) as [|a l] eqn:Ef.
    + now rewrite Hnone.
    + cbn [List.find fst]. rewrite E. cbn [snd]. rewrite <- Ef.
      apply existsb_false. intros x Hx. apply filter_In in Hx as [_ Hx].
      apply negb_true_iff in Hx. now rewrite same_label_sym.
  - simpl. rewrite E. now apply IH.
Qed.

(** ** Export and import *)

Lemma same_label_false_neq a b : same_label a b = false -> String.eqb a b = false.
Proof.
  intros H. apply String.eqb_neq. intros ->. now rewrite same_label_refl in H.
Qed.

Lemma dict_update_fresh {V} (D : Dict V) k v :
  (forall k', In k' (map fst D) -> String.eqb k' k = false) ->
  dict_update D k v = D ++ [(k, v)].
Proof.
  induction D as [|[k' v'] r IH]; simpl; intros H; [reflexivity|].
  rewrite (H k') by now left. rewrite IH; [reflexivity|].
  intros x Hx. apply H. now right.
Qed.

Lemma dict_of_distinct F :
  distinct_labels (map fst F) = true -> dict_of F = F.
Proof.
  unfold dict_of. change F with ([] ++ F) at 1 3.
  generalize (@nil (string * list string)) as D0.
  induction F as [|[k v] r IH]; intros D0 H; cbn [fold_left].
  - now rewrite app_nil_r.
  - rewrite dict_update_fresh.
    + replace (D0 ++ (k, v) :: r) with ((D0 ++ [(k, v)]) ++ r)
        by now rewrite <- app_assoc.
      apply IH. now rewrite <- app_assoc.
    + intros k' Hk'. apply same_label_false_neq.
      rewrite map_app in H. apply distinct_labels_app in H as [_ [_ H]].
      apply H; [assumption | now left].
Qed.

Lemma find_app_none {A} (f : A -> bool) l1 l2 :
  List.find f l1 = None -> List.find f (l1 ++ l2) = List.find f l2.
Proof.
  induction l1 as [|x r IH]; simpl; [reflexivity|].
  destruct (f x); [discriminate | exact IH].
Qed.

Lemma forest_add_last (F0 : Dict (list string)) n vs u :
  List.find (fun e => same_label n (fst e)) F0 = None ->
  existsb (same_label u) vs = false ->
  forest_add (F0 ++ [(n, vs)]) n u = F0 ++ [(n, vs ++ [u])].
Proof.
  induction F0 as [|[m ws] r IH]; simpl; intros H Hu.
  - now rewrite same_label_refl, Hu.
  - destruct (same_label n m); [discriminate|]. now rewrite IH.
Qed.

Lemma fold_add_last (F0 : Dict (list string)) n us : forall vs,
  List.find (fun e => same_label n (fst e)) F0 = None ->
  distinct_labels (vs ++ us) = true ->
  fold_left (fun F' item => forest_add F' n item) us (F0 ++ [(n, vs)])
  = F0 ++ [(n, vs ++ us)].
Proof.
  induction us as [|u r IH]; intros vs H Hd; cbn [fold_left].
  - now rewrite app_nil_r.
  - rewrite forest_add_last; [|assumption|].
    + replace (vs ++ u :: r) with ((vs ++ [u]) ++ r) by now rewrite <- app_assoc.
      apply IH; [assumption|]. now rewrite <- app_assoc.
    + apply distinct_labels_app in Hd as [_ [_ Hd]].
      apply existsb_false. intros x Hx. rewrite same_label_sym.
      apply Hd; [assumption | now left].
Qed.

Lemma find_label_none (F : Dict (list string)) n :
  (forall x, In x (map fst F) -> same_label x n = false) ->
  List.find (fun e => same_label n (fst e)) F = None.
Proof.
  intros H. destruct (List.find (fun e => same_label n (fst e)) F) as [e|] eqn:E;
    [|reflexivity].
  apply find_some in E as [He Hs]. rewrite same_label_sym in Hs.
  rewrite (H (fst e)) in Hs; [discriminate | now apply in_map].
Qed.

Lemma forest_set_roundtrip F : forall F0,
  forest_unique (F0 ++ F) = true -> forest_no_childless F = true ->
  forest_set F0 F = F0 ++ F.
Proof.
  unfold forest_set.
  induction F as [|[n us] r IH]; intros F0 Hu Hc; cbn [fold_left].
  - now rewrite app_nil_r.
  - cbn [forest_no_childless forallb snd] in Hc.
    apply andb_true_iff in Hc as [Hn Hc].
    pose proof Hu as Hu'. unfold forest_unique in Hu'.
    apply andb_true_iff in Hu' as [H1 H2].
    rewrite map_app in H1. apply distinct_labels_app in H1 as [_ [_ H1]].
    rewrite forallb_app in H2. apply andb_true_iff in H2 as [_ H2].
    cbn [forallb snd] in H2. apply andb_true_iff in H2 as [Hus _].
    assert (Hnone : List.find (fun e => same_label n (fst e)) F0 = None).
    { apply find_label_none. intros x Hx. apply H1; [assumption | now left]. }
    destruct us as [|u us]; [discriminate|]. cbn [fold_left].
    rewrite forest_add_absent by assumption.
    rewrite (fold_add_last F0 n us [u]) by assumption.
    replace (F0 ++ (n, u :: us) :: r) with ((F0 ++ [(n, [u] ++ us)]) ++ r)
      by now rewrite <- app_assoc.
    apply IH; [|assumption]. now rewrite <- app_assoc.
Qed.

(** ** The invariants of the data model *)

Lemma tree_ok_forest t :
  tree_ok t = true <->
  WF t /\ forest_unique (forest t) = true /\ forest_no_childless (forest t) = true.
Proof.
  unfold tree_ok. rewrite !andb_true_iff, tree_wf_WF. split.
  - intros [[Hwf Hu] Hc].
    rewrite unique_labels_forest in Hu by assumption.
    rewrite no_childless_forest in Hc by assumption. auto.
  - intros [Hwf [Hu Hc]].
    rewrite unique_labels_forest, no_childless_forest by assumption. auto.
Qed.

(** On a tree that satisfies the invariants, the export is the forest. *)
Lemma get_tree_ok t : tree_ok t = true -> SharedState.get_tree t = forest t.
Proof.
  intros Hok. apply tree_ok_forest in Hok as [Hwf [Hu _]].
  rewrite get_tree_forest by assumption. apply dict_of_distinct.
  unfold forest_unique in Hu. now apply andb_true_iff in Hu as [Hu _].
Qed.

Lemma tree_ok_new : tree_ok Tk.Treeview_new = true.
Proof. reflexivity. Qed.

Lemma tree_ok_add t s u :
  tree_ok t = true -> tree_ok (SharedState.add_username t s u) = true.
Proof.
  rewrite !tree_ok_forest. intros [Hwf [Hu Hc]].
  destruct (add_username_forest t s u Hwf) as [H1 H2]. rewrite H2.
  auto using forest_add_unique, forest_add_no_childless.
Qed.

Lemma tree_ok_del t s u :
  tree_ok t = true -> tree_ok (SharedState.del_username t s u) = true.
Proof.
  rewrite !tree_ok_forest. intros [Hwf [Hu Hc]].
  destruct (del_username_forest t s u Hwf) as [H1 H2]. rewrite H2.
  auto using forest_del_unique, forest_del_no_childless.
Qed.

Lemma tree_ok_set t cache :
  tree_ok t = true -> tree_ok (SharedState.set_tree t cache) = true.
Proof.
  rewrite !tree_ok_forest. intros [Hwf [Hu Hc]].
  destruct (set_tree_forest cache t Hwf) as [H1 H2]. rewrite H2.
  destruct (forest_set_invariants cache (forest t)) as [H3 H4]. auto.
Qed.

(** C5.  For every tree that satisfies the invariants of the data model,
    importing its export into a tree without items gives a tree whose export
    is the export of the first one (as dictionaries in insertion order, which
    is more than equality of Python dictionaries). *)
Theorem export_import_roundtrip (T T0 : Treeview) :
  tree_ok T = true -> items T0 = [] ->
  SharedState.get_tree (SharedState.set_tree T0 (SharedState.get_tree T))
  = SharedState.get_tree T.
Proof.
  intros Hok H0. apply tree_ok_forest in Hok as [Hwf [Hu Hc]].
  assert (Hd : dict_of (forest T) = forest T).
  { apply dict_of_distinct. unfold forest_unique in Hu.
    now apply andb_true_iff in Hu as [Hu _]. }
  assert (Hwf0 : WF T0) by (destruct T0; simpl in H0; subst; apply WF_empty).
  assert (HF0 : forest T0 = []) by (unfold forest, kids; now rewrite H0).
  destruct (set_tree_forest (SharedState.get_tree T) T0 Hwf0) as [H1 H2].
  rewrite (get_tree_forest _ H1), H2, HF0.
  rewrite (get_tree_forest T Hwf), Hd.
  rewrite (forest_set_roundtrip (forest T) []) by assumption.
  exact Hd.
Qed.

Lemma export_import_roundtrip_witness :
  SharedState.get_tree sample_tree = [("Mail", ["bob"; "alice"]); ("svc", ["u1"])]
  /\ SharedState.get_tree
       (SharedState.set_tree Tk.Treeview_new (SharedState.get_tree sample_tree))
     = SharedState.get_tree sample_tree.
Proof.
  split; [reflexivity|].
  apply (export_import_roundtrip sample_tree Tk.Treeview_new); reflexivity.
Defined.

(** C6.  No tree operation leaves a service node without children:
    [add_username], [del_username] and [set_tree] keep the invariant; the
    service that [add_username] adds has the new username as its child;
    [del_username] takes the service node away when all its children go; and
    [del_username] of (svc, u1) on a tree whose only entry it is leaves no
    node at all. *)
Theorem no_childless_service_preserved (t t1 : Treeview) (s u : string)
  (cache : Dict (list string)) :
  tree_wf t = true -> no_childless_service t = true ->
  tree_ok t1 = true -> SharedState.get_tree t1 = [("svc", ["u1"])] ->
  no_childless_service (SharedState.add_username t s u) = true
  /\ no_childless_service (SharedState.del_username t s u) = true
  /\ no_childless_service (SharedState.set_tree t cache) = true
  /\ (SharedState.get_service_id t s = None ->
      forest (SharedState.add_username t s u) = forest t ++ [(s, [u])])
  /\ (forall service_id,
        SharedState.get_service_id t s = Some service_id ->
        forallb (fun c => same_label (Tk.item t c) u)
                (Tk.get_children t service_id) = true ->
        ~ In service_id (Tk.get_children (SharedState.del_username t s u) ROOT))
  /\ Tk.get_children (SharedState.del_username t1 "svc" "u1") ROOT = []
  /\ SharedState.get_tree (SharedState.del_username t1 "svc" "u1") = [].
Proof.
  intros Hwf Hc Hok1 HF1. apply tree_wf_WF in Hwf.
  rewrite (get_tree_ok t1 Hok1) in HF1.
  apply tree_ok_forest in Hok1 as [Hwf1 _].
  rewrite no_childless_forest in Hc by assumption.
  destruct (add_username_forest t s u Hwf) as [Ha1 Ha2].
  destruct (del_username_forest t s u Hwf) as [Hd1 Hd2].
  destruct (set_tree_forest cache t Hwf) as [Hs1 Hs2].
  destruct (del_username_forest t1 "svc" "u1" Hwf1) as [He1 He2].
  rewrite HF1 in He2. change (forest_del _ _ _) with (@nil (string * list string)) in He2.
  rewrite !no_childless_forest by assumption.
  rewrite Ha2, Hd2, Hs2.
  split; [now apply forest_add_no_childless|].
  split; [now apply forest_del_no_childless|].
  split; [now apply (forest_set_invariants cache (forest t))|].
  split.
  { intros Hnone. rewrite get_service_id_kids in Hnone by assumption.
    apply forest_add_absent. unfold forest. rewrite find_map. cbn [fst].
    destruct (List.find (fun x => same_label s (item_text x)) (kids t ROOT));
      [discriminate | reflexivity]. }
  split; [intros service_id; now apply del_username_prunes|].
  split.
  - rewrite get_children_kids. unfold forest in He2.
    apply map_eq_nil in He2. now rewrite He2.
  - rewrite get_tree_forest by assumption. now rewrite He2.
Qed.

Lemma no_childless_service_preserved_witness :
  no_childless_service (SharedState.add_username sample_tree "Shop" "carol") = true
  /\ no_childless_service (SharedState.del_username sample_tree "SVC" "U1") = true
  /\ SharedState.get_tree (SharedState.del_username sample_tree "SVC" "U1")
     = [("Mail", ["bob"; "alice"])]
  /\ SharedState.get_tree
       (SharedState.del_username
          (SharedState.add_username Tk.Treeview_new "svc" "u1") "svc" "u1") = [].
Proof.
  pose proof (no_childless_service_preserved sample_tree
                (SharedState.add_username Tk.Treeview_new "svc" "u1")
                "Shop" "carol" [] eq_refl eq_refl eq_refl eq_refl)
    as [H1 [_ [_ [_ [_ [_ H2]]]]]].
  pose proof (no_childless_service_preserved sample_tree
                (SharedState.add_username Tk.Treeview_new "svc" "u1")
                "SVC" "U1" [] eq_refl eq_refl eq_refl eq_refl)
    as [_ [H3 _]].
  split; [exact H1 | split; [exact H3 | split; [reflexivity | exact H2]]].
Defined.

(** C7.  Every tree operation keeps the labels unique up to case, services at
    the top level and usernames within each service; and on a tree without
    items, [add_username] of (Mail, bob) then of (mail, BOB) gives one service
    node, labelled Mail, with one child, labelled bob. *)
Theorem unique_labels_preserved (t t0 : Treeview) (s u : string)
  (cache : Dict (list string)) :
  tree_wf t = true -> unique_labels t = true -> items t0 = [] ->
  unique_labels (SharedState.add_username t s u) = true
  /\ unique_labels (SharedState.del_username t s u) = true
  /\ unique_labels (SharedState.set_tree t cache) = true
  /\ let t2 := SharedState.add_username
                 (SharedState.add_username t0 "Mail" "bob") "mail" "BOB" in
     service_labels t2 = ["Mail"]
     /\ (exists service_id,
           Tk.get_children t2 ROOT = [service_id]
           /\ username_labels t2 service_id = ["bob"])
     /\ SharedState.get_tree t2 = [("Mail", ["bob"])].
Proof.
  intros Hwf Hu H0. apply tree_wf_WF in Hwf.
  rewrite unique_labels_forest in Hu by assumption.
  destruct (add_username_forest t s u Hwf) as [Ha1 Ha2].
  destruct (del_username_forest t s u Hwf) as [Hd1 Hd2].
  destruct (set_tree_forest cache t Hwf) as [Hs1 Hs2].
  rewrite !unique_labels_forest by assumption. rewrite Ha2, Hd2, Hs2.
  split; [now apply forest_add_unique|].
  split; [now apply forest_del_unique|].
  split; [now apply (forest_set_invariants cache (forest t))|].
  assert (Hwf0 : WF t0) by (destruct t0; simpl in H0; subst; apply WF_empty).
  assert (HF0 : forest t0 = []) by (unfold forest, kids; now rewrite H0).
  destruct (add_username_forest t0 "Mail" "bob" Hwf0) as [Hb1 Hb2].
  destruct (add_username_forest _ "mail" "BOB" Hb1) as [Hc1 Hc2].
  rewrite Hb2, HF0 in Hc2.
  change (forest_add (forest_add [] "Mail" "bob") "mail" "BOB")
    with [("Mail", ["bob"])] in Hc2.
  cbv zeta.
  set (t2 := SharedState.add_username _ "mail" "BOB") in *.
  split; [|split].
  - rewrite service_labels_forest by assumption. now rewrite Hc2.
  - unfold forest in Hc2.
    destruct (kids t2 ROOT) as [|S [|S' r]] eqn:EK; try discriminate.
    exists (item_iid S). split.
    + rewrite get_children_kids. now rewrite EK.
    + unfold username_labels. rewrite labels_of_kids by assumption.
      simpl in Hc2. congruence.
  - rewrite get_tree_forest by assumption. now rewrite Hc2.
Qed.

Lemma unique_labels_preserved_witness :
  unique_labels (SharedState.add_username sample_tree "MAIL" "Bob") = true
  /\ SharedState.get_tree (SharedState.add_username sample_tree "MAIL" "Bob")
     = SharedState.get_tree sample_tree
  /\ SharedState.get_tree
       (SharedState.add_username
          (SharedState.add_username Tk.Treeview_new "Mail" "bob") "mail" "BOB")
     = [("Mail", ["bob"])]
  /\ unique_labels (SharedState.add_username latin1_tree e_acute "y") = true
  /\ service_labels (SharedState.add_username latin1_tree e_acute "y")
     = [E_acute].
Proof.
  pose proof (unique_labels_preserved sample_tree Tk.Treeview_new "MAIL" "Bob" []
                eq_refl eq_refl eq_refl) as [H1 [_ [_ [_ [_ H2]]]]].
  pose proof (unique_labels_preserved latin1_tree Tk.Treeview_new e_acute "y" []
                eq_refl eq_refl eq_refl) as [H3 _].
  split; [exact H1|]. split; [reflexivity|]. split; [exact H2|].
  split; [exact H3 | reflexivity].
Defined.

(** ** Fetch, save and delete *)

Lemma nonempty_len s : (0 <? String.length s) = true <-> s <> EmptyString.
Proof.
  destruct s; simpl; split; congruence || reflexivity || idtac.
  intros H. discriminate H.
Qed.

Lemma empty_len s : s = EmptyString -> (0 <? String.length s) = false.
Proof. now intros ->. Qed.

(** C8, as stated, fails: with an empty username, [save] does not leave the
    bare text in the notification, the text is tagged as a warning. *)
Lemma save_guard_exact_string_counterexample :
  State.username guard_app = EmptyString
  /\ State.message (ToolboxFrame.set_password guard_app)
     <> "Service, username and password cannot be empty!".
Proof. split; [reflexivity | discriminate]. Qed.

(** C8, amended.  When service, username or password is empty, [save] leaves
    the secret store, the tree, the cache file and the three fields as they
    are, makes no call to the store and writes no file, and sets the
    notification to the text tagged as a warning. *)
Theorem save_guard (st : App) :
  State.service st = EmptyString \/ State.username st = EmptyString
  \/ State.password st = EmptyString ->
  let st' := ToolboxFrame.set_password st in
  secrets st' = secrets st
  /\ tree st' = tree st
  /\ files st' = files st
  /\ calls st' = calls st
  /\ root_clipboard st' = root_clipboard st
  /\ State.service st' = State.service st
  /\ State.username st' = State.username st
  /\ State.password st' = State.password st
  /\ State.message st'
     = "[WARNING]: Service, username and password cannot be empty!".
Proof.
  intros H. unfold ToolboxFrame.set_password.
  assert (((0 <? String.length (State.service st))
           && (0 <? String.length (State.username st))
           && (0 <? String.length (State.password st))) = false) as ->.
  { destruct H as [H | [H | H]]; rewrite (empty_len _ H);
      now rewrite ?andb_false_r. }
  cbv zeta. repeat split.
Qed.

Lemma save_guard_witness :
  State.message (ToolboxFrame.set_password guard_app)
  = "[WARNING]: Service, username and password cannot be empty!"
  /\ tree (ToolboxFrame.set_password guard_app) = sample_tree.
Proof.
  pose proof (save_guard guard_app (or_intror (or_introl eq_refl))) as H.
  cbv zeta in H. destruct H as [_ [H1 [_ [_ [_ [_ [_ [_ H2]]]]]]]].
  split; [exact H2 | exact H1].
Defined.

(** C3, as stated, fails: [fetch] clears the password before it looks at the
    service and the username. *)
Lemma fetch_guard_password_counterexample :
  State.service fetch_guard_app = EmptyString
  /\ State.password fetch_guard_app = "p1"
  /\ State.password (ToolboxFrame.get_password fetch_guard_app) = EmptyString
  /\ State.password (ToolboxFrame.get_password fetch_guard_app)
     <> State.password fetch_guard_app.
Proof. repeat split. discriminate. Qed.

(** C3, amended.  When service or username is empty, [fetch] clears the
    password, sets the notification to the warning, and stops: no call to
    the secret store, no write of the cache file, and the tree, the store,
    the file, the clipboard, service and username are as before. *)
Theorem fetch_guard (st : App) :
  State.service st = EmptyString \/ State.username st = EmptyString ->
  let st' := ToolboxFrame.get_password st in
  State.password st' = EmptyString
  /\ State.message st' = "[WARNING]: Service and username cannot be empty!"
  /\ calls st' = calls st
  /\ secrets st' = secrets st
  /\ tree st' = tree st
  /\ files st' = files st
  /\ root_clipboard st' = root_clipboard st
  /\ State.service st' = State.service st
  /\ State.username st' = State.username st.
Proof.
  intros H. unfold ToolboxFrame.get_password.
  change (State.service (State.password_del st)) with (State.service st).
  change (State.username (State.password_del st)) with (State.username st).
  assert (((0 <? String.length (State.service st))
           && (0 <? String.length (State.username st))) = false) as ->.
  { destruct H as [H | H]; rewrite (empty_len _ H); now rewrite ?andb_false_r. }
  cbv zeta. repeat split.
Qed.

Lemma fetch_guard_witness :
  State.password (ToolboxFrame.get_password fetch_guard_app) = EmptyString
  /\ calls (ToolboxFrame.get_password fetch_guard_app) = [].
Proof.
  pose proof (fetch_guard fetch_guard_app (or_introl eq_refl)) as H.
  cbv zeta in H. destruct H as [H1 [_ [H2 _]]].
  split; [exact H1 | exact H2].
Defined.

Lemma guard2 a b :
  a <> EmptyString -> b <> EmptyString ->
  ((0 <? String.length a) && (0 <? String.length b)) = true.
Proof.
  intros Ha Hb. apply nonempty_len in Ha, Hb. now rewrite Ha, Hb.
Qed.

(** C10.  When [delete] runs with service and username non-empty and the
    secret store holds the secret, the notification is set to the info
    message about the deletion, and only then does the cleanup of the
    [finally] clause run, which leaves the notification alone. *)
Theorem delete_success_notification (st : App) :
  State.service st <> EmptyString -> State.username st <> EmptyString ->
  is_Some (secrets st !! (State.service st, State.username st)) ->
  let called :=
    ToolboxFrame.call_delete_password (State.service st) (State.username st) st in
  let notified := State.show_info "Password deleted from keyring." (snd called) in
  fst called = Returned tt
  /\ State.message notified = "[INFO]: Password deleted from keyring."
  /\ ToolboxFrame.del_password st = ToolboxFrame.del_password_finally notified
  /\ State.message (ToolboxFrame.del_password st)
     = "[INFO]: Password deleted from keyring."
  /\ secrets (ToolboxFrame.del_password st)
       !! (State.service st, State.username st) = None.
Proof.
  intros Hs Hu [p Hp]. cbv zeta.
  unfold ToolboxFrame.del_password. rewrite (guard2 _ _ Hs Hu).
  unfold ToolboxFrame.call_delete_password, keyring.delete_password.
  rewrite Hp. cbn [fst snd].
  repeat split. cbn. apply lookup_delete_eq.
Qed.

Lemma delete_success_notification_witness :
  State.message (ToolboxFrame.del_password delete_app)
  = "[INFO]: Password deleted from keyring."
  /\ secrets (ToolboxFrame.del_password delete_app) !! ("svc", "u1") = None.
Proof.
  assert (H1 : State.service delete_app <> EmptyString) by discriminate.
  assert (H2 : State.username delete_app <> EmptyString) by discriminate.
  assert (H3 : is_Some (secrets delete_app
                          !! (State.service delete_app, State.username delete_app)))
    by (exists "p1"; reflexivity).
  pose proof (delete_success_notification delete_app H1 H2 H3) as H.
  cbv zeta in H. destruct H as [_ [_ [_ [H4 H5]]]].
  split; [exact H4 | exact H5].
Defined.

#[local] Arguments SharedState.add_username : simpl never.
#[local] Arguments SharedState.del_username : simpl never.
#[local] Arguments SharedState.get_tree : simpl never.
#[local] Arguments json.dumps : simpl never.

Lemma guard3 a b c :
  a <> EmptyString -> b <> EmptyString -> c <> EmptyString ->
  ((0 <? String.length a) && (0 <? String.length b) && (0 <? String.length c))
  = true.
Proof.
  intros Ha Hb Hc. apply nonempty_len in Ha, Hb, Hc. now rewrite Ha, Hb, Hc.
Qed.

(** What each operation leaves behind when its guard lets it through. *)

Lemma set_password_done (st : App) :
  State.service st <> EmptyString -> State.username st <> EmptyString ->
  State.password st <> EmptyString ->
  let s := State.service st in
  let u := State.username st in
  let p := State.password st in
  let t' := SharedState.add_username (tree st) s u in
  let data := json.dumps (SharedState.get_tree t') in
  ToolboxFrame.set_password st
  = mkApp (mkVariables s u p "[INFO]: Password saved to keyring.") (Some p) t'
          (<[(s, u) := p]> (secrets st))
          (utils.write_file data (utils.check_folder_path (files st)))
          ((calls st ++ [SetPassword s u p]) ++ [WriteFile data]).
Proof.
  intros Hs Hu Hp. cbv zeta.
  unfold ToolboxFrame.set_password. rewrite (guard3 _ _ _ Hs Hu Hp).
  reflexivity.
Qed.

Lemma get_password_found (st : App) (value : string) :
  State.service st <> EmptyString -> State.username st <> EmptyString ->
  secrets st !! (State.service st, State.username st) = Some value ->
  let s := State.service st in
  let u := State.username st in
  let t' := SharedState.add_username (tree st) s u in
  let data := json.dumps (SharedState.get_tree t') in
  ToolboxFrame.get_password st
  = mkApp (mkVariables s u value "[INFO]: Password retrieved from keyring.")
          (Some value) t' (secrets st)
          (utils.write_file data (utils.check_folder_path (files st)))
          ((calls st ++ [GetPassword s u]) ++ [WriteFile data]).
Proof.
  intros Hs Hu Hv. cbv zeta.
  unfold ToolboxFrame.get_password.
  change (State.service (State.password_del st)) with (State.service st).
  change (State.username (State.password_del st)) with (State.username st).
  rewrite (guard2 _ _ Hs Hu).
  unfold ToolboxFrame.call_get_password, keyring.get_password.
  change (secrets (State.password_del st)) with (secrets st).
  rewrite Hv. reflexivity.
Qed.

Lemma get_password_missing (st : App) :
  State.service st <> EmptyString -> State.username st <> EmptyString ->
  secrets st !! (State.service st, State.username st) = None ->
  let s := State.service st in
  let u := State.username st in
  let t' := SharedState.del_username (tree st) s u in
  let data := json.dumps (SharedState.get_tree t') in
  ToolboxFrame.get_password st
  = mkApp (mkVariables s u EmptyString "[WARNING]: Password not found!")
          (root_clipboard st) t' (secrets st)
          (utils.write_file data (utils.check_folder_path (files st)))
          ((calls st ++ [GetPassword s u]) ++ [WriteFile data]).
Proof.
  intros Hs Hu Hv. cbv zeta.
  unfold ToolboxFrame.get_password.
  change (State.service (State.password_del st)) with (State.service st).
  change (State.username (State.password_del st)) with (State.username st).
  rewrite (guard2 _ _ Hs Hu).
  unfold ToolboxFrame.call_get_password, keyring.get_password.
  change (secrets (State.password_del st)) with (secrets st).
  rewrite Hv. reflexivity.
Qed.

Lemma del_password_done (st : App) :
  State.service st <> EmptyString -> State.username st <> EmptyString ->
  let s := State.service st in
  let u := State.username st in
  let t' := SharedState.del_username (tree st) s u in
  let data := json.dumps (SharedState.get_tree t') in
  ToolboxFrame.del_password st
  = mkApp (mkVariables EmptyString EmptyString EmptyString
             (match secrets st !! (s, u) with
              | Some _ => "[INFO]: Password deleted from keyring."
              | None => "[WARNING]: Password not found in keyring!"
              end))
          (root_clipboard st) t'
          (match secrets st !! (s, u) with
           | Some _ => delete (s, u) (secrets st)
           | None => secrets st
           end)
          (utils.write_file data (utils.check_folder_path (files st)))
          ((calls st ++ [DeletePassword s u]) ++ [WriteFile data]).
Proof.
  intros Hs Hu. cbv zeta.
  unfold ToolboxFrame.del_password. rewrite (guard2 _ _ Hs Hu).
  unfold ToolboxFrame.call_delete_password, keyring.delete_password.
  destruct (secrets st !! (State.service st, State.username st)); reflexivity.
Qed.

(** What [forest_del] leaves listed: the accounts that were listed, but for
    those that are (s, u) up to case. *)
Lemma forest_del_listed F s u k x :
  forest_unique F = true ->
  listed (forest_del F s u) k x
  <-> listed F k x /\ same_label s k && same_label u x = false.
Proof.
  unfold forest_unique, listed. intros H. apply andb_true_iff in H as [H _].
  induction F as [|[n vs] r IH]; cbn [forest_del].
  - split; [intros [us [[] _]] | intros [[us [[] _]] _]].
  - cbn [map fst distinct_labels] in H.
    apply andb_true_iff in H as [Hn Hr]. apply negb_true_iff in Hn.
    pose proof (proj1 (existsb_false _ _) Hn) as Hd. specialize (IH Hr).
    destruct (same_label s n) eqn:Es.
    + assert (Hother : forall us, In (k, us) r -> same_label s k = false).
      { intros us Hin. rewrite <- (same_label_trans _ _ k Es).
        apply Hd. change k with (fst (k, us)). now apply in_map. }
      assert (Hkeep : forall y, In y (List.filter (fun a => negb (same_label a u)) vs)
                                <-> In y vs /\ same_label u y = false).
      { intros y. rewrite filter_In, negb_true_iff, (same_label_sym y u).
        reflexivity. }
      split.
      * intros [us [Hin Hx]].
        assert (Hcase : (k = n /\ In x vs /\ same_label u x = false)
                        \/ In (k, us) r).
        { pose proof (Hkeep x) as Hkx.
          destruct (List.filter (fun a => negb (same_label a u)) vs)
            as [|a l]; [now right|].
          destruct Hin as [Heq|Hr']; [left | now right].
          injection Heq as <- <-. apply Hkx in Hx as [Hx1 Hx2]. auto. }
        destruct Hcase as [[-> [Hx1 Hx2]]|Hr'].
        -- split; [exists vs; split; [now left | assumption]|].
           now rewrite Hx2, andb_false_r.
        -- split; [exists us; split; [now right | assumption]|].
           now rewrite (Hother us Hr').
      * intros [[us [[Heq|Hin] Hx]] Hm].
        -- injection Heq as <- <-. rewrite Es in Hm. cbn [andb] in Hm.
           assert (Hf : In x (List.filter (fun a => negb (same_label a u)) vs))
             by now apply Hkeep.
           destruct (List.filter (fun a => negb (same_label a u)) vs)
             as [|a l] eqn:Ef; [destruct Hf|].
           exists (a :: l). split; [now left | assumption].
        -- exists us. split; [|assumption].
           destruct (List.filter (fun a => negb (same_label a u)) vs);
             [assumption | now right].
    + split.
      * intros [us [[Heq|Hin] Hx]].
        -- injection Heq as <- <-.
           split; [exists vs; split; [now left | assumption]|].
           now rewrite Es.
        -- destruct (proj1 IH (ex_intro _ us (conj Hin Hx))) as [[us' [H1 H2]] H3].
           split; [exists us'; split; [now right | assumption] | assumption].
      * intros [[us [[Heq|Hin] Hx]] Hm].
        -- injection Heq as <- <-. exists vs. split; [now left | assumption].
        -- destruct (proj2 IH (conj (ex_intro _ us (conj Hin Hx)) Hm))
             as [us' [H1 H2]].
           exists us'. split; [now right | assumption].
Qed.

(** The same on the widget: the export after [del_username] lists the accounts
    that the export listed before, but for those that are (s, u) up to
    case. *)
Lemma del_username_listed t s u k x :
  tree_ok t = true ->
  listed (SharedState.get_tree (SharedState.del_username t s u)) k x
  <-> listed (SharedState.get_tree t) k x
      /\ same_label s k && same_label u x = false.
Proof.
  intros Hok. rewrite (get_tree_ok _ (tree_ok_del t s u Hok)), (get_tree_ok _ Hok).
  apply tree_ok_forest in Hok as [Hwf [Hu _]].
  destruct (del_username_forest t s u Hwf) as [_ H2]. rewrite H2.
  now apply forest_del_listed.
Qed.

Lemma has_account_add t s u :
  WF t -> has_account (SharedState.add_username t s u) s u = true.
Proof.
  intros Hwf. destruct (add_username_forest t s u Hwf) as [H1 H2].
  rewrite has_account_forest by assumption. rewrite H2. apply forest_has_add.
Qed.

Lemma has_account_del t s u :
  tree_ok t = true -> has_account (SharedState.del_username t s u) s u = false.
Proof.
  intros Hok. apply tree_ok_forest in Hok as [Hwf [Hu _]].
  destruct (del_username_forest t s u Hwf) as [H1 H2].
  rewrite has_account_forest by assumption. rewrite H2.
  now apply forest_has_del.
Qed.

(** The tree of every state of a run satisfies the invariants of the data
    model: the hypothesis [tree_ok] of the theorems below costs nothing. *)
Lemma reachable_tree_ok st : reachable st -> tree_ok (tree st) = true.
Proof.
  induction 1 as [v c k f l cache | st _ IH | st _ IH | st _ IH
                 | st v c _ IH | st k f _ IH].
  - cbn [tree]. apply tree_ok_set, tree_ok_new.
  - unfold ToolboxFrame.get_password.
    destruct ((0 <? String.length (State.service (State.password_del st)))
              && (0 <? String.length (State.username (State.password_del st))));
      [|exact IH].
    unfold ToolboxFrame.call_get_password.
    destruct (keyring.get_password _ _ _); cbn [tree];
      [now apply tree_ok_add | now apply tree_ok_del].
  - unfold ToolboxFrame.set_password.
    destruct ((0 <? String.length (State.service st))
              && (0 <? String.length (State.username st))
              && (0 <? String.length (State.password st))); [|exact IH].
    now apply tree_ok_add.
  - unfold ToolboxFrame.del_password.
    destruct ((0 <? String.length (State.service st))
              && (0 <? String.length (State.username st))); [|exact IH].
    unfold ToolboxFrame.call_delete_password.
    destruct (keyring.delete_password _ _ _); now apply tree_ok_del.
  - exact IH.
  - exact IH.
Qed.

Lemma tree_ok_wf t : tree_ok t = true -> tree_wf t = true.
Proof.
  unfold tree_ok. intros H. apply andb_true_iff in H as [H _].
  now apply andb_true_iff in H as [H _].
Qed.



(** C2.  With service and username non-empty, whether or not the secret
    store holds the secret, [delete] removes the entry from the tree: the
    lookup no longer finds it, and the export lists the accounts that it
    listed before, but for those that are (service, username) up to case.
    It writes the export of the new tree to the cache file, and leaves
    service, username and password empty. *)
Theorem delete_cleans_up (st : App) :
  State.service st <> EmptyString -> State.username st <> EmptyString ->
  tree_ok (tree st) = true ->
  let s := State.service st in
  let u := State.username st in
  let st' := ToolboxFrame.del_password st in
  let data := json.dumps (SharedState.get_tree (tree st')) in
  tree st' = SharedState.del_username (tree st) s u
  /\ has_account (tree st') s u = false
  /\ (forall k x,
        listed (SharedState.get_tree (tree st')) k x
        <-> listed (SharedState.get_tree (tree st)) k x
            /\ same_label s k && same_label u x = false)
  /\ cache_file (files st') = Some data
  /\ calls st' = calls st ++ [DeletePassword s u; WriteFile data]
  /\ State.service st' = EmptyString
  /\ State.username st' = EmptyString
  /\ State.password st' = EmptyString
  /\ State.message st'
     = match secrets st !! (s, u) with
       | Some _ => "[INFO]: Password deleted from keyring."
       | None => "[WARNING]: Password not found in keyring!"
       end.
Proof.
  intros Hs Hu Hok. cbv zeta.
  rewrite (del_password_done st Hs Hu). cbv zeta. cbn [tree].
  split; [reflexivity|]. split; [now apply has_account_del|].
  split; [intros k x; now apply del_username_listed|].
  cbn. rewrite <- app_assoc.
  repeat split.
Qed.

Lemma delete_cleans_up_witness :
  State.password (ToolboxFrame.del_password stale_app) = EmptyString
  /\ has_account (tree (ToolboxFrame.del_password stale_app)) "svc" "u1" = false
  /\ ~ listed (SharedState.get_tree (tree (ToolboxFrame.del_password stale_app)))
               "svc" "u1"
  /\ State.message (ToolboxFrame.del_password stale_app)
     = "[WARNING]: Password not found in keyring!"
  /\ State.message (ToolboxFrame.del_password delete_app)
     = "[INFO]: Password deleted from keyring."
  /\ ~ listed (SharedState.get_tree (tree (ToolboxFrame.del_password latin1_app)))
               E_acute "x"
  /\ cache_file (files (ToolboxFrame.del_password latin1_app)) = Some "{}".
Proof.
  assert (H1 : State.service stale_app <> EmptyString) by discriminate.
  assert (H2 : State.username stale_app <> EmptyString) by discriminate.
  pose proof (delete_cleans_up stale_app H1 H2 eq_refl) as H.
  cbv zeta in H. destruct H as [_ [H3 [HL [_ [_ [_ [_ [H4 H5]]]]]]]].
  assert (K1 : State.service delete_app <> EmptyString) by discriminate.
  assert (K2 : State.username delete_app <> EmptyString) by discriminate.
  pose proof (delete_cleans_up delete_app K1 K2 eq_refl) as K.
  cbv zeta in K. destruct K as [_ [_ [_ [_ [_ [_ [_ [_ K5]]]]]]]].
  assert (L1 : State.service latin1_app <> EmptyString) by discriminate.
  assert (L2 : State.username latin1_app <> EmptyString) by discriminate.
  pose proof (delete_cleans_up latin1_app L1 L2 eq_refl) as L.
  cbv zeta in L. destruct L as [_ [_ [LL [L3 _]]]].
  split; [exact H4|]. split; [exact H3|].
  split.
  { intros Hl. apply (proj1 (HL "svc" "u1")) in Hl as [_ Hm]. discriminate Hm. }
  split; [exact H5|]. split; [exact K5|].
  split; [|exact L3].
  intros Hl. apply (proj1 (LL E_acute "x")) in Hl as [_ Hm]. discriminate Hm.
Defined.

(** C4.  With service and username non-empty and no secret in the store,
    [fetch] removes the entry from the tree: the lookup no longer finds it,
    and the export lists the accounts that it listed before, but for those
    that are (service, username) up to case.  It leaves no service without
    children, writes the export of the new tree to the cache file, leaves the
    password empty and the warning in the notification.  When the tree holds
    the entry (svc, u1) alone and that is the entry asked for, the tree is
    left without nodes and the file holds the empty dictionary. *)
Theorem fetch_not_found (st : App) :
  State.service st <> EmptyString -> State.username st <> EmptyString ->
  secrets st !! (State.service st, State.username st) = None ->
  tree_ok (tree st) = true ->
  let s := State.service st in
  let u := State.username st in
  let st' := ToolboxFrame.get_password st in
  tree st' = SharedState.del_username (tree st) s u
  /\ has_account (tree st') s u = false
  /\ (forall k x,
        listed (SharedState.get_tree (tree st')) k x
        <-> listed (SharedState.get_tree (tree st)) k x
            /\ same_label s k && same_label u x = false)
  /\ no_childless_service (tree st') = true
  /\ cache_file (files st') = Some (json.dumps (SharedState.get_tree (tree st')))
  /\ State.password st' = EmptyString
  /\ State.message st' = State.message (State.show_warning "Password not found!" st)
  /\ State.message st' = "[WARNING]: Password not found!"
  /\ (s = "svc" -> u = "u1" ->
      SharedState.get_tree (tree st) = [("svc", ["u1"])] ->
      SharedState.get_tree (tree st') = []
      /\ Tk.get_children (tree st') ROOT = []
      /\ cache_file (files st') = Some "{}").
Proof.
  intros Hs Hu Hnone Hok. cbv zeta.
  rewrite (get_password_missing st Hs Hu Hnone). cbv zeta. cbn [tree].
  pose proof (tree_ok_del _ (State.service st) (State.username st) Hok) as Hok'.
  split; [reflexivity|]. split; [now apply has_account_del|].
  split; [intros k x; now apply del_username_listed|].
  cbn.
  split; [unfold tree_ok in Hok'; now apply andb_true_iff in Hok' as [_ Hok']|].
  do 4 (split; [reflexivity|]).
  intros Es Eu HT. rewrite Es, Eu.
  pose proof (get_tree_ok _ Hok) as HF. rewrite HT in HF.
  apply tree_ok_forest in Hok as [Hwf _].
  destruct (del_username_forest (tree st) "svc" "u1" Hwf) as [K1 K2].
  rewrite <- HF in K2.
  change (forest_del _ _ _) with (@nil (string * list string)) in K2.
  assert (HG : SharedState.get_tree (SharedState.del_username (tree st) "svc" "u1")
               = []).
  { rewrite get_tree_forest by assumption. now rewrite K2. }
  rewrite HG. split; [reflexivity|]. split; [|reflexivity].
  rewrite get_children_kids. unfold forest in K2.
  apply map_eq_nil in K2. now rewrite K2.
Qed.

Lemma fetch_not_found_witness :
  SharedState.get_tree (tree stale_app) = [("svc", ["u1"])]
  /\ SharedState.get_tree (tree (ToolboxFrame.get_password stale_app)) = []
  /\ cache_file (files (ToolboxFrame.get_password stale_app)) = Some "{}"
  /\ State.message (ToolboxFrame.get_password stale_app)
     = "[WARNING]: Password not found!"
  /\ ~ listed (SharedState.get_tree (tree (ToolboxFrame.get_password latin1_app)))
               E_acute "x"
  /\ cache_file (files (ToolboxFrame.get_password latin1_app)) = Some "{}".
Proof.
  assert (H1 : State.service stale_app <> EmptyString) by discriminate.
  assert (H2 : State.username stale_app <> EmptyString) by discriminate.
  pose proof (fetch_not_found stale_app H1 H2 eq_refl eq_refl) as H.
  cbv zeta in H. destruct H as [_ [_ [_ [_ [_ [_ [_ [H3 H4]]]]]]]].
  destruct (H4 eq_refl eq_refl eq_refl) as [H5 [_ H6]].
  assert (L1 : State.service latin1_app <> EmptyString) by discriminate.
  assert (L2 : State.username latin1_app <> EmptyString) by discriminate.
  pose proof (fetch_not_found latin1_app L1 L2 eq_refl eq_refl) as L.
  cbv zeta in L. destruct L as [_ [_ [LL [_ [L3 _]]]]].
  split; [reflexivity|]. split; [exact H5|]. split; [exact H6|].
  split; [exact H3|]. split; [|exact L3].
  intros Hl. apply (proj1 (LL E_acute "x")) in Hl as [_ Hm]. discriminate Hm.
Defined.

(** ** One shared state *)

Import Holders.

Lemma initialized_lookup self p :
  initialized self p = true <-> objects p !! self = Some SharedDict.
Proof.
  unfold initialized. destruct (objects p !! self) as [[d|]|]; split;
    congruence.
Qed.

Lemma getattr_initialized self name p :
  initialized self p = true -> getattr self name p = __shared__ p !! name.
Proof.
  intros H. apply initialized_lookup in H. unfold getattr, __dict__.
  now rewrite H.
Qed.

Lemma construct_spec p :
  construct p
  = (length (objects p),
     mkProcess (__shared__ p) (objects p ++ [SharedDict]) (tcl_vars p)).
Proof.
  unfold construct, new_object, __init__. cbn [objects __shared__ tcl_vars].
  rewrite list_lookup_middle by reflexivity. f_equal. f_equal.
  - apply (left_id_L ∅ (∪)).
  - rewrite insert_app_r_alt by reflexivity. now rewrite Nat.sub_diag.
Qed.

(** What [__init__] does to an object that already has attributes: they are
    written over the shared ones. *)
Lemma init_merges self d p :
  objects p !! self = Some (OwnDict d) ->
  __shared__ (__init__ self p) = d ∪ __shared__ p
  /\ initialized self (__init__ self p) = true.
Proof.
  intros H. unfold __init__, initialized. rewrite H. cbn [__shared__ objects].
  split; [reflexivity|].
  rewrite list_lookup_insert_eq; [reflexivity|]. now apply lookup_lt_Some in H.
Qed.

(** Two holders constructed one after the other are both initialized, and
    stay so whatever is written afterwards. *)
Lemma constructed_initialized p :
  let '(a, p1) := construct p in
  let '(b, p2) := construct p1 in
  a <> b /\ initialized a p2 = true /\ initialized b p2 = true.
Proof.
  rewrite !construct_spec. cbn [objects].
  split; [rewrite length_app; cbn; lia|].
  split; apply initialized_lookup; cbn [objects].
  - rewrite lookup_app_l by (rewrite length_app; cbn; lia).
    now apply list_lookup_middle.
  - now apply list_lookup_middle.
Qed.

Lemma initialized_setattr self other name v p :
  initialized self p = true -> initialized self (setattr other name v p) = true.
Proof.
  intros H. apply initialized_lookup in H. apply initialized_lookup.
  unfold setattr. destruct (objects p !! other) as [[d|]|] eqn:E;
    cbn [objects]; try assumption.
  rewrite list_lookup_insert_ne; [assumption|]. intros ->. congruence.
Qed.

Lemma initialized_property_set f self other value p :
  initialized self p = true ->
  initialized self (property_set f other value p) = true.
Proof.
  unfold property_set. now destruct (getattr other "variables" p ≫= stringvar f).
Qed.

(** C9.  Any two initialized holders have the same attribute dictionary, the
    one of the class: an attribute (the tree handle, the cache, ...) written
    through one is read through the other, and so are the four string
    fields, which both reach through [variables].  A holder constructed later
    leaves the shared attributes as they are and reads, for every name, what
    the earlier holders read. *)
Theorem shared_state_singleton (p : Process) (h1 h2 : nat)
  (name : string) (v : pyobj) (f : field) (value : string) :
  initialized h1 p = true -> initialized h2 p = true ->
  __dict__ h1 p = Some (__shared__ p)
  /\ __dict__ h2 p = __dict__ h1 p
  /\ getattr h2 name (setattr h1 name v p) = Some v
  /\ getattr h1 name (setattr h2 name v p) = Some v
  /\ (is_Some (getattr h1 "variables" p ≫= stringvar f) ->
      property_get f h2 (property_set f h1 value p) = Some value
      /\ property_get f h1 (property_set f h2 value p) = Some value
      /\ property_get f h2 (property_del f h1 p) = Some EmptyString)
  /\ let '(h3, p') := construct p in
     initialized h3 p' = true
     /\ initialized h1 p' = true
     /\ initialized h2 p' = true
     /\ __shared__ p' = __shared__ p
     /\ (forall n, getattr h3 n p' = getattr h1 n p)
     /\ (forall n, getattr h1 n p' = getattr h1 n p).
Proof.
  intros I1 I2.
  pose proof (proj1 (initialized_lookup _ _) I1) as L1.
  pose proof (proj1 (initialized_lookup _ _) I2) as L2.
  assert (S1 : forall q a n w, objects q !! a = Some SharedDict ->
                 setattr a n w q
                 = mkProcess (<[n := w]> (__shared__ q)) (objects q) (tcl_vars q)).
  { intros q a n w L. unfold setattr. now rewrite L. }
  assert (P : forall a b, objects p !! a = Some SharedDict ->
                objects p !! b = Some SharedDict ->
                forall x w, getattr a "variables" p ≫= stringvar f = Some x ->
                property_get f b (property_set f a w p) = Some w).
  { intros a b La Lb x w Hx. unfold property_set. rewrite Hx.
    unfold property_get, getattr, __dict__ in *. cbn [objects __shared__ tcl_vars].
    rewrite La in Hx. rewrite Lb. cbn in *.
    destruct (__shared__ p !! "variables") as [o|]; [|discriminate]. cbn in *.
    rewrite Hx. cbn. now rewrite lookup_insert_eq. }
  split; [unfold __dict__; now rewrite L1|].
  split; [unfold __dict__; now rewrite L1, L2|].
  split.
  { rewrite (S1 p h1 name v L1). unfold getattr, __dict__.
    cbn [objects __shared__]. rewrite L2. cbn. apply lookup_insert_eq. }
  split.
  { rewrite (S1 p h2 name v L2). unfold getattr, __dict__.
    cbn [objects __shared__]. rewrite L1. cbn. apply lookup_insert_eq. }
  split.
  { intros [x Hx].
    assert (Hx2 : getattr h2 "variables" p ≫= stringvar f = Some x).
    { rewrite (getattr_initialized h2 _ p I2).
      now rewrite (getattr_initialized h1 _ p I1) in Hx. }
    split; [now apply (P h1 h2 L1 L2 x)|].
    split; [now apply (P h2 h1 L2 L1 x)|].
    now apply (P h1 h2 L1 L2 x). }
  rewrite construct_spec.
  assert (A : forall a, objects p !! a = Some SharedDict ->
                (objects p ++ [SharedDict]) !! a = Some SharedDict).
  { intros a La. rewrite lookup_app_l; [assumption|]. now apply lookup_lt_Some in La. }
  split; [apply initialized_lookup; cbn [objects]; now apply list_lookup_middle|].
  split; [apply initialized_lookup; cbn [objects]; now apply A|].
  split; [apply initialized_lookup; cbn [objects]; now apply A|].
  split; [reflexivity|].
  split; intros n; unfold getattr, __dict__; cbn [objects __shared__].
  - rewrite list_lookup_middle by reflexivity. now rewrite L1.
  - now rewrite (A h1 L1), L1.
Qed.

Lemma shared_state_singleton_witness :
  initialized 0 running = true /\ initialized 1 running = true
  /\ getattr 0 "tree" running = Some (PWidget 7)
  /\ getattr 1 "cache" (setattr 0 "cache" (PCache []) running) = Some (PCache [])
  /\ property_get Password 0 (property_set Password 1 "p1" running) = Some "p1".
Proof.
  pose proof (shared_state_singleton running 0 1 "cache" (PCache []) Password "p1"
                eq_refl eq_refl) as [_ [_ [H1 [_ [H2 _]]]]].
  assert (V : is_Some (getattr 0 "variables" running ≫= stringvar Password))
    by (exists 2; reflexivity).
  destruct (H2 V) as [_ [H3 _]].
  split; [reflexivity|]. split; [reflexivity|]. split; [reflexivity|].
  split; [exact H1 | exact H3].
Defined.

(** * More of the program *)

(** ** The cache file: [json.dumps] and [json.loads] *)

Lemma append_cons x (a b : string) : String x a +:+ b = String x (a +:+ b).
Proof. reflexivity. Qed.

Lemma append_assoc (a b c : string) : (a +:+ b) +:+ c = a +:+ b +:+ c.
Proof.
  induction a as [|x a IH]; [reflexivity|]. rewrite !append_cons. now rewrite IH.
Qed.

Lemma append_nil_r (a : string) : a +:+ EmptyString = a.
Proof.
  induction a as [|x a IH]; [reflexivity|]. rewrite append_cons. now rewrite IH.
Qed.

Lemma length_append (a b : string) :
  String.length (a +:+ b) = String.length a + String.length b.
Proof.
  induction a as [|x a IH]; [reflexivity|].
  rewrite append_cons. cbn [String.length]. now rewrite IH.
Qed.

Lemma scanstring_escape_char c tail :
  decoder.scanstring (json.escape_char c +:+ tail)
  = decoder.prepend c (decoder.scanstring tail).
Proof.
  destruct c as [[] [] [] [] [] [] [] []]; reflexivity.
Qed.

Lemma scanstring_escape s rest :
  decoder.scanstring (json.escape s +:+ json.quote +:+ rest) = Some (s, rest).
Proof.
  induction s as [|c r IH]; [reflexivity|].
  cbn [json.escape]. rewrite append_assoc, scanstring_escape_char, IH.
  reflexivity.
Qed.

Lemma scan_quoted_dumps_str s rest :
  decoder.scan_quoted (json.dumps_str s +:+ rest) = Some (s, rest).
Proof.
  unfold json.dumps_str. rewrite !append_assoc.
  change (json.quote +:+ json.escape s +:+ json.quote +:+ rest)
    with (String (ascii_of_nat 34) (json.escape s +:+ json.quote +:+ rest)).
  cbn [decoder.scan_quoted]. apply scanstring_escape.
Qed.

Lemma append_nil_l (a : string) : EmptyString +:+ a = a.
Proof. reflexivity. Qed.

Lemma skip_whitespace_dumps_str s tail :
  decoder.skip_whitespace (json.dumps_str s +:+ tail) = json.dumps_str s +:+ tail.
Proof.
  unfold json.dumps_str, json.quote. rewrite !append_cons, !append_nil_l.
  reflexivity.
Qed.

Lemma join_head {A} (f : A -> string) x l :
  exists tail, json.join ", " (map f (x :: l)) = f x +:+ tail.
Proof.
  destruct l as [|y r]; cbn [map json.join].
  - exists EmptyString. now rewrite append_nil_r.
  - eauto.
Qed.

Lemma join_cons2 sep (a b : string) l :
  json.join sep (a :: b :: l) = a +:+ sep +:+ json.join sep (b :: l).
Proof. reflexivity. Qed.

Lemma skip_whitespace_join {A} (f : A -> string) x l tail :
  (forall s t, decoder.skip_whitespace (f s +:+ t) = f s +:+ t) ->
  decoder.skip_whitespace (json.join ", " (map f (x :: l)) +:+ tail)
  = json.join ", " (map f (x :: l)) +:+ tail.
Proof.
  intros Hf. destruct (join_head f x l) as [t ->].
  rewrite append_assoc. apply Hf.
Qed.

Lemma array_items_step fuel x tail :
  decoder.array_items (S fuel) (json.dumps_str x +:+ ", " +:+ tail)
  = match decoder.array_items fuel (decoder.skip_whitespace tail) with
    | Some (xs, r2) => Some (x :: xs, r2)
    | None => None
    end.
Proof.
  cbn [decoder.array_items]. rewrite scan_quoted_dumps_str. reflexivity.
Qed.

Lemma array_items_last fuel x rest :
  decoder.array_items (S fuel) (json.dumps_str x +:+ "]" +:+ rest)
  = Some ([x], rest).
Proof.
  cbn [decoder.array_items]. rewrite scan_quoted_dumps_str. reflexivity.
Qed.

Lemma array_items_dumps l : forall x fuel rest,
  length (x :: l) <= fuel ->
  decoder.array_items fuel
    (json.join ", " (map json.dumps_str (x :: l)) +:+ "]" +:+ rest)
  = Some (x :: l, rest).
Proof.
  induction l as [|y r IH]; intros x fuel rest Hf;
    (destruct fuel as [|fuel]; [cbn [length] in Hf; lia|]).
  - apply array_items_last.
  - cbn [map]. rewrite join_cons2, !append_assoc, array_items_step.
    change (json.dumps_str y :: map json.dumps_str r)
      with (map json.dumps_str (y :: r)).
    rewrite skip_whitespace_join by apply skip_whitespace_dumps_str.
    rewrite IH by (cbn [length] in *; lia). reflexivity.
Qed.

Lemma JSONArray_dumps l fuel rest :
  length l <= fuel ->
  decoder.JSONArray fuel (json.dumps_list l +:+ rest) = Some (l, rest).
Proof.
  intros Hf. unfold json.dumps_list. rewrite !append_assoc.
  rewrite !append_cons, append_nil_l. cbn [decoder.JSONArray].
  change (nat_of_ascii "[" =? 91) with true. cbv iota.
  destruct l as [|x l]; [reflexivity|].
  rewrite skip_whitespace_join by apply skip_whitespace_dumps_str.
  destruct (join_head json.dumps_str x l) as [t Ht].
  pose proof (array_items_dumps l x fuel rest Hf) as H.
  rewrite Ht in *. unfold json.dumps_str, json.quote in *.
  rewrite !append_assoc, !append_cons, !append_nil_l in *.
  cbn [decoder.JSONArray]. exact H.
Qed.

Lemma skip_whitespace_other c t :
  decoder.is_whitespace c = false ->
  decoder.skip_whitespace (String c t) = String c t.
Proof. intros H. cbn [decoder.skip_whitespace]. now rewrite H. Qed.

Lemma skip_whitespace_space t :
  decoder.skip_whitespace (String " " t) = decoder.skip_whitespace t.
Proof. reflexivity. Qed.

Lemma skip_whitespace_dumps_list l tail :
  decoder.skip_whitespace (json.dumps_list l +:+ tail) = json.dumps_list l +:+ tail.
Proof.
  unfold json.dumps_list. rewrite !append_cons, !append_nil_l. reflexivity.
Qed.

Lemma skip_whitespace_pair (p : string * list string) tail :
  decoder.skip_whitespace
    ((let '(k, v) := p in json.dumps_str k +:+ ": " +:+ json.dumps_list v) +:+ tail)
  = (let '(k, v) := p in json.dumps_str k +:+ ": " +:+ json.dumps_list v) +:+ tail.
Proof.
  destruct p as [k v]. rewrite append_assoc. apply skip_whitespace_dumps_str.
Qed.

Lemma object_pairs_step fuel k v tail :
  length v <= fuel ->
  decoder.object_pairs (S fuel)
    (json.dumps_str k +:+ ": " +:+ json.dumps_list v +:+ ", " +:+ tail)
  = match decoder.object_pairs fuel (decoder.skip_whitespace tail) with
    | Some (ps, r4) => Some ((k, v) :: ps, r4)
    | None => None
    end.
Proof.
  intros Hf. cbn [decoder.object_pairs]. rewrite scan_quoted_dumps_str.
  rewrite !append_cons, !append_nil_l.
  rewrite (skip_whitespace_other ":") by reflexivity.
  change (nat_of_ascii ":" =? 58) with true. cbv iota.
  rewrite skip_whitespace_space, skip_whitespace_dumps_list.
  rewrite JSONArray_dumps by assumption.
  rewrite (skip_whitespace_other ",") by reflexivity.
  reflexivity.
Qed.

Lemma object_pairs_last fuel k v rest :
  length v <= fuel ->
  decoder.object_pairs (S fuel)
    (json.dumps_str k +:+ ": " +:+ json.dumps_list v +:+ "}" +:+ rest)
  = Some ([(k, v)], rest).
Proof.
  intros Hf. cbn [decoder.object_pairs]. rewrite scan_quoted_dumps_str.
  rewrite !append_cons, !append_nil_l.
  rewrite (skip_whitespace_other ":") by reflexivity.
  change (nat_of_ascii ":" =? 58) with true. cbv iota.
  rewrite skip_whitespace_space, skip_whitespace_dumps_list.
  rewrite JSONArray_dumps by assumption.
  rewrite (skip_whitespace_other "}") by reflexivity.
  reflexivity.
Qed.

Lemma join_cons_map {A} sep (a : string) (f : A -> string) q r :
  json.join sep (a :: map f (q :: r)) = a +:+ sep +:+ json.join sep (map f (q :: r)).
Proof. reflexivity. Qed.

Lemma object_pairs_dumps d : forall p fuel rest,
  length (p :: d) + length (concat (map snd (p :: d))) <= fuel ->
  decoder.object_pairs fuel
    (json.join ", "
       (map (fun '(k, v) => json.dumps_str k +:+ ": " +:+ json.dumps_list v)
            (p :: d))
     +:+ "}" +:+ rest)
  = Some (p :: d, rest).
Proof.
  induction d as [|q r IH]; intros [k v] fuel rest Hf;
    cbn [length map snd concat] in Hf; rewrite ?length_app in Hf;
    (destruct fuel as [|fuel]; [lia|]).
  - cbn [map json.join]. rewrite !append_assoc.
    apply object_pairs_last. lia.
  - rewrite (map_cons _ (k, v) (q :: r)), join_cons_map, !append_assoc.
    rewrite object_pairs_step by lia.
    rewrite (skip_whitespace_join _ q r) by apply skip_whitespace_pair.
    rewrite IH; [reflexivity|]. cbn [length map snd concat] in *.
    rewrite ?length_app in *. lia.
Qed.

Lemma join_length {A} (f : A -> string) (w : A -> nat) l :
  (forall a, w a <= String.length (f a)) ->
  list_sum (map w l) <= String.length (json.join ", " (map f l)).
Proof.
  intros Hw. induction l as [|x [|y r] IH]; [cbn; lia | |].
  - simpl. specialize (Hw x). lia.
  - rewrite (map_cons f x (y :: r)), join_cons_map, !length_append.
    change (list_sum (map w (x :: y :: r)))
      with (w x + list_sum (map w (y :: r))).
    specialize (Hw x). cbn [String.length]. lia.
Qed.

Lemma dumps_str_length s : 2 <= String.length (json.dumps_str s).
Proof.
  unfold json.dumps_str. rewrite !length_append. cbn [json.quote String.length]. lia.
Qed.

Lemma dumps_list_length l : length l <= String.length (json.dumps_list l).
Proof.
  unfold json.dumps_list. rewrite !length_append.
  pose proof (join_length json.dumps_str (fun _ => 1) l) as H.
  assert (E : list_sum (map (fun _ : string => 1) l) = length l).
  { clear H. induction l as [|x r IH]; [reflexivity|].
    change (list_sum (map (fun _ : string => 1) (x :: r)))
      with (1 + list_sum (map (fun _ : string => 1) r)).
    cbn [length]. now rewrite IH. }
  rewrite E in H. assert (length l <= String.length (json.join ", " (map json.dumps_str l))).
  { apply H. intros a. pose proof (dumps_str_length a). lia. }
  lia.
Qed.

Lemma dumps_length (d : Dict (list string)) :
  length d + length (concat (map snd d)) <= String.length (json.dumps d).
Proof.
  unfold json.dumps. rewrite !length_append.
  pose proof (join_length
                (fun '(k, v) => json.dumps_str k +:+ ": " +:+ json.dumps_list v)
                (fun p => S (length (snd p))) d) as H.
  assert (E : list_sum (map (fun p : string * list string => S (length (snd p))) d)
              = length d + length (concat (map snd d))).
  { clear H. induction d as [|[k v] r IH]; [reflexivity|].
    change (list_sum (map (fun p : string * list string => S (length (snd p)))
                          ((k, v) :: r)))
      with (S (length v)
            + list_sum (map (fun p : string * list string => S (length (snd p))) r)).
    cbn [map length snd concat]. rewrite length_app, IH. lia. }
  rewrite E in H.
  assert (length d + length (concat (map snd d))
          <= String.length
               (json.join ", "
                  (map (fun '(k, v) => json.dumps_str k +:+ ": " +:+ json.dumps_list v) d))).
  { apply H. intros [k v]. rewrite !length_append. cbn [snd].
    pose proof (dumps_str_length k). pose proof (dumps_list_length v). lia. }
  lia.
Qed.

Lemma JSONObject_dumps (d : Dict (list string)) fuel rest :
  length d + length (concat (map snd d)) <= fuel ->
  decoder.JSONObject fuel (json.dumps d +:+ rest) = Some (dict_of d, rest).
Proof.
  intros Hf. unfold json.dumps. rewrite !append_assoc.
  rewrite !append_cons, append_nil_l. cbn [decoder.JSONObject].
  change (nat_of_ascii "{" =? 123) with true. cbv iota.
  destruct d as [|p d]; [reflexivity|].
  rewrite (skip_whitespace_join _ p d) by apply skip_whitespace_pair.
  pose proof (object_pairs_dumps d p fuel rest Hf) as H.
  destruct (join_head
              (fun '(k, v) => json.dumps_str k +:+ ": " +:+ json.dumps_list v) p d)
    as [t Ht].
  rewrite Ht in *. destruct p as [k v].
  unfold json.dumps_str, json.quote in *.
  rewrite !append_assoc, !append_cons, !append_nil_l in *.
  change (nat_of_ascii (ascii_of_nat 34) =? 125) with false. cbv iota.
  now rewrite H.
Qed.

Lemma loads_dumps (d : Dict (list string)) :
  decoder.loads (json.dumps d) = Some (dict_of d).
Proof.
  unfold decoder.loads.
  assert (E : decoder.skip_whitespace (json.dumps d) = json.dumps d).
  { unfold json.dumps. rewrite !append_cons, append_nil_l. reflexivity. }
  rewrite E. rewrite <- (append_nil_r (json.dumps d)) at 2.
  rewrite JSONObject_dumps by apply dumps_length. reflexivity.
Qed.

(** ** The dictionary that [get_tree] builds *)

Lemma dict_update_keys {V} (d : Dict V) k v x :
  In x (map fst (dict_update d k v)) <-> In x (map fst d) \/ x = k.
Proof.
  induction d as [|[k' v'] r IH]; cbn [dict_update map fst In].
  - split; [intros [<-|[]]; now right | intros [[]| ->]; now left].
  - destruct (String.eqb_spec k' k) as [->|Hne]; cbn [map fst In].
    + split; [tauto | intros [H | ->]; [exact H | now left]].
    + rewrite IH. tauto.
Qed.

Lemma dict_update_NoDup {V} (d : Dict V) k v :
  List.NoDup (map fst d) -> List.NoDup (map fst (dict_update d k v)).
Proof.
  induction d as [|[k' v'] r IH]; cbn [dict_update map fst]; intros Hnd.
  - constructor; [intros [] | constructor].
  - inversion Hnd as [|? ? Hk Hr]; subst.
    destruct (String.eqb_spec k' k) as [->|Hne]; cbn [map fst].
    + now constructor.
    + constructor; [|now apply IH].
      rewrite dict_update_keys. intros [H | H]; [contradiction | congruence].
Qed.

Lemma dict_of_NoDup_gen (F : list (string * list string)) : forall d0,
  List.NoDup (map fst d0) ->
  List.NoDup (map fst (fold_left (fun d '(k, v) => dict_update d k v) F d0)).
Proof.
  induction F as [|[k v] r IH]; intros d0 H; cbn [fold_left]; [assumption|].
  apply IH. now apply dict_update_NoDup.
Qed.

Lemma dict_of_id_gen (F : list (string * list string)) : forall d0,
  List.NoDup (map fst (d0 ++ F)) ->
  fold_left (fun d '(k, v) => dict_update d k v) F d0 = d0 ++ F.
Proof.
  induction F as [|[k v] r IH]; intros d0 H; cbn [fold_left].
  - now rewrite app_nil_r.
  - rewrite dict_update_fresh.
    + replace (d0 ++ (k, v) :: r) with ((d0 ++ [(k, v)]) ++ r)
        by now rewrite <- app_assoc.
      apply IH. now rewrite <- app_assoc.
    + intros k' Hk'. apply String.eqb_neq. intros ->.
      rewrite map_app in H. cbn [map fst] in H.
      apply List.NoDup_remove_2 in H. apply H. apply in_or_app. now left.
Qed.

(** A dictionary is left as it is by a pass through [dict_update]. *)
Lemma dict_of_id (d : Dict (list string)) :
  List.NoDup (map fst d) -> dict_of d = d.
Proof. intros H. apply (dict_of_id_gen d []). exact H. Qed.

Lemma get_tree_NoDup t : List.NoDup (map fst (SharedState.get_tree t)).
Proof.
  unfold SharedState.get_tree.
  generalize (Tk.get_children t ROOT) as l.
  assert (H : List.NoDup (map fst (@nil (string * list string)))) by constructor.
  revert H. generalize (@nil (string * list string)) as d0.
  intros d0 H l. revert d0 H.
  induction l as [|i r IH]; intros d0 H; cbn [fold_left]; [assumption|].
  apply IH. now apply dict_update_NoDup.
Qed.

(** ** Lookups after [add_username] and [del_username] *)

Lemma same_label_left a b c :
  same_label a b = true -> same_label a c = same_label b c.
Proof.
  intros H. apply same_label_true in H. unfold same_label. now rewrite H.
Qed.

Lemma existsb_same_label_trans u u' (us : list string) :
  existsb (same_label u) us = true -> same_label u u' = true ->
  existsb (same_label u') us = true.
Proof.
  intros H E. apply existsb_exists in H as [x [Hx Hs]].
  apply existsb_exists. exists x. split; [assumption|].
  rewrite same_label_sym in E. now rewrite (same_label_left _ _ _ E).
Qed.

Lemma forest_has_add_other F s u s' u' :
  forest_has (forest_add F s u) s' u'
  = forest_has F s' u' || (same_label s s' && same_label u u').
Proof.
  unfold forest_has.
  induction F as [|[n us] r IH]; cbn [forest_add List.find fst snd].
  - rewrite (same_label_sym s' s). destruct (same_label s s'); [|reflexivity].
    cbn [existsb snd]. rewrite (same_label_sym u' u). now rewrite orb_false_r.
  - destruct (same_label s n) eqn:Es; cbn [List.find fst snd].
    + rewrite (same_label_left _ _ _ Es), (same_label_sym n s').
      destruct (same_label s' n) eqn:Es'; [|now rewrite orb_false_r].
      cbn [snd andb]. rewrite (same_label_sym u u').
      destruct (existsb (same_label u) us) eqn:Eu.
      * destruct (same_label u' u) eqn:Euu; [|now rewrite orb_false_r].
        rewrite orb_true_r. apply (existsb_same_label_trans u u' us Eu).
        now rewrite same_label_sym.
      * rewrite existsb_app. cbn [existsb]. now rewrite orb_false_r.
    + destruct (same_label s' n) eqn:Es'; [|exact IH].
      cbn [snd].
      assert (same_label s s' = false) as ->.
      { rewrite same_label_sym.
        rewrite (same_label_left _ _ _ Es'). now rewrite same_label_sym. }
      now rewrite orb_false_r.
Qed.

Lemma find_label_none_unique (r : Dict (list string)) n s' :
  negb (existsb (same_label n) (map fst r)) = true ->
  same_label s' n = true ->
  List.find (fun e => same_label s' (fst e)) r = None.
Proof.
  intros Hn Es. apply find_label_none. intros x Hx.
  apply negb_true_iff in Hn.
  rewrite same_label_sym, (same_label_left _ _ _ Es).
  now apply (proj1 (existsb_false _ _) Hn).
Qed.

Lemma existsb_filter_other u u' (us : list string) :
  existsb (same_label u') (List.filter (fun a => negb (same_label a u)) us)
  = existsb (same_label u') us && negb (same_label u u').
Proof.
  induction us as [|x r IH]; [reflexivity|]. cbn [List.filter existsb].
  destruct (same_label x u) eqn:Ex; cbn [negb existsb]; rewrite IH.
  - destruct (same_label u' x) eqn:Eu; [|reflexivity].
    rewrite (same_label_sym u u'), (same_label_left _ _ _ Eu), Ex.
    cbn [negb]. now rewrite !andb_false_r.
  - destruct (same_label u' x) eqn:Eu; [|reflexivity].
    assert (same_label u u' = false) as ->.
    { rewrite same_label_sym, (same_label_left _ _ _ Eu). exact Ex. }
    reflexivity.
Qed.

Lemma forest_has_del_other F s u s' u' :
  forest_unique F = true ->
  forest_has (forest_del F s u) s' u'
  = forest_has F s' u' && negb (same_label s s' && same_label u u').
Proof.
  unfold forest_unique, forest_has. intros H. apply andb_true_iff in H as [H1 _].
  induction F as [|[n us] r IH]; cbn [forest_del List.find fst snd];
    [reflexivity|].
  cbn [map fst distinct_labels] in H1. apply andb_true_iff in H1 as [Hn Hr].
  destruct (same_label s n) eqn:Es.
  - rewrite (same_label_left _ _ _ Es), (same_label_sym n s').
    pose proof (existsb_filter_other u u' us) as K.
    destruct (List.filter (fun a => negb (same_label a u)) us) as [|a l] eqn:Ef.
    + destruct (same_label s' n) eqn:Es'.
      * rewrite (find_label_none_unique r n s' Hn Es'). cbn [snd andb].
        cbn [existsb] in K. exact K.
      * now rewrite andb_true_r.
    + cbn [List.find fst]. destruct (same_label s' n); [|now rewrite andb_true_r].
      cbn [snd andb]. exact K.
  - cbn [List.find fst]. destruct (same_label s' n) eqn:Es'; [|now apply IH].
    cbn [snd].
    assert (same_label s s' = false) as ->.
    { rewrite same_label_sym.
      rewrite (same_label_left _ _ _ Es'). now rewrite same_label_sym. }
    now rewrite andb_true_r.
Qed.

Lemma forest_del_add F s u :
  forest_unique F = true -> forest_no_childless F = true ->
  forest_has F s u = false ->
  forest_del (forest_add F s u) s u = F.
Proof.
  unfold forest_unique, forest_no_childless, forest_has.
  intros H Hc Hh. apply andb_true_iff in H as [H1 _].
  induction F as [|[n us] r IH]; cbn [forest_add forest_del].
  - rewrite same_label_refl. cbn [List.filter]. now rewrite same_label_refl.
  - cbn [List.find fst snd] in Hh.
    cbn [forallb snd] in Hc. apply andb_true_iff in Hc as [Hus Hc].
    cbn [map fst distinct_labels] in H1. apply andb_true_iff in H1 as [Hn Hr].
    destruct (same_label s n) eqn:Es; cbn [forest_del]; rewrite Es.
    + cbn [snd] in Hh. rewrite Hh.
      rewrite List.filter_app. cbn [List.filter]. rewrite same_label_refl.
      cbn [negb]. rewrite app_nil_r.
      rewrite filter_all.
      * destruct us; [discriminate | reflexivity].
      * intros x Hx. apply negb_true_iff. rewrite same_label_sym.
        now apply (proj1 (existsb_false _ _) Hh).
    + f_equal. now apply IH.
Qed.

Lemma add_username_present t s u :
  has_account t s u = true -> SharedState.add_username t s u = t.
Proof.
  unfold has_account, SharedState.add_username.
  destruct (SharedState.get_service_id t s) as [service_id|]; [|discriminate].
  now destruct (SharedState.get_username_id t service_id u).
Qed.

(** X1.  [add_username] is idempotent: an entry that is found leaves the widget
    untouched, identifiers included, and so a second call does nothing. *)
Theorem add_username_idempotent (t : Treeview) (s u : string) :
  tree_wf t = true ->
  (has_account t s u = true -> SharedState.add_username t s u = t)
  /\ SharedState.add_username (SharedState.add_username t s u) s u
     = SharedState.add_username t s u.
Proof.
  intros Hwf. apply tree_wf_WF in Hwf.
  split; [apply add_username_present|].
  apply add_username_present. now apply has_account_add.
Qed.

Lemma add_username_idempotent_witness :
  SharedState.add_username sample_tree "MAIL" "Bob" = sample_tree
  /\ SharedState.add_username latin1_tree e_acute "X" = latin1_tree
  /\ SharedState.add_username (SharedState.add_username sample_tree "new" "n1")
       "new" "n1"
     = SharedState.add_username sample_tree "new" "n1".
Proof.
  split; [|split].
  - apply (proj1 (add_username_idempotent sample_tree "MAIL" "Bob" eq_refl)).
    reflexivity.
  - apply (proj1 (add_username_idempotent latin1_tree e_acute "X" eq_refl)).
    reflexivity.
  - apply (proj2 (add_username_idempotent sample_tree "new" "n1" eq_refl)).
Defined.

(** X2.  [del_username] of an entry that the lookup does not find leaves the
    widget untouched. *)
Theorem del_username_absent (t : Treeview) (s u : string) :
  tree_ok t = true -> has_account t s u = false ->
  SharedState.del_username t s u = t.
Proof.
  intros Hok Hh. apply tree_ok_forest in Hok as [Hwf [_ Hc]].
  rewrite <- no_childless_forest in Hc by assumption.
  unfold has_account in Hh. unfold SharedState.del_username.
  destruct (SharedState.get_service_id t s) as [service_id|] eqn:Eg;
    [|reflexivity].
  pose proof Eg as Eg'. rewrite get_service_id_kids in Eg' by assumption.
  destruct (List.find (fun it => same_label s (item_text it)) (kids t ROOT))
    as [S|] eqn:ES; [|discriminate].
  cbn [option_map] in Eg'. injection Eg' as <-.
  pose proof (find_some _ _ ES) as [HS _].
  pose proof HS as HS'. apply kids_In in HS' as [HS1 HS2].
  rewrite get_username_id_kids in Hh by assumption.
  destruct (List.find (fun it => same_label u (item_text it)) (kids t (item_iid S)))
    eqn:EU; [discriminate|].
  rewrite del_loop_service by assumption.
  rewrite filter_all.
  - rewrite mkTree_eta.
    unfold no_childless_service in Hc. rewrite forallb_forall in Hc.
    assert (Hin : In (item_iid S) (Tk.get_children t ROOT))
      by (rewrite get_children_kids; now apply in_map).
    specialize (Hc _ Hin). apply negb_true_iff in Hc. now rewrite Hc.
  - intros x Hx. apply negb_true_iff.
    destruct (Nat.eqb_spec (item_parent x) (item_iid S)) as [E|E]; [|reflexivity].
    cbn [andb]. rewrite same_label_sym.
    apply (find_none _ _ EU). now apply kids_In.
Qed.

Lemma del_username_absent_witness :
  SharedState.del_username sample_tree "Mail" "carol" = sample_tree
  /\ SharedState.del_username sample_tree "nowhere" "bob" = sample_tree.
Proof.
  split.
  - apply (del_username_absent sample_tree "Mail" "carol"); reflexivity.
  - apply (del_username_absent sample_tree "nowhere" "bob"); reflexivity.
Defined.

(** X3.  Adding an entry that was not there and deleting it again gives back the
    same services with the same usernames, in the same order. *)
Theorem add_then_del_restores (t : Treeview) (s u : string) :
  tree_ok t = true -> has_account t s u = false ->
  SharedState.get_tree
    (SharedState.del_username (SharedState.add_username t s u) s u)
  = SharedState.get_tree t.
Proof.
  intros Hok Hh.
  pose proof (tree_ok_del _ s u (tree_ok_add _ s u Hok)) as Hok2.
  rewrite (get_tree_ok _ Hok2), (get_tree_ok _ Hok).
  apply tree_ok_forest in Hok as [Hwf [Hu Hc]].
  rewrite has_account_forest in Hh by assumption.
  destruct (add_username_forest t s u Hwf) as [H1 H2].
  destruct (del_username_forest _ s u H1) as [H3 H4].
  rewrite H4, H2. now apply forest_del_add.
Qed.

Lemma add_then_del_restores_witness :
  SharedState.get_tree
    (SharedState.del_username (SharedState.add_username sample_tree "Mail" "carol")
       "MAIL" "Carol")
  = SharedState.get_tree sample_tree
  /\ SharedState.get_tree
       (SharedState.del_username (SharedState.add_username sample_tree "x" "y")
          "x" "y")
     = SharedState.get_tree sample_tree.
Proof.
  split; [reflexivity|].
  apply (add_then_del_restores sample_tree "x" "y"); reflexivity.
Defined.

(** X4.  After [add_username] of (s, u), the lookup finds what it found before,
    and the entries that are (s, u) up to case. *)
Theorem lookup_after_add (t : Treeview) (s u s' u' : string) :
  tree_wf t = true ->
  has_account (SharedState.add_username t s u) s' u'
  = has_account t s' u' || (same_label s s' && same_label u u').
Proof.
  intros Hwf. apply tree_wf_WF in Hwf.
  destruct (add_username_forest t s u Hwf) as [H1 H2].
  rewrite !has_account_forest by assumption. rewrite H2.
  apply forest_has_add_other.
Qed.

Lemma lookup_after_add_witness :
  has_account (SharedState.add_username sample_tree "svc" "u2") "SVC" "U2" = true
  /\ has_account (SharedState.add_username sample_tree "svc" "u2") "Mail" "u2"
     = false
  /\ has_account (SharedState.add_username sample_tree E_acute "u") e_acute "U"
     = true.
Proof.
  rewrite !(lookup_after_add sample_tree "svc" "u2" _ _ eq_refl).
  rewrite (lookup_after_add sample_tree E_acute "u" e_acute "U" eq_refl).
  split; [|split]; reflexivity.
Defined.

(** X5.  After [del_username] of (s, u), the lookup finds what it found before,
    except the entries that are (s, u) up to case. *)
Theorem lookup_after_del (t : Treeview) (s u s' u' : string) :
  tree_ok t = true ->
  has_account (SharedState.del_username t s u) s' u'
  = has_account t s' u' && negb (same_label s s' && same_label u u').
Proof.
  intros Hok. apply tree_ok_forest in Hok as [Hwf [Hu _]].
  destruct (del_username_forest t s u Hwf) as [H1 H2].
  rewrite !has_account_forest by assumption. rewrite H2.
  now apply forest_has_del_other.
Qed.

Lemma lookup_after_del_witness :
  has_account (SharedState.del_username sample_tree "MAIL" "BOB") "mail" "alice"
  = true
  /\ has_account (SharedState.del_username sample_tree "MAIL" "BOB") "mail" "bob"
     = false
  /\ has_account (SharedState.del_username latin1_tree e_acute "X") E_acute "x"
     = false.
Proof.
  rewrite !(lookup_after_del sample_tree "MAIL" "BOB" _ _ eq_refl).
  rewrite (lookup_after_del latin1_tree e_acute "X" E_acute "x" eq_refl).
  split; [|split]; reflexivity.
Defined.

Lemma distinct_names_inj (F : Dict (list string)) e e' :
  distinct_labels (map fst F) = true ->
  In e F -> In e' F -> same_label (fst e) (fst e') = true -> e = e'.
Proof.
  induction F as [|a r IH]; [intros _ []|].
  cbn [map distinct_labels]. intros H He He' Hs.
  apply andb_true_iff in H as [Ha Hr]. apply negb_true_iff in Ha.
  pose proof (proj1 (existsb_false _ _) Ha) as Hn.
  destruct He as [<-|He], He' as [<-|He'].
  - reflexivity.
  - rewrite (Hn (fst e')) in Hs; [discriminate | now apply in_map].
  - rewrite same_label_sym in Hs.
    rewrite (Hn (fst e)) in Hs; [discriminate | now apply in_map].
  - now apply IH.
Qed.

(** X6.  On a tree that satisfies the invariants, the export lists exactly the
    accounts that the lookup finds. *)
Theorem export_matches_lookup (t : Treeview) (s u : string) :
  tree_ok t = true ->
  has_account t s u = true
  <-> exists k us x,
        In (k, us) (SharedState.get_tree t) /\ In x us
        /\ same_label s k = true /\ same_label u x = true.
Proof.
  intros Hok. rewrite (get_tree_ok _ Hok).
  apply tree_ok_forest in Hok as [Hwf [Hu _]].
  rewrite has_account_forest by assumption.
  unfold forest_unique in Hu. apply andb_true_iff in Hu as [Hu _].
  unfold forest_has. split.
  - destruct (List.find (fun e => same_label s (fst e)) (forest t))
      as [[k us]|] eqn:E; [|discriminate].
    intros Hx. apply existsb_exists in Hx as [x [Hx Hs]].
    apply find_some in E as [He Hk]. exists k, us, x. auto.
  - intros [k [us [x [He [Hx [Hk Hs]]]]]].
    destruct (List.find (fun e => same_label s (fst e)) (forest t))
      as [e|] eqn:E.
    + apply find_some in E as [He' Hk'].
      assert (e = (k, us)) as ->.
      { apply (distinct_names_inj (forest t)); try assumption.
        cbn [fst]. rewrite same_label_sym in Hk'.
        now rewrite (same_label_left _ _ _ Hk'). }
      apply existsb_exists. eauto.
    + apply (find_none _ _ E) in He. cbn [fst] in He. congruence.
Qed.

Lemma export_matches_lookup_witness :
  has_account sample_tree "MAIL" "ALICE" = true
  /\ In ("Mail", ["bob"; "alice"]) (SharedState.get_tree sample_tree)
  /\ has_account latin1_tree e_acute "X" = true.
Proof.
  split; [|split; [now left|]].
  - apply (proj2 (export_matches_lookup sample_tree "MAIL" "ALICE" eq_refl)).
    exists "Mail", ["bob"; "alice"], "alice".
    split; [now left|]. split; [right; now left|]. split; reflexivity.
  - apply (proj2 (export_matches_lookup latin1_tree e_acute "X" eq_refl)).
    exists E_acute, ["x"], "x".
    split; [now left|]. split; [now left|]. split; reflexivity.
Defined.

(** ** The cache file across a restart *)

Lemma forest_has_set cache : forall F s u,
  forest_has (forest_set F cache) s u
  = forest_has F s u
    || existsb (fun e => same_label (fst e) s && existsb (fun x => same_label x u) (snd e))
               cache.
Proof.
  unfold forest_set.
  induction cache as [|[key value] r IH]; intros F s u; cbn [fold_left existsb fst snd].
  - now rewrite orb_false_r.
  - rewrite IH. rewrite orb_assoc. f_equal.
    clear IH. revert F. induction value as [|x xs IHx]; intros F;
      cbn [fold_left existsb].
    + now rewrite andb_false_r, orb_false_r.
    + rewrite IHx, forest_has_add_other.
      rewrite <- orb_assoc. f_equal.
      destruct (same_label key s); cbn [andb]; reflexivity.
Qed.

(** X7.  [json.loads] gives back the dictionary that [json.dumps] wrote, whatever
    characters its keys and strings hold. *)
Theorem loads_dumps_roundtrip (d : Dict (list string)) :
  List.NoDup (map fst d) -> decoder.loads (json.dumps d) = Some d.
Proof.
  intros H. rewrite loads_dumps. now rewrite dict_of_id.
Qed.

Lemma loads_dumps_roundtrip_witness :
  decoder.loads (json.dumps odd_document) = Some odd_document.
Proof.
  apply loads_dumps_roundtrip. unfold odd_document. cbn [map fst].
  constructor; [cbn [In]; intros [H | [H | []]]; discriminate H|].
  constructor; [cbn [In]; intros [H | []]; discriminate H|].
  constructor; [intros [] | constructor].
Defined.

Lemma get_cache_written t fs :
  KeyVault.get_cache (utils.write_file (json.dumps (SharedState.get_tree t)) fs)
  = Some (SharedState.get_tree t).
Proof.
  unfold KeyVault.get_cache, utils.write_file, utils.read_file. cbn [cache_file].
  rewrite loads_dumps. f_equal. apply dict_of_id, get_tree_NoDup.
Qed.

(** X8.  What [set_cache] writes for an export of the tree, [get_cache] reads
    back, and the folder of the cache file exists afterwards. *)
Theorem cache_roundtrip (t : Treeview) (st : App) :
  let st' := State.set_cache (SharedState.get_tree t) st in
  KeyVault.get_cache (files st') = Some (SharedState.get_tree t)
  /\ keyvault_dir (files st') = true.
Proof.
  cbv zeta. unfold State.set_cache. cbn [files record_call with_files].
  split; [apply get_cache_written|].
  unfold utils.check_folder_path, utils.write_file. cbn [keyvault_dir].
  destruct (keyvault_dir (files st)) eqn:E; [exact E | reflexivity].
Qed.

(** X9.  After any of the three buttons has gone past its guard, the cache file
    holds the export of the tree as it then is. *)
Theorem buttons_keep_cache_in_sync (st : App) :
  State.service st <> EmptyString -> State.username st <> EmptyString ->
  let synced st' :=
    KeyVault.get_cache (files st') = Some (SharedState.get_tree (tree st')) in
  synced (ToolboxFrame.get_password st)
  /\ synced (ToolboxFrame.del_password st)
  /\ (State.password st <> EmptyString -> synced (ToolboxFrame.set_password st)).
Proof.
  intros Hs Hu. cbv zeta. split; [|split].
  - destruct (secrets st !! (State.service st, State.username st)) as [v|] eqn:E.
    + rewrite (get_password_found st v Hs Hu E). cbn [files tree].
      apply get_cache_written.
    + rewrite (get_password_missing st Hs Hu E). cbn [files tree].
      apply get_cache_written.
  - rewrite (del_password_done st Hs Hu). cbn [files tree].
    apply get_cache_written.
  - intros Hp. rewrite (set_password_done st Hs Hu Hp). cbn [files tree].
    apply get_cache_written.
Qed.

Lemma buttons_keep_cache_in_sync_witness :
  KeyVault.get_cache (files (ToolboxFrame.set_password save_app))
  = Some [("Mail", ["bob"; "alice"]); ("svc", ["u1"])]
  /\ KeyVault.get_cache (files (ToolboxFrame.del_password save_app))
     = Some [("Mail", ["bob"; "alice"])].
Proof.
  assert (H1 : State.service save_app <> EmptyString) by discriminate.
  assert (H2 : State.username save_app <> EmptyString) by discriminate.
  assert (H3 : State.password save_app <> EmptyString) by discriminate.
  pose proof (buttons_keep_cache_in_sync save_app H1 H2) as H.
  cbv zeta in H. destruct H as [_ [Hd Hsv]].
  split; [exact (Hsv H3) | exact Hd].
Defined.

Lemma import_of_export (T T0 : Treeview) :
  tree_ok T = true -> items T0 = [] ->
  tree_ok (SharedState.set_tree T0 (SharedState.get_tree T)) = true
  /\ forest (SharedState.set_tree T0 (SharedState.get_tree T)) = forest T.
Proof.
  intros Hok H0.
  assert (Hok0 : tree_ok T0 = true).
  { destruct T0 as [n its]. cbn [items] in H0. subst. reflexivity. }
  split; [now apply tree_ok_set|].
  rewrite (get_tree_ok T Hok).
  apply tree_ok_forest in Hok as [Hwf [Hu Hc]].
  apply tree_ok_forest in Hok0 as [Hwf0 _].
  destruct (set_tree_forest (forest T) T0 Hwf0) as [_ H2]. rewrite H2.
  assert (HF0 : forest T0 = []) by (unfold forest, kids; now rewrite H0).
  rewrite HF0. now apply (forest_set_roundtrip (forest T) []).
Qed.

(** X10.  A process that starts on a cache file in step with the tree of the
    process that wrote it builds a tree with the same export. *)
Theorem restart_restores_tree (st : App) (clipboard : option string)
  (store : gmap (string * string) string) :
  tree_ok (tree st) = true ->
  KeyVault.get_cache (files st) = Some (SharedState.get_tree (tree st)) ->
  exists st0,
    KeyVault.__init__ clipboard store (files st) = Some st0
    /\ SharedState.get_tree (tree st0) = SharedState.get_tree (tree st)
    /\ tree_ok (tree st0) = true.
Proof.
  intros Hok Hc. unfold KeyVault.__init__. rewrite Hc.
  eexists. split; [reflexivity|]. unfold KeyVault.init_with.
  cbn [State.set_tree tree with_tree].
  destruct (import_of_export (tree st) Tk.Treeview_new Hok eq_refl) as [H1 H2].
  split; [|exact H1].
  rewrite (get_tree_ok _ H1), H2. symmetry. now apply get_tree_ok.
Qed.

Lemma restart_restores_tree_witness :
  exists st0,
    KeyVault.__init__ None ∅ (files (ToolboxFrame.set_password save_app)) = Some st0
    /\ SharedState.get_tree (tree st0)
       = [("Mail", ["bob"; "alice"]); ("svc", ["u1"])].
Proof.
  destruct (restart_restores_tree (ToolboxFrame.set_password save_app) None ∅
              eq_refl eq_refl) as [st0 [H1 [H2 _]]].
  exists st0. split; [exact H1 | exact H2].
Defined.

(** X11.  Whatever dictionary of lists of strings [get_cache] returns, the
    process starts with a tree that satisfies the invariants of the data
    model and in which the lookup finds exactly the accounts that the cache
    lists, up to case; the three fields are empty, and nothing has been
    called or written.  With no cache file the program starts, on the empty
    dictionary, with a tree without items. *)
Theorem startup_state (clipboard : option string)
  (store : gmap (string * string) string) (fs : Files)
  (cache : Dict (list string)) :
  let st0 := KeyVault.init_with cache clipboard store fs in
  tree_ok (tree st0) = true
  /\ (forall s u,
        has_account (tree st0) s u
        = existsb (fun e => same_label (fst e) s
                            && existsb (fun x => same_label x u) (snd e)) cache)
  /\ reachable st0
  /\ State.service st0 = EmptyString
  /\ State.username st0 = EmptyString
  /\ State.password st0 = EmptyString
  /\ secrets st0 = store /\ files st0 = fs /\ calls st0 = []
  /\ (KeyVault.get_cache fs = Some cache ->
      KeyVault.__init__ clipboard store fs = Some st0)
  /\ (cache_file fs = None ->
      exists st, KeyVault.__init__ clipboard store fs = Some st
                 /\ items (tree st) = []).
Proof.
  cbv zeta. unfold KeyVault.init_with.
  cbn [State.set_tree tree with_tree State.service State.username State.password
       variables var_service var_username var_password secrets files calls].
  split; [apply tree_ok_set, tree_ok_new|].
  split.
  { intros s u.
    assert (Hwf : WF Tk.Treeview_new) by now apply tree_wf_WF.
    destruct (set_tree_forest cache Tk.Treeview_new Hwf) as [H1 H2].
    rewrite has_account_forest by assumption. rewrite H2.
    now rewrite forest_has_set. }
  split; [apply reach_start|].
  do 6 (split; [reflexivity|]).
  split.
  - intros Hc. unfold KeyVault.__init__. now rewrite Hc.
  - intros Hf. unfold KeyVault.__init__, KeyVault.get_cache, utils.read_file.
    rewrite Hf. eexists. split; reflexivity.
Qed.

Lemma startup_state_witness :
  exists st0,
    KeyVault.__init__ None ∅ (mkFiles true (Some (json.dumps odd_cache))) = Some st0
    /\ tree_ok (tree st0) = true
    /\ has_account (tree st0) "MAIL" "X" = true
    /\ SharedState.get_tree (tree st0) = [("Mail", ["bob"; "al"; "x"])].
Proof.
  pose proof (startup_state None ∅ (mkFiles true (Some (json.dumps odd_cache)))
                odd_cache) as H.
  cbv zeta in H. destruct H as [H1 [H2 [_ [_ [_ [_ [_ [_ [_ [H3 _]]]]]]]]]].
  eexists. split; [exact (H3 eq_refl)|].
  split; [exact H1|]. split; [|reflexivity].
  rewrite H2. reflexivity.
Defined.

(** ** More on fetch, save and delete *)



(** X13.  [save] writes one secret and touches no other: the secret of (service,
    username) is the password, whatever was there, and every other key of
    the store keeps what it had. *)
Theorem save_overwrites_one_secret (st : App) (key : string * string) :
  State.service st <> EmptyString -> State.username st <> EmptyString ->
  State.password st <> EmptyString ->
  let st' := ToolboxFrame.set_password st in
  secrets st' !! (State.service st, State.username st) = Some (State.password st)
  /\ (key <> (State.service st, State.username st) ->
      secrets st' !! key = secrets st !! key).
Proof.
  intros Hs Hu Hp. cbv zeta. rewrite (set_password_done st Hs Hu Hp). cbn.
  split; [apply lookup_insert_eq|].
  intros Hne. now apply lookup_insert_ne.
Qed.

Lemma save_overwrites_one_secret_witness :
  secrets save_app !! ("svc", "u1") = Some "old"
  /\ secrets (ToolboxFrame.set_password save_app) !! ("svc", "u1") = Some "p1"
  /\ secrets (ToolboxFrame.set_password save_app) !! ("Mail", "bob") = None.
Proof.
  assert (H1 : State.service save_app <> EmptyString) by discriminate.
  assert (H2 : State.username save_app <> EmptyString) by discriminate.
  assert (H3 : State.password save_app <> EmptyString) by discriminate.
  pose proof (save_overwrites_one_secret save_app ("Mail", "bob") H1 H2 H3) as H.
  cbv zeta in H. destruct H as [H4 H5].
  split; [reflexivity|]. split; [exact H4|].
  rewrite H5; [reflexivity | discriminate].
Defined.

(** X14.  After [delete], the secret is gone from the store and every other secret
    is still there; a [fetch] of the same service and username, typed in
    again, finds nothing. *)
Theorem delete_then_fetch (st : App) (key : string * string) :
  State.service st <> EmptyString -> State.username st <> EmptyString ->
  let s := State.service st in
  let u := State.username st in
  let st1 := ToolboxFrame.del_password st in
  let st2 :=
    ToolboxFrame.get_password (State.username_set u (State.service_set s st1)) in
  secrets st1 !! (s, u) = None
  /\ (key <> (s, u) -> secrets st1 !! key = secrets st !! key)
  /\ State.password st2 = EmptyString
  /\ State.message st2 = "[WARNING]: Password not found!"
  /\ secrets st2 = secrets st1.
Proof.
  intros Hs Hu. cbv zeta.
  rewrite (del_password_done st Hs Hu). cbv zeta.
  set (k := match secrets st !! (State.service st, State.username st) with
            | Some _ => delete (State.service st, State.username st) (secrets st)
            | None => secrets st
            end).
  assert (Hk : k !! (State.service st, State.username st) = None).
  { unfold k. destruct (secrets st !! (State.service st, State.username st)) eqn:E;
      [apply lookup_delete_eq | exact E]. }
  split; [exact Hk|]. split.
  { intros Hne. cbn [secrets]. unfold k.
    destruct (secrets st !! (State.service st, State.username st));
      [now apply lookup_delete_ne | reflexivity]. }
  rewrite get_password_missing; cbn; try assumption. repeat split.
Qed.

Lemma delete_then_fetch_witness :
  secrets (ToolboxFrame.del_password delete_app) !! ("svc", "u1") = None
  /\ State.message
       (ToolboxFrame.get_password
          (State.username_set "u1"
             (State.service_set "svc" (ToolboxFrame.del_password delete_app))))
     = "[WARNING]: Password not found!".
Proof.
  assert (H1 : State.service delete_app <> EmptyString) by discriminate.
  assert (H2 : State.username delete_app <> EmptyString) by discriminate.
  pose proof (delete_then_fetch delete_app ("a", "b") H1 H2) as H.
  cbv zeta in H. destruct H as [H3 [_ [_ [H4 _]]]].
  split; [exact H3 | exact H4].
Defined.

Lemma fetch_guard_aux (st : App) :
  State.service st = EmptyString \/ State.username st = EmptyString ->
  secrets (ToolboxFrame.get_password st) = secrets st
  /\ calls (ToolboxFrame.get_password st) = calls st.
Proof.
  intros H. unfold ToolboxFrame.get_password.
  change (State.service (State.password_del st)) with (State.service st).
  change (State.username (State.password_del st)) with (State.username st).
  assert (((0 <? String.length (State.service st))
           && (0 <? String.length (State.username st))) = false) as ->.
  { destruct H as [H | H]; rewrite (empty_len _ H); now rewrite ?andb_false_r. }
  split; reflexivity.
Qed.

(** X15.  [fetch] never changes the secret store, and the only calls it makes are
    one read of the store followed by one write of the cache file. *)
Theorem fetch_never_writes_store (st : App) :
  let st' := ToolboxFrame.get_password st in
  secrets st' = secrets st
  /\ (calls st' = calls st
      \/ exists data,
           calls st'
           = calls st ++ [GetPassword (State.service st) (State.username st);
                          WriteFile data]).
Proof.
  cbv zeta.
  destruct (String.eqb_spec (State.service st) EmptyString) as [Es|Es].
  { pose proof (fetch_guard_aux st (or_introl Es)) as [H1 H2]. auto. }
  destruct (String.eqb_spec (State.username st) EmptyString) as [Eu|Eu].
  { pose proof (fetch_guard_aux st (or_intror Eu)) as [H1 H2]. auto. }
  destruct (secrets st !! (State.service st, State.username st)) as [v|] eqn:E.
  - rewrite (get_password_found st v Es Eu E). cbn [secrets calls].
    split; [reflexivity|]. right. rewrite <- app_assoc. eauto.
  - rewrite (get_password_missing st Es Eu E). cbn [secrets calls].
    split; [reflexivity|]. right. rewrite <- app_assoc. eauto.
Qed.

(** X16.  What [save] writes to the cache file does not depend on the password:
    two runs that differ only in the password typed leave the same file and
    the same tree. *)
Theorem password_never_cached (st : App) (p1 p2 : string) :
  State.service st <> EmptyString -> State.username st <> EmptyString ->
  p1 <> EmptyString -> p2 <> EmptyString ->
  let st1 := ToolboxFrame.set_password (State.password_set p1 st) in
  let st2 := ToolboxFrame.set_password (State.password_set p2 st) in
  files st1 = files st2 /\ tree st1 = tree st2
  /\ forall data, In (WriteFile data) (calls st1) <-> In (WriteFile data) (calls st2).
Proof.
  intros Hs Hu H1 H2. cbv zeta.
  rewrite (set_password_done (State.password_set p1 st)) by assumption.
  rewrite (set_password_done (State.password_set p2 st)) by assumption.
  cbn. split; [reflexivity|]. split; [reflexivity|].
  intros data. rewrite !in_app_iff. cbn [In]. split.
  - intros [[H | [H | []]] | H]; [tauto | discriminate H | tauto].
  - intros [[H | [H | []]] | H]; [tauto | discriminate H | tauto].
Qed.

Lemma password_never_cached_witness :
  files (ToolboxFrame.set_password (State.password_set "one" save_app))
  = files (ToolboxFrame.set_password (State.password_set "two" save_app)).
Proof.
  assert (H1 : State.service save_app <> EmptyString) by discriminate.
  assert (H2 : State.username save_app <> EmptyString) by discriminate.
  assert (H3 : "one" <> EmptyString) by discriminate.
  assert (H4 : "two" <> EmptyString) by discriminate.
  pose proof (password_never_cached save_app "one" "two" H1 H2 H3 H4) as H.
  cbv zeta in H. exact (proj1 H).
Defined.

(** X17.  With service or username empty, [delete] does nothing but set the
    warning: no call to the store, no write, and the tree, the store, the
    file, the clipboard and the three fields are as before. *)
Theorem delete_guard (st : App) :
  State.service st = EmptyString \/ State.username st = EmptyString ->
  ToolboxFrame.del_password st
  = State.message_set "[WARNING]: Service and username cannot be empty!" st.
Proof.
  intros H. unfold ToolboxFrame.del_password.
  assert (((0 <? String.length (State.service st))
           && (0 <? String.length (State.username st))) = false) as ->.
  { destruct H as [H | H]; rewrite (empty_len _ H); now rewrite ?andb_false_r. }
  reflexivity.
Qed.

Lemma delete_guard_witness :
  ToolboxFrame.del_password fetch_guard_app
  = State.message_set "[WARNING]: Service and username cannot be empty!"
      fetch_guard_app.
Proof. apply delete_guard. left. reflexivity. Defined.

(** After the Clear button, none of the three buttons reaches the secret
    store, the tree or the cache file: each one only sets its warning. *)
Theorem clear_then_buttons (st : App) :
  let st1 := ClearFrame.clear_entries st in
  let untouched st' :=
    tree st' = tree st /\ secrets st' = secrets st /\ files st' = files st
    /\ calls st' = calls st /\ root_clipboard st' = root_clipboard st
    /\ State.service st' = EmptyString /\ State.username st' = EmptyString
    /\ State.password st' = EmptyString in
  State.message st1 = "[INFO]: Cleared all entries!"
  /\ untouched st1
  /\ untouched (ToolboxFrame.get_password st1)
  /\ untouched (ToolboxFrame.set_password st1)
  /\ untouched (ToolboxFrame.del_password st1)
  /\ State.message (ToolboxFrame.get_password st1)
     = "[WARNING]: Service and username cannot be empty!"
  /\ State.message (ToolboxFrame.set_password st1)
     = "[WARNING]: Service, username and password cannot be empty!"
  /\ State.message (ToolboxFrame.del_password st1)
     = "[WARNING]: Service and username cannot be empty!".
Proof. cbv zeta. repeat split. Qed.

(** ** Selection in the tree *)

Lemma find_distinct {A} (f : A -> string) (l : list A) x :
  distinct_labels (map f l) = true -> In x l ->
  List.find (fun y => same_label (f x) (f y)) l = Some x.
Proof.
  induction l as [|a r IH]; [intros _ []|].
  cbn [map distinct_labels List.find]. intros H Hx.
  apply andb_true_iff in H as [Ha Hr]. apply negb_true_iff in Ha.
  destruct Hx as [->|Hx]; [now rewrite same_label_refl|].
  rewrite same_label_sym.
  rewrite (proj1 (existsb_false _ _) Ha (f x)) by now apply in_map.
  now apply IH.
Qed.

Lemma unique_labels_kids t :
  WF t -> unique_labels t = true ->
  distinct_labels (map item_text (kids t ROOT)) = true
  /\ forall S, In S (kids t ROOT) ->
       distinct_labels (map item_text (kids t (item_iid S))) = true.
Proof.
  intros Hwf H. unfold unique_labels in H. apply andb_true_iff in H as [H1 H2].
  unfold service_labels in H1. rewrite labels_of_kids in H1 by assumption.
  split; [assumption|]. intros S HS. rewrite forallb_forall in H2.
  specialize (H2 (item_iid S)). unfold username_labels in H2.
  rewrite labels_of_kids in H2 by assumption. apply H2.
  rewrite get_children_kids. now apply in_map.
Qed.

Lemma lookup_of_items t S C :
  tree_ok t = true -> In S (kids t ROOT) -> In C (kids t (item_iid S)) ->
  SharedState.get_service_id t (item_text S) = Some (item_iid S)
  /\ SharedState.get_username_id t (item_iid S) (item_text C) = Some (item_iid C)
  /\ has_account t (item_text S) (item_text C) = true.
Proof.
  intros Hok HS HC. unfold tree_ok in Hok.
  apply andb_true_iff in Hok as [Hok _]. apply andb_true_iff in Hok as [Hwf Hu].
  apply tree_wf_WF in Hwf.
  destruct (unique_labels_kids t Hwf Hu) as [D1 D2].
  assert (E1 : SharedState.get_service_id t (item_text S) = Some (item_iid S)).
  { rewrite get_service_id_kids by assumption.
    now rewrite (find_distinct item_text (kids t ROOT) S D1 HS). }
  assert (E2 : SharedState.get_username_id t (item_iid S) (item_text C)
               = Some (item_iid C)).
  { rewrite get_username_id_kids by assumption.
    now rewrite (find_distinct item_text (kids t (item_iid S)) C (D2 S HS) HC). }
  split; [exact E1|]. split; [exact E2|].
  unfold has_account. now rewrite E1, E2.
Qed.

Lemma child_items t service_id c :
  WF t -> In service_id (Tk.get_children t ROOT) ->
  In c (Tk.get_children t service_id) ->
  exists S C, In S (kids t ROOT) /\ In C (kids t (item_iid S))
              /\ item_iid S = service_id /\ item_iid C = c
              /\ Tk.item t service_id = item_text S /\ Tk.item t c = item_text C
              /\ TreeFrame.parent t c = service_id /\ service_id <> ROOT
              /\ c <> ROOT.
Proof.
  intros Hwf Hs Hc. pose proof Hwf as [Hnd [Hrg _]].
  rewrite get_children_kids in Hs. apply in_map_iff in Hs as [S [<- HS]].
  rewrite get_children_kids in Hc. apply in_map_iff in Hc as [C [<- HC]].
  pose proof HS as HS'. apply kids_In in HS' as [HS1 HS2].
  pose proof HC as HC'. apply kids_In in HC' as [HC1 HC2].
  exists S, C. repeat split; try assumption.
  - now apply item_of.
  - now apply item_of.
  - unfold TreeFrame.parent, Tk.lookup_item. now rewrite (find_iid _ _ Hnd HC1).
  - destruct (Hrg S HS1). unfold ROOT. lia.
  - destruct (Hrg C HC1). unfold ROOT. lia.
Qed.

(** X18.  Selecting a service node fills the service field with its label and
    empties the other two; selecting a username node fills service and
    username with the labels of the parent and of the node, which is an entry
    that the lookup finds.  Selection touches nothing but the four variables,
    and with no node in focus it does nothing. *)
Theorem select_fills_fields (st : App) (service_id c : iid) :
  tree_ok (tree st) = true ->
  In service_id (Tk.get_children (tree st) ROOT) ->
  TreeFrame.select ROOT st = st
  /\ TreeFrame.select service_id st
     = with_variables
         (mkVariables (Tk.item (tree st) service_id) EmptyString EmptyString
                      "[INFO]: Service selected.") st
  /\ (In c (Tk.get_children (tree st) service_id) ->
      TreeFrame.select c st
      = with_variables
          (mkVariables (Tk.item (tree st) service_id) (Tk.item (tree st) c)
                       EmptyString "[INFO]: Username selected.") st
      /\ has_account (tree st) (Tk.item (tree st) service_id)
                     (Tk.item (tree st) c) = true).
Proof.
  intros Hok Hs. pose proof (tree_ok_wf _ Hok) as Hwf. apply tree_wf_WF in Hwf.
  pose proof Hwf as [Hnd [Hrg _]].
  split; [reflexivity|]. split.
  - rewrite get_children_kids in Hs. apply in_map_iff in Hs as [S [<- HS]].
    apply kids_In in HS as [HS1 HS2].
    unfold TreeFrame.select.
    assert ((item_iid S =? ROOT) = false) as ->.
    { apply Nat.eqb_neq. destruct (Hrg S HS1). unfold ROOT. lia. }
    cbn [negb]. cbv zeta.
    assert (TreeFrame.parent (tree st) (item_iid S) = ROOT) as ->.
    { unfold TreeFrame.parent, Tk.lookup_item.
      now rewrite (find_iid _ _ Hnd HS1). }
    reflexivity.
  - intros Hc.
    destruct (child_items (tree st) service_id c Hwf Hs Hc)
      as [S [C [HS [HC [E1 [E2 [E3 [E4 [E5 [E6 E7]]]]]]]]]].
    split.
    + unfold TreeFrame.select.
      assert ((c =? ROOT) = false) as -> by now apply Nat.eqb_neq.
      cbn [negb]. cbv zeta. rewrite E5.
      assert ((service_id =? ROOT) = false) as -> by now apply Nat.eqb_neq.
      reflexivity.
    + rewrite E3, E4. now apply lookup_of_items.
Qed.

Lemma select_fills_fields_witness :
  State.service (TreeFrame.select 3 guard_app) = "Mail"
  /\ State.username (TreeFrame.select 3 guard_app) = "alice"
  /\ State.password (TreeFrame.select 3 guard_app) = EmptyString
  /\ State.username (TreeFrame.select 1 guard_app) = EmptyString.
Proof.
  assert (H1 : In 1 (Tk.get_children (tree guard_app) ROOT)) by (now left).
  assert (H2 : In 3 (Tk.get_children (tree guard_app) 1)) by (right; now left).
  pose proof (select_fills_fields guard_app 1 3 eq_refl H1) as [_ [Hs Hc]].
  destruct (Hc H2) as [Hu _]. rewrite Hu, Hs. repeat split.
Defined.

Lemma del_username_removes t s u S C :
  WF t -> In S (kids t ROOT) ->
  SharedState.get_service_id t s = Some (item_iid S) ->
  In C (kids t (item_iid S)) -> same_label (item_text C) u = true ->
  ~ In (item_iid C) (map item_iid (items (SharedState.del_username t s u))).
Proof.
  intros Hwf HS Hg HC Hm. pose proof HS as HS'. apply kids_In in HS' as [HS1 HS2].
  pose proof HC as HC'. apply kids_In in HC' as [HC1 HC2].
  unfold SharedState.del_username. rewrite Hg.
  rewrite del_loop_service by assumption.
  set (Q := fun x => negb ((item_parent x =? item_iid S)
                           && same_label (item_text x) u)).
  set (t1 := mkTree (last_iid t) (List.filter Q (items t))).
  assert (Hsub : forall x, In x (items t1) -> In x (items t) /\ Q x = true)
    by (intros x Hx; now apply filter_In in Hx).
  assert (HQ : Q C = false).
  { unfold Q. now rewrite HC2, Nat.eqb_refl, Hm. }
  assert (Hno : forall t2, (forall x, In x (items t2) -> In x (items t1)) ->
                  ~ In (item_iid C) (map item_iid (items t2))).
  { intros t2 Hincl Hin. apply in_map_iff in Hin as [x [E Hx]].
    destruct (Hsub x (Hincl x Hx)) as [Hx1 Hx2].
    rewrite (WF_iid_inj t x C Hwf Hx1 HC1 E) in Hx2. congruence. }
  destruct (length (Tk.get_children t1 (item_iid S)) =? 0) eqn:El.
  - apply Hno. intros x Hx. rewrite delete_childless in Hx.
    + cbn [items] in Hx. now apply filter_In in Hx.
    + intros y Hy E. apply Nat.eqb_eq in El.
      rewrite get_children_kids, length_map in El.
      assert (Hk : In y (kids t1 (item_iid S))) by now apply kids_In.
      destruct (kids t1 (item_iid S)); [contradiction | discriminate].
  - apply Hno. auto.
Qed.

(** X19.  Selecting a username node and pressing Delete removes that node from the
    widget: its identifier is gone, the lookup no longer finds its entry, and
    the store is asked to delete the secret of the two labels. *)
Theorem select_then_delete (st : App) (service_id c : iid) :
  tree_ok (tree st) = true ->
  In service_id (Tk.get_children (tree st) ROOT) ->
  In c (Tk.get_children (tree st) service_id) ->
  Tk.item (tree st) service_id <> EmptyString ->
  Tk.item (tree st) c <> EmptyString ->
  let s := Tk.item (tree st) service_id in
  let u := Tk.item (tree st) c in
  let st' := ToolboxFrame.del_password (TreeFrame.select c st) in
  ~ In c (map item_iid (items (tree st')))
  /\ has_account (tree st') s u = false
  /\ (exists data, calls st' = calls st ++ [DeletePassword s u; WriteFile data])
  /\ State.service st' = EmptyString
  /\ State.username st' = EmptyString
  /\ State.password st' = EmptyString.
Proof.
  intros Hok Hs Hc Hns Hnu. cbv zeta.
  pose proof (tree_ok_wf _ Hok) as Hwf. apply tree_wf_WF in Hwf.
  destruct (child_items (tree st) service_id c Hwf Hs Hc)
    as [S [C [HS [HC [E1 [E2 [E3 [E4 [E5 [E6 E7]]]]]]]]]].
  assert (Hsel : TreeFrame.select c st
                 = with_variables
                     (mkVariables (Tk.item (tree st) service_id)
                        (Tk.item (tree st) c) EmptyString
                        "[INFO]: Username selected.") st).
  { unfold TreeFrame.select.
    assert ((c =? ROOT) = false) as -> by now apply Nat.eqb_neq.
    cbn [negb]. cbv zeta. rewrite E5.
    assert ((service_id =? ROOT) = false) as -> by now apply Nat.eqb_neq.
    reflexivity. }
  rewrite Hsel. rewrite del_password_done by assumption. cbn.
  destruct (lookup_of_items (tree st) S C Hok HS HC) as [G1 [G2 G3]].
  split.
  { rewrite E3, E4, <- E2.
    apply (del_username_removes (tree st) _ _ S C); try assumption.
    apply same_label_refl. }
  split; [now apply has_account_del|].
  split; [rewrite <- app_assoc; eauto|]. repeat split.
Qed.

Lemma select_then_delete_witness :
  map item_iid
    (items (tree (ToolboxFrame.del_password (TreeFrame.select 3 guard_app))))
  = [1; 2; 4; 5]
  /\ ~ In 3 (map item_iid
               (items (tree (ToolboxFrame.del_password
                               (TreeFrame.select 3 guard_app))))).
Proof.
  assert (H1 : In 1 (Tk.get_children (tree guard_app) ROOT)) by (now left).
  assert (H2 : In 3 (Tk.get_children (tree guard_app) 1)) by (right; now left).
  assert (H3 : Tk.item (tree guard_app) 1 <> EmptyString) by discriminate.
  assert (H4 : Tk.item (tree guard_app) 3 <> EmptyString) by discriminate.
  pose proof (select_then_delete guard_app 1 3 eq_refl H1 H2 H3 H4) as H.
  cbv zeta in H. destruct H as [H5 _].
  split; [reflexivity | exact H5].
Defined.

(** ** Copy and paste *)

(** X20.  A paste with nothing on the clipboard clears the field it was meant to
    fill and reports the error; the other two fields stay. *)
Theorem paste_empty_clipboard (st : App) :
  State.clipboard st = None ->
  AccountFrame.paste_service st
  = State.message_set "[ERROR]: Clipboard empty!" (State.service_del st)
  /\ AccountFrame.paste_username st
     = State.message_set "[ERROR]: Clipboard empty!" (State.username_del st)
  /\ AccountFrame.paste_password st
     = State.message_set "[ERROR]: Clipboard empty!" (State.password_del st).
Proof.
  unfold State.clipboard. intros H.
  unfold AccountFrame.paste_service, AccountFrame.paste_username,
    AccountFrame.paste_password, State.clipboard.
  cbn [root_clipboard State.service_del State.username_del State.password_del
       State.service_set State.username_set State.password_set with_variables].
  rewrite H. repeat split.
Qed.

Lemma paste_empty_clipboard_witness :
  State.password (AccountFrame.paste_password delete_app) = EmptyString
  /\ State.username (AccountFrame.paste_password delete_app) = "u1"
  /\ State.message (AccountFrame.paste_password delete_app)
     = "[ERROR]: Clipboard empty!".
Proof.
  destruct (paste_empty_clipboard delete_app eq_refl) as [_ [_ H]].
  rewrite H. repeat split.
Defined.

(** X21.  A field copied and then pasted into any of the three fields arrives
    there, and stays on the clipboard. *)
Theorem copy_then_paste (st : App) :
  (State.service st <> EmptyString ->
   let st1 := AccountFrame.copy_service st in
   State.service (AccountFrame.paste_service st1) = State.service st
   /\ State.username (AccountFrame.paste_username st1) = State.service st
   /\ State.password (AccountFrame.paste_password st1) = State.service st
   /\ State.clipboard (AccountFrame.paste_service st1) = Some (State.service st)
   /\ State.clipboard (AccountFrame.paste_username st1) = Some (State.service st)
   /\ State.clipboard (AccountFrame.paste_password st1) = Some (State.service st))
  /\ (State.username st <> EmptyString ->
      let st1 := AccountFrame.copy_username st in
      State.service (AccountFrame.paste_service st1) = State.username st
      /\ State.username (AccountFrame.paste_username st1) = State.username st
      /\ State.password (AccountFrame.paste_password st1) = State.username st
      /\ State.clipboard (AccountFrame.paste_service st1) = Some (State.username st)
      /\ State.clipboard (AccountFrame.paste_username st1) = Some (State.username st)
      /\ State.clipboard (AccountFrame.paste_password st1) = Some (State.username st))
  /\ (State.password st <> EmptyString ->
      let st1 := AccountFrame.copy_password st in
      State.service (AccountFrame.paste_service st1) = State.password st
      /\ State.username (AccountFrame.paste_username st1) = State.password st
      /\ State.password (AccountFrame.paste_password st1) = State.password st
      /\ State.clipboard (AccountFrame.paste_service st1) = Some (State.password st)
      /\ State.clipboard (AccountFrame.paste_username st1) = Some (State.password st)
      /\ State.clipboard (AccountFrame.paste_password st1) = Some (State.password st)).
Proof. repeat split. Qed.

Lemma copy_then_paste_witness :
  State.service (AccountFrame.paste_service (AccountFrame.copy_username delete_app))
  = "u1".
Proof.
  destruct (copy_then_paste delete_app) as [_ [H _]].
  assert (Hn : State.username delete_app <> EmptyString) by discriminate.
  exact (proj1 (H Hn)).
Defined.

(** X22.  Selecting, copying, pasting and clearing never reach the tree, the
    secret store or the cache file, and make no call. *)
Theorem fields_only (st : App) (selected : iid) :
  let same st' :=
    tree st' = tree st /\ secrets st' = secrets st /\ files st' = files st
    /\ calls st' = calls st in
  same (TreeFrame.select selected st)
  /\ same (AccountFrame.copy_service st) /\ same (AccountFrame.paste_service st)
  /\ same (AccountFrame.copy_username st) /\ same (AccountFrame.paste_username st)
  /\ same (AccountFrame.copy_password st) /\ same (AccountFrame.paste_password st)
  /\ same (ClearFrame.clear_entries st).
Proof.
  cbv zeta. split.
  { unfold TreeFrame.select. destruct (negb (selected =? ROOT)); [|now repeat split].
    cbv zeta. destruct (TreeFrame.parent _ selected =? ROOT); now repeat split. }
  unfold AccountFrame.paste_service, AccountFrame.paste_username,
    AccountFrame.paste_password, State.clipboard.
  cbn [root_clipboard State.service_del State.username_del State.password_del
       State.service_set State.username_set State.password_set with_variables].
  destruct (root_clipboard st); repeat split.
Qed.

(** ** Tooltips *)

Lemma tip_invariant_step (t : Tip) (e : tip_event) :
  tk_timers t = match tip_id t with Some i => [i] | None => [] end ->
  tk_toplevels t = match tip_window t with Some w => [w] | None => [] end ->
  tip_id t = None \/ tip_window t = None ->
  let t' := tip_step t e in
  tk_timers t' = match tip_id t' with Some i => [i] | None => [] end
  /\ tk_toplevels t' = match tip_window t' with Some w => [w] | None => [] end
  /\ (tip_id t' = None \/ tip_window t' = None).
Proof.
  destruct t as [id w timers tops lt lw]. cbn [tk_timers tk_toplevels tip_id tip_window].
  intros -> -> H. cbv zeta.
  destruct e as [| |j]; cbn [tip_step].
  - unfold ToolTip.schedule, ToolTip.cancel, ToolTip.remove.
    destruct id as [i|], w as [w|]; cbn; rewrite ?Nat.eqb_refl; cbn; auto.
  - unfold ToolTip.cancel, ToolTip.remove.
    destruct id as [i|], w as [w|]; cbn; rewrite ?Nat.eqb_refl; cbn; auto.
  - unfold ToolTip.timeout, ToolTip.enter, ToolTip.remove.
    destruct id as [i|]; cbn; [|auto].
    destruct H as [H|H]; [discriminate|]. subst w.
    destruct (Nat.eqb_spec j i) as [->|Hne]; cbn; [|auto].
    rewrite Nat.eqb_refl. cbn. auto.
Qed.

(** X23.  Whatever the pointer does and whichever delays run out, a tooltip has at
    most one callback waiting, the one it remembers, and at most one window,
    the one it remembers, never both; and when the pointer leaves, neither
    is left. *)
Theorem tooltip_resources (events : list tip_event) :
  let t := fold_left tip_step events ToolTip.__init__ in
  tk_timers t = match tip_id t with Some i => [i] | None => [] end
  /\ tk_toplevels t = match tip_window t with Some w => [w] | None => [] end
  /\ (tip_id t = None \/ tip_window t = None)
  /\ tk_timers (ToolTip.cancel t) = []
  /\ tk_toplevels (ToolTip.cancel t) = []
  /\ tip_id (ToolTip.cancel t) = None
  /\ tip_window (ToolTip.cancel t) = None.
Proof.
  cbv zeta.
  assert (G : forall t,
            tk_timers t = match tip_id t with Some i => [i] | None => [] end ->
            tk_toplevels t = match tip_window t with Some w => [w] | None => [] end ->
            tip_id t = None \/ tip_window t = None ->
            let t' := fold_left tip_step events t in
            tk_timers t' = match tip_id t' with Some i => [i] | None => [] end
            /\ tk_toplevels t'
               = match tip_window t' with Some w => [w] | None => [] end
            /\ (tip_id t' = None \/ tip_window t' = None)).
  { induction events as [|e r IH]; intros t H1 H2 H3; cbn [fold_left]; [auto|].
    destruct (tip_invariant_step t e H1 H2 H3) as [K1 [K2 K3]].
    now apply IH. }
  destruct (G ToolTip.__init__ eq_refl eq_refl (or_introl eq_refl)) as [H1 [H2 H3]].
  split; [exact H1|]. split; [exact H2|]. split; [exact H3|].
  destruct (fold_left tip_step events ToolTip.__init__) as [id w timers tops lt lw].
  cbn [tk_timers tk_toplevels tip_id tip_window] in *. subst.
  unfold ToolTip.cancel, ToolTip.remove.
  destruct id as [i|], w as [w|]; cbn; rewrite ?Nat.eqb_refl; cbn; auto.
Qed.

(** ** An object that has attributes before [SharedState.__init__] runs *)

(** X24.  [__init__] writes the attributes that the object already has over the
    shared ones, for every holder; the shared attributes it does not have
    stay; and a second [__init__] on the same object changes nothing. *)
Theorem init_overrides (p : Process) (self other : nat)
  (d : gmap string pyobj) (name : string) (v : pyobj) :
  objects p !! self = Some (OwnDict d) -> d !! name = Some v ->
  initialized other p = true ->
  getattr other name (__init__ self p) = Some v
  /\ getattr self name (__init__ self p) = Some v
  /\ (forall n, d !! n = None ->
        getattr other n (__init__ self p) = getattr other n p)
  /\ __init__ self (__init__ self p) = __init__ self p.
Proof.
  intros Hs Hd Ho. apply initialized_lookup in Ho.
  assert (Hne : self <> other) by (intros ->; congruence).
  assert (Hlt : self < length (objects p)) by now apply lookup_lt_Some in Hs.
  unfold __init__ at 1 2 3 5. rewrite Hs.
  unfold getattr, __dict__. cbn [objects __shared__].
  rewrite list_lookup_insert_ne by assumption.
  rewrite list_lookup_insert_eq by assumption. rewrite Ho. cbn.
  split; [now apply lookup_union_Some_l|].
  split; [now apply lookup_union_Some_l|].
  split; [intros n Hn; now apply lookup_union_r|].
  unfold __init__. cbn [objects]. rewrite Hs. cbn [objects].
  now rewrite list_lookup_insert_eq by assumption.
Qed.

Lemma init_overrides_witness :
  getattr 0 "cache" (__init__ 2 late_holder) = Some (PCache [])
  /\ getattr 0 "cache" late_holder = Some (PCache [("svc", ["u1"])])
  /\ getattr 0 "tree" (__init__ 2 late_holder) = Some (PWidget 7).
Proof.
  assert (H1 : objects late_holder !! 2 = Some (OwnDict {[ "cache" := PCache [] ]}))
    by reflexivity.
  destruct (init_overrides late_holder 2 0 {[ "cache" := PCache [] ]} "cache"
              (PCache []) H1 eq_refl eq_refl) as [H2 [_ [H3 _]]].
  split; [exact H2|]. split; [reflexivity|].
  rewrite (H3 "tree" eq_refl). reflexivity.
Defined.

(** ** Whole runs *)

Lemma perform_tree_ok (st : App) (a : action) :
  tree_ok (tree st) = true -> tree_ok (tree (perform st a)) = true.
Proof.
  intros Hok.
  assert (Hf : forall v c, tree (with_clipboard c (with_variables v st)) = tree st)
    by reflexivity.
  destruct a; cbn [perform]; try exact Hok.
  - unfold TreeFrame.select. destruct (negb (selected =? ROOT)); [|exact Hok].
    cbv zeta. now destruct (TreeFrame.parent _ selected =? ROOT).
  - unfold AccountFrame.paste_service, State.clipboard.
    cbn [root_clipboard State.service_del State.service_set with_variables].
    now destruct (root_clipboard st).
  - unfold AccountFrame.paste_username, State.clipboard.
    cbn [root_clipboard State.username_del State.username_set with_variables].
    now destruct (root_clipboard st).
  - unfold AccountFrame.paste_password, State.clipboard.
    cbn [root_clipboard State.password_del State.password_set with_variables].
    now destruct (root_clipboard st).
  - unfold ToolboxFrame.get_password.
    destruct ((0 <? String.length (State.service (State.password_del st)))
              && (0 <? String.length (State.username (State.password_del st))));
      [|exact Hok].
    unfold ToolboxFrame.call_get_password.
    destruct (keyring.get_password _ _ _); cbn [tree];
      [now apply tree_ok_add | now apply tree_ok_del].
  - unfold ToolboxFrame.set_password.
    destruct ((0 <? String.length (State.service st))
              && (0 <? String.length (State.username st))
              && (0 <? String.length (State.password st))); [|exact Hok].
    now apply tree_ok_add.
  - unfold ToolboxFrame.del_password.
    destruct ((0 <? String.length (State.service st))
              && (0 <? String.length (State.username st))); [|exact Hok].
    unfold ToolboxFrame.call_delete_password.
    destruct (keyring.delete_password _ _ _); now apply tree_ok_del.
Qed.

(** X25.  In every run, from a start on any dictionary of lists of strings that
    [get_cache] returns through any sequence of actions of the user, the
    tree satisfies the invariants of the data model: labels unique up to case
    at both levels and no service without usernames. *)
Theorem every_run_keeps_invariants (cache : Dict (list string))
  (clipboard : option string) (store : gmap (string * string) string)
  (fs : Files) (actions : list action) :
  tree_ok
    (tree (fold_left perform actions (KeyVault.init_with cache clipboard store fs)))
  = true.
Proof.
  assert (H0 : tree_ok (tree (KeyVault.init_with cache clipboard store fs)) = true).
  { unfold KeyVault.init_with. cbn [State.set_tree tree with_tree].
    apply tree_ok_set, tree_ok_new. }
  revert H0. generalize (KeyVault.init_with cache clipboard store fs).
  induction actions as [|a r IH]; intros st0 H0; cbn [fold_left]; [exact H0|].
  apply IH. now apply perform_tree_ok.
Qed.

Lemma every_run_keeps_invariants_witness :
  exists st0,
    KeyVault.__init__ None ∅ (mkFiles true (Some (json.dumps odd_cache))) = Some st0
    /\ tree_ok (tree (fold_left perform sample_run st0)) = true
    /\ SharedState.get_tree (tree (fold_left perform sample_run st0))
       = [("Mail", ["al"; "x"]); ("Shop", ["carol"])].
Proof.
  eexists. split; [reflexivity|]. split; [|reflexivity].
  apply (every_run_keeps_invariants odd_cache None ∅
           (mkFiles true (Some (json.dumps odd_cache))) sample_run).
Defined.

(** ** Import, case, and undoing a save *)

(** X26.  The import keeps every account of the cache and invents none: after
    [set_tree], the lookup finds an entry exactly when it found it before or
    the cache lists it, up to case. *)
Theorem import_lookup (t : Treeview) (cache : Dict (list string)) (s u : string) :
  tree_wf t = true ->
  has_account (SharedState.set_tree t cache) s u
  = has_account t s u
    || existsb (fun e => same_label (fst e) s
                         && existsb (fun x => same_label x u) (snd e)) cache.
Proof.
  intros Hwf. apply tree_wf_WF in Hwf.
  destruct (set_tree_forest cache t Hwf) as [H1 H2].
  rewrite !has_account_forest by assumption. rewrite H2. apply forest_has_set.
Qed.

Lemma import_lookup_witness :
  has_account (SharedState.set_tree Tk.Treeview_new odd_cache) "MAIL" "X" = true
  /\ has_account (SharedState.set_tree Tk.Treeview_new odd_cache) "e" "x" = false
  /\ has_account (SharedState.set_tree Tk.Treeview_new [(E_acute, ["x"])])
                 e_acute "X" = true.
Proof.
  rewrite !(import_lookup Tk.Treeview_new odd_cache _ _ eq_refl).
  rewrite (import_lookup Tk.Treeview_new [(E_acute, ["x"])] e_acute "X" eq_refl).
  split; [|split]; reflexivity.
Defined.

(** X27.  The lookups do not see the case of what is asked for. *)
Theorem lookup_ignores_case (t : Treeview) (s s' u u' : string) :
  same_label s s' = true -> same_label u u' = true ->
  SharedState.get_service_id t s = SharedState.get_service_id t s'
  /\ (forall i, SharedState.get_username_id t i u
                = SharedState.get_username_id t i u')
  /\ has_account t s u = has_account t s' u'.
Proof.
  intros Hs Hu.
  assert (E1 : SharedState.get_service_id t s = SharedState.get_service_id t s').
  { unfold SharedState.get_service_id. apply find_ext_in. intros x _.
    now apply same_label_left. }
  assert (E2 : forall i, SharedState.get_username_id t i u
                         = SharedState.get_username_id t i u').
  { intros i. unfold SharedState.get_username_id. apply find_ext_in. intros x _.
    now apply same_label_left. }
  split; [exact E1|]. split; [exact E2|].
  unfold has_account. rewrite E1.
  destruct (SharedState.get_service_id t s'); [now rewrite E2 | reflexivity].
Qed.

Lemma lookup_ignores_case_witness :
  has_account sample_tree "MAIL" "ALICE" = has_account sample_tree "mail" "Alice"
  /\ SharedState.get_service_id latin1_tree e_acute
     = SharedState.get_service_id latin1_tree E_acute.
Proof.
  split.
  - apply (lookup_ignores_case sample_tree "MAIL" "mail" "ALICE" "Alice");
      reflexivity.
  - apply (lookup_ignores_case latin1_tree e_acute E_acute "x" "X"); reflexivity.
Defined.

(** X28.  Saving an account that neither the tree nor the store had, then deleting
    it, undoes the save: the store is as before, and the tree and the cache
    file hold the export of before. *)
Theorem save_then_delete_undoes (st : App) :
  State.service st <> EmptyString -> State.username st <> EmptyString ->
  State.password st <> EmptyString -> tree_ok (tree st) = true ->
  has_account (tree st) (State.service st) (State.username st) = false ->
  secrets st !! (State.service st, State.username st) = None ->
  let st' := ToolboxFrame.del_password (ToolboxFrame.set_password st) in
  secrets st' = secrets st
  /\ SharedState.get_tree (tree st') = SharedState.get_tree (tree st)
  /\ KeyVault.get_cache (files st') = Some (SharedState.get_tree (tree st))
  /\ State.message st' = "[INFO]: Password deleted from keyring.".
Proof.
  intros Hs Hu Hp Hok Hh Hk. cbv zeta.
  rewrite (set_password_done st Hs Hu Hp). cbv zeta.
  rewrite del_password_done by assumption. cbn.
  rewrite lookup_insert_eq.
  pose proof (tree_ok_del _ (State.service st) (State.username st)
                (tree_ok_add _ (State.service st) (State.username st) Hok)) as Hok2.
  assert (HT : SharedState.get_tree
                 (SharedState.del_username
                    (SharedState.add_username (tree st) (State.service st)
                       (State.username st))
                    (State.service st) (State.username st))
               = SharedState.get_tree (tree st)).
  { rewrite (get_tree_ok _ Hok2), (get_tree_ok _ Hok).
    pose proof Hok as Hok'. apply tree_ok_forest in Hok' as [Hwf [Hun Hc]].
    rewrite has_account_forest in Hh by assumption.
    destruct (add_username_forest (tree st) (State.service st) (State.username st) Hwf)
      as [H1 H2].
    destruct (del_username_forest _ (State.service st) (State.username st) H1)
      as [H3 H4].
    rewrite H4, H2. now apply forest_del_add. }
  split; [now apply delete_insert_id|].
  split; [exact HT|]. split; [|reflexivity].
  rewrite HT, loads_dumps. f_equal. apply dict_of_id, get_tree_NoDup.
Qed.

Lemma save_then_delete_undoes_witness :
  secrets (ToolboxFrame.del_password (ToolboxFrame.set_password fresh_app))
  = secrets fresh_app
  /\ SharedState.get_tree
       (tree (ToolboxFrame.del_password (ToolboxFrame.set_password fresh_app)))
     = SharedState.get_tree sample_tree.
Proof.
  assert (H1 : State.service fresh_app <> EmptyString) by discriminate.
  assert (H2 : State.username fresh_app <> EmptyString) by discriminate.
  assert (H3 : State.password fresh_app <> EmptyString) by discriminate.
  pose proof (save_then_delete_undoes fresh_app H1 H2 H3 eq_refl eq_refl eq_refl)
    as H.
  cbv zeta in H. destruct H as [H4 [H5 _]]. split; [exact H4 | exact H5].
Defined.

Lemma set_tree_present cache : forall t,
  (forall e x, In e cache -> In x (snd e) -> has_account t (fst e) x = true) ->
  SharedState.set_tree t cache = t.
Proof.
  unfold SharedState.set_tree.
  induction cache as [|[key value] r IH]; intros t H; cbn [fold_left]; [reflexivity|].
  assert (E : fold_left (fun t' item => SharedState.add_username t' key item) value t
              = t).
  { assert (Hv : forall x, In x value -> has_account t key x = true)
      by (intros x Hx; apply (H (key, value) x); [now left | exact Hx]).
    clear H IH. induction value as [|x xs IHx]; cbn [fold_left]; [reflexivity|].
    rewrite add_username_present by (apply Hv; now left).
    apply IHx. intros y Hy. apply Hv. now right. }
  rewrite E. apply IH. intros e x He Hx. apply H; [now right | exact Hx].
Qed.

(** X29.  Importing a cache a second time changes nothing, identifiers included. *)
Theorem import_idempotent (t : Treeview) (cache : Dict (list string)) :
  tree_wf t = true ->
  SharedState.set_tree (SharedState.set_tree t cache) cache
  = SharedState.set_tree t cache.
Proof.
  intros Hwf. apply tree_wf_WF in Hwf.
  destruct (set_tree_forest cache t Hwf) as [H1 H2].
  apply set_tree_present. intros e x He Hx.
  rewrite has_account_forest by assumption. rewrite H2, forest_has_set.
  apply orb_true_iff. right. apply existsb_exists. exists e. split; [exact He|].
  rewrite same_label_refl. cbn [andb]. apply existsb_exists. exists x.
  split; [exact Hx | apply same_label_refl].
Qed.

Lemma import_idempotent_witness :
  SharedState.set_tree (SharedState.set_tree sample_tree odd_cache) odd_cache
  = SharedState.set_tree sample_tree odd_cache
  /\ SharedState.get_tree (SharedState.set_tree sample_tree odd_cache)
     = [("Mail", ["bob"; "alice"; "al"; "x"]); ("svc", ["u1"])].
Proof.
  split; [|reflexivity].
  apply (import_idempotent sample_tree odd_cache eq_refl).
Defined.
